(** * redis_opentracing: tracing wrappers around a Redis client

    A shallow embedding of [redis_opentracing/__init__.py].  The module is
    Python 2 code (it calls the [unicode] builtin and writes [u''] literals),
    so a [str] is a byte string, a [unicode] is a sequence of code points, and
    the implicit conversions between the two go through the ASCII codec.

    The Redis client library and the tracer are external: the client's own
    methods are an opaque [Library], and the tracer is the list of spans it
    has been asked to start, with their tags and the number of times each was
    finished. *)

From Stdlib Require Import ZArith String Ascii List DecimalString.
From stdpp Require Import base option list gmap strings.

Local Open Scope string_scope.
Local Open Scope list_scope.

(** ** Python values *)

(** An object is referred to by its identity. *)
Definition ref := nat.

(** [str] is a byte string; [unicode] text is a list of code points. *)
Definition ustring := list N.

Inductive pyval : Type :=
| PyNone
| PyBool (b : bool)
| PyInt (z : Z)
| PyStr (s : string)
| PyUnicode (u : ustring)
| PyClass (cls : string)
| PyRef (r : ref).

(** Exceptions in flight.  [LibraryError n] stands for the exceptions of
    the client library (connection errors, response errors, ...).  The last
    three derive from [BaseException] and not from [Exception]. *)
Inductive exn : Type :=
| IndexError
| AttributeError
| TypeError
| UnicodeEncodeError
| UnicodeDecodeError
| LibraryError (code : nat)
| KeyboardInterrupt
| SystemExit
| GeneratorExit.

(** [isinstance(e, Exception)] *)
Definition is_Exception (e : exn) : bool :=
  match e with
  | KeyboardInterrupt | SystemExit | GeneratorExit => false
  | _ => true
  end.

(** The outcome of evaluating a Python expression: a value, or an exception
    in flight. *)
Inductive outcome (A : Type) : Type :=
| Return (a : A)
| Raise (e : exn).
Arguments Return {A} a.
Arguments Raise {A} e.

Definition obind {A B} (o : outcome A) (k : A -> outcome B) : outcome B :=
  match o with
  | Return a => k a
  | Raise e => Raise e
  end.

(** A list comprehension [[f(x) for x in l]]: left to right, the first
    exception ends it. *)
Fixpoint omap {A B} (f : A -> outcome B) (l : list A) : outcome (list B) :=
  match l with
  | [] => Return []
  | x :: l' => obind (f x) (fun y => obind (omap f l') (fun ys => Return (y :: ys)))
  end.

(** [**kwargs] is a dict from names to values. *)
Abbreviation kwargs := (gmap string pyval).

(** ** Text: the ASCII codec, [str()], [unicode()], [join] *)

Definition bytes_of (s : string) : list N := map N_of_ascii (list_ascii_of_string s).

(** The code points of an ASCII literal, as in [u'{bytes}']. *)
Definition ulit (s : string) : ustring := bytes_of s.

Definition is_ascii (l : list N) : bool := forallb (fun c => (c <? 128)%N) l.

(** [unicode(s)] for a byte string [s]: decoding with the default (ASCII)
    codec. *)
Definition unicode (s : string) : outcome ustring :=
  if is_ascii (bytes_of s) then Return (bytes_of s) else Raise UnicodeDecodeError.

(** [x.encode('ascii')] for a unicode [x], what [str(x)] does. *)
Definition encode_ascii (x : ustring) : outcome string :=
  if is_ascii x then Return (string_of_list_ascii (map ascii_of_N x))
  else Raise UnicodeEncodeError.

Definition str_of_Z (z : Z) : string := NilZero.string_of_int (Z.to_int z).

(** [sep.join(items)] on unicode items. *)
Fixpoint ujoin (sep : ustring) (items : list ustring) : ustring :=
  match items with
  | [] => []
  | [x] => x
  | x :: rest => x ++ sep ++ ujoin sep rest
  end.

Fixpoint sjoin (sep : string) (items : list string) : string :=
  match items with
  | [] => ""
  | [x] => x
  | x :: rest => x +:+ sep +:+ sjoin sep rest
  end.

Definition is_PyStr (v : pyval) : bool :=
  match v with PyStr _ => true | _ => false end.

Definition str_payload (v : pyval) : string :=
  match v with PyStr s => s | _ => "" end.

(** An item of a join coerced to unicode: a [str] is decoded as ASCII. *)
Definition coerce_unicode (v : pyval) : outcome ustring :=
  match v with
  | PyStr s => unicode s
  | PyUnicode x => Return x
  | _ => Raise TypeError
  end.

(** [sep.join(items)] for a [str] separator: a [str] when every item is a
    [str] (and so for no item at all), otherwise a [unicode], the [str]
    parts decoded as ASCII; an item that is no string is a [TypeError]. *)
Definition str_join (sep : string) (items : list pyval) : outcome pyval :=
  if forallb is_PyStr items then Return (PyStr (sjoin sep (map str_payload items)))
  else obind (omap coerce_unicode items) (fun us =>
       obind (unicode sep) (fun usep => Return (PyUnicode (ujoin usep us)))).

(** The text a string value holds, when it is ASCII or unicode. *)
Definition text_of (v : pyval) : option ustring :=
  match v with
  | PyStr s => if is_ascii (bytes_of s) then Some (bytes_of s) else None
  | PyUnicode x => Some x
  | _ => None
  end.

(** ** Module constants *)

Definition _ARGUMENT_LENGTH_LIMIT : nat := 128.

(** The tag names of [opentracing.ext.tags]. *)
Definition PEER_HOST_IPV4 : string := "peer.ipv4".
Definition PEER_HOSTNAME : string := "peer.hostname".
Definition PEER_PORT : string := "peer.port".

(** ** [IPV4_RE = re.compile(r'^\d{1,3}\.\d{1,3}\.\d{1,3}\.\d{1,3}$')] *)

Definition is_digit (c : N) : bool := ((48 <=? c) && (c <=? 57))%N.

(** [\d{1,3}]: what is left of the input after one, two or three digits. *)
Definition digits_1_3 (l : list N) : list (list N) :=
  match l with
  | a :: l1 =>
      if is_digit a then
        l1 :: match l1 with
              | b :: l2 =>
                  if is_digit b then
                    l2 :: match l2 with
                          | c :: l3 => if is_digit c then [l3] else []
                          | [] => []
                          end
                  else []
              | [] => []
              end
      else []
  | [] => []
  end.

(** [\.] *)
Definition dot (l : list N) : list (list N) :=
  match l with
  | 46%N :: l1 => [l1]
  | _ => []
  end.

(** [$]: the end of the input, or just before a final newline. *)
Definition at_end (l : list N) : bool :=
  match l with
  | [] => true
  | [10%N] => true
  | _ => false
  end.

Definition seq_re (p q : list N -> list (list N)) (l : list N) : list (list N) :=
  concat (map q (p l)).

Definition IPV4_RE_match (l : list N) : bool :=
  existsb at_end
    (seq_re digits_1_3 (seq_re dot (seq_re digits_1_3 (seq_re dot
      (seq_re digits_1_3 (seq_re dot digits_1_3))))) l).

(** [IPV4_RE.match(host)]: a string is wanted. *)
Definition IPV4_RE_match_val (host : pyval) : outcome bool :=
  match host with
  | PyStr s => Return (IPV4_RE_match (bytes_of s))
  | PyUnicode x => Return (IPV4_RE_match x)
  | _ => Raise TypeError
  end.

(** ** Objects, callables, spans *)

(** A queued pipeline command: [(args, options)]. *)
Abbreviation command := (list pyval * gmap string pyval)%type.

(** The callables that sit in a method slot: the library's own functions,
    bound methods, and the closures this module installs, each holding what
    the closure captured. *)
Inductive method : Type :=
| Original (cls name : string)
| Bound (self : ref) (func : method)
| TracingExecuteCommand (execute_command_method : method) (is_klass : bool)
| KlassTracingPipeline (pipeline_method : method)
| KlassTracingPubsub (pubsub_method : method)
| ClientTracingPipeline (pipeline_method : method)
| ClientTracingPubsub (pubsub_method : method)
| TracingExecute (pipe : pyval) (execute_method : method)
| TracingImmediateExecuteCommand (pipe : pyval) (immediate_execute_method : method)
| TracingParseResponse (pubsub : pyval) (parse_response_method : method).

(** An instance: its class, the data attributes this module reads (absent
    when [None]), and the callables assigned on the instance itself. *)
Record object : Type := {
  obj_class : string;
  connection_pool : option pyval;
  connection_kwargs : option (gmap string pyval);
  command_stack : option (list command);
  obj_dict : gmap string method
}.

Inductive tagval : Type :=
| TagVal (v : pyval)
| TagExc (e : exn).

Record span : Type := {
  operation_name : pyval;
  parent : option nat;
  tags : gmap string tagval;
  finished : nat
}.

(** The client library: the behaviour of its own methods on the objects and
    on the store behind them, and what [str(obj)] and [bool(obj)] give for
    its objects. *)
Class Library : Type := {
  store : Type;
  lib_call : string -> string -> ref -> list pyval -> gmap string pyval ->
             gmap ref object -> store ->
             outcome pyval * gmap ref object * store;
  obj_str : ref -> outcome string;
  obj_truth : object -> bool
}.

Section Model.
Context {L : Library}.

(** ** The state of the process *)

Record world : Type := {
  g_trace_prefix : pyval;
  g_trace_all_classes : pyval;
  classes : gmap string (gmap string method);
  heap : gmap ref object;
  spans : list span;
  current_span : option nat;
  lib_state : store
}.

Definition set_globals (all_classes prefix : pyval) (w : world) : world :=
  {| g_trace_prefix := prefix; g_trace_all_classes := all_classes;
     classes := classes w; heap := heap w; spans := spans w;
     current_span := current_span w; lib_state := lib_state w |}.

Definition set_classes (c : gmap string (gmap string method)) (w : world) : world :=
  {| g_trace_prefix := g_trace_prefix w; g_trace_all_classes := g_trace_all_classes w;
     classes := c; heap := heap w; spans := spans w;
     current_span := current_span w; lib_state := lib_state w |}.

Definition set_heap (h : gmap ref object) (w : world) : world :=
  {| g_trace_prefix := g_trace_prefix w; g_trace_all_classes := g_trace_all_classes w;
     classes := classes w; heap := h; spans := spans w;
     current_span := current_span w; lib_state := lib_state w |}.

Definition set_spans (s : list span) (w : world) : world :=
  {| g_trace_prefix := g_trace_prefix w; g_trace_all_classes := g_trace_all_classes w;
     classes := classes w; heap := heap w; spans := s;
     current_span := current_span w; lib_state := lib_state w |}.

Definition set_lib (h : gmap ref object) (s : store) (w : world) : world :=
  {| g_trace_prefix := g_trace_prefix w; g_trace_all_classes := g_trace_all_classes w;
     classes := classes w; heap := h; spans := spans w;
     current_span := current_span w; lib_state := s |}.

(** ** The monad of Python code: state and exceptions *)

Definition M (A : Type) : Type := world -> outcome A * world.

Definition ret {A} (a : A) : M A := fun w => (Return a, w).

Definition raise {A} (e : exn) : M A := fun w => (Raise e, w).

Definition bind {A B} (m : M A) (k : A -> M B) : M B :=
  fun w => match m w with
           | (Return a, w1) => k a w1
           | (Raise e, w1) => (Raise e, w1)
           end.

Definition lift {A} (o : outcome A) : M A := fun w => (o, w).

Definition gets {A} (f : world -> A) : M A := fun w => (Return (f w), w).

Definition modify (f : world -> world) : M unit := fun w => (Return tt, f w).

(** [try: body  except Exception as exc: handler(exc)]: an exception that
    is no instance of [Exception] passes through. *)
Definition try_except {A} (body : M A) (handler : exn -> M A) : M A :=
  fun w => match body w with
           | (Return a, w1) => (Return a, w1)
           | (Raise e, w1) => if is_Exception e then handler e w1 else (Raise e, w1)
           end.

(** [try: body  finally: final]: [final] runs on both ways out; the outcome
    is the body's unless [final] itself raises. *)
Definition try_finally {A} (body : M A) (final : M unit) : M A :=
  fun w => match body w with
           | (r, w1) => match final w1 with
                        | (Return _, w2) => (r, w2)
                        | (Raise e, w2) => (Raise e, w2)
                        end
           end.

(** [for x in l: body(x)] *)
Fixpoint for_each {A} (l : list A) (body : A -> M unit) : M unit :=
  match l with
  | [] => ret tt
  | x :: l' => bind (body x) (fun _ => for_each l' body)
  end.

End Model.

Declare Scope py_scope.
Delimit Scope py_scope with py.
Notation "x <- m ;; k" := (bind m (fun x => k))
  (at level 100, m at next level, right associativity) : py_scope.
Notation "m ;;; k" := (bind m (fun _ => k))
  (at level 100, right associativity) : py_scope.
Local Open Scope py_scope.

Section Builtins.
Context {L : Library}.

(** ** Builtins and attribute access *)

(** [str(val)].  A unicode is encoded with the ASCII codec, which raises on
    a code point above 127; an object answers through its [__str__]. *)
Definition py_str (val : pyval) : outcome string :=
  match val with
  | PyNone => Return "None"
  | PyBool true => Return "True"
  | PyBool false => Return "False"
  | PyInt z => Return (str_of_Z z)
  | PyStr s => Return s
  | PyUnicode x => encode_ascii x
  | PyClass cls => Return ("<class '" +:+ cls +:+ "'>")
  | PyRef r => obj_str r
  end.

(** The truth value of [val] in [if val:]. *)
Definition py_truth (h : gmap ref object) (val : pyval) : bool :=
  match val with
  | PyNone => false
  | PyBool b => b
  | PyInt z => negb (z =? 0)%Z
  | PyStr s => negb (String.eqb s "")
  | PyUnicode x => match x with [] => false | _ => true end
  | PyClass _ => true
  | PyRef r => match h !! r with Some o => obj_truth o | None => true end
  end.

Definition truth (val : pyval) : M bool := gets (fun w => py_truth (heap w) val).

Definition is_None (val : pyval) : bool :=
  match val with PyNone => true | _ => false end.

(** [l[0]] *)
Definition item0 (l : list pyval) : M pyval :=
  match l with
  | x :: _ => ret x
  | [] => raise IndexError
  end.

(** The instance behind a value, for reading a data attribute: anything that
    is not an instance has none of the attributes read here. *)
Definition instance (val : pyval) : M object :=
  match val with
  | PyRef r => o <- gets (fun w => heap w !! r) ;;
               match o with Some o => ret o | None => raise AttributeError end
  | _ => raise AttributeError
  end.

(** [hasattr(val, 'connection_pool')] *)
Definition hasattr_connection_pool (val : pyval) : M bool :=
  match val with
  | PyRef r => gets (fun w => match heap w !! r with
                              | Some o => bool_decide (is_Some (connection_pool o))
                              | None => false
                              end)
  | _ => ret false
  end.

(** [val.connection_pool] *)
Definition get_connection_pool (val : pyval) : M pyval :=
  o <- instance val ;;
  match connection_pool o with Some p => ret p | None => raise AttributeError end.

(** [val.connection_kwargs] *)
Definition get_connection_kwargs (val : pyval) : M (gmap string pyval) :=
  o <- instance val ;;
  match connection_kwargs o with Some d => ret d | None => raise AttributeError end.

(** [val.command_stack] *)
Definition get_command_stack (val : pyval) : M (list command) :=
  o <- instance val ;;
  match command_stack o with Some s => ret s | None => raise AttributeError end.

(** [d.get(key)] *)
Definition dict_get (d : gmap string pyval) (key : string) : pyval :=
  default PyNone (d !! key).

(** The classes of the client library, redis-py 2.10, in the order Python
    searches them for an attribute: [Redis] derives from [StrictRedis],
    [StrictPipeline] from [BasePipeline] and [StrictRedis], [Pipeline] from
    [BasePipeline] and [Redis]; every other class stands alone. *)
Definition mro (cls : string) : list string :=
  if String.eqb cls "redis.client.Redis"
  then [cls; "redis.client.StrictRedis"]
  else if String.eqb cls "redis.client.StrictPipeline"
  then [cls; "redis.client.BasePipeline"; "redis.client.StrictRedis"]
  else if String.eqb cls "redis.client.Pipeline"
  then [cls; "redis.client.BasePipeline"; "redis.client.Redis";
        "redis.client.StrictRedis"]
  else [cls].

(** Which of the methods this module assigns a class of the library defines
    in its own body: [BasePipeline] has its own [execute_command],
    [immediate_execute_command], [execute] and [parse_response], [Redis] its
    own [pipeline]; [StrictPipeline] and [Pipeline] have an empty body. *)
Definition defines (cls name : string) : bool :=
  if String.eqb cls "redis.client.StrictRedis"
  then existsb (String.eqb name) ["execute_command"; "pipeline"; "pubsub"; "parse_response"]
  else if String.eqb cls "redis.client.BasePipeline"
  then existsb (String.eqb name)
         ["execute_command"; "immediate_execute_command"; "execute"; "parse_response"]
  else if String.eqb cls "redis.client.Redis"
  then String.eqb name "pipeline"
  else if String.eqb cls "redis.client.PubSub"
  then existsb (String.eqb name) ["execute_command"; "parse_response"]
  else false.

(** What was assigned under [name] on the first class of [l] that has an
    attribute of that name, if that attribute was assigned: a class that
    defines the name itself and was not assigned to hides the classes after
    it. *)
Fixpoint inherited (assigned : gmap string (gmap string method)) (l : list string)
    (name : string) : option method :=
  match l with
  | [] => None
  | c :: rest =>
      match assigned !! c ≫= (.!! name) with
      | Some m => Some m
      | None => if defines c name then None else inherited assigned rest name
      end
  end.

(** [obj.name] for a method slot.  On an instance: what was assigned on the
    instance itself as it is, otherwise the class's function bound to the
    instance.  On a class: the class's function, which is what was assigned
    on the class or on a base it inherits the name from, and otherwise the
    library's own, [Original cls name]. *)
Definition class_function (w : world) (cls name : string) : method :=
  default (Original cls name) (inherited (classes w) (mro cls) name).

(** The objects of the library are taken to have the methods asked of
    them: a name that was never assigned is answered by the library's own
    function, [Original], and it is the call that the library rejects when
    it has no such method. *)
Definition getattr_method (obj : pyval) (name : string) : M method :=
  match obj with
  | PyRef r =>
      o <- instance obj ;;
      match obj_dict o !! name with
      | Some m => ret m
      | None => f <- gets (fun w => class_function w (obj_class o) name) ;;
                ret (Bound r f)
      end
  | PyClass cls => gets (fun w => class_function w cls name)
  | _ => raise AttributeError
  end.

Definition set_obj_dict (d : gmap string method) (o : object) : object :=
  {| obj_class := obj_class o; connection_pool := connection_pool o;
     connection_kwargs := connection_kwargs o; command_stack := command_stack o;
     obj_dict := d |}.

(** [obj.name = m] *)
Definition setattr_method (obj : pyval) (name : string) (m : method) : M unit :=
  match obj with
  | PyRef r =>
      o <- instance obj ;;
      modify (fun w => set_heap (<[r := set_obj_dict (<[name := m]> (obj_dict o)) o]> (heap w)) w)
  | PyClass cls =>
      modify (fun w => set_classes
                (<[cls := <[name := m]> (default ∅ (classes w !! cls))]> (classes w)) w)
  | _ => raise AttributeError
  end.

(** Binding a call's arguments to a signature [(name, default)...]: the
    values of the parameters in order and the keywords left over; a
    [TypeError] for a positional argument too many, a parameter given twice,
    or one without a value. *)
Fixpoint bind_params (params : list (string * option pyval))
    (args : list pyval) (kw : kwargs) : outcome (list pyval * kwargs) :=
  match params with
  | [] => match args with
          | [] => Return ([], kw)
          | _ :: _ => Raise TypeError
          end
  | (name, dflt) :: params' =>
      match args with
      | a :: args' =>
          match kw !! name with
          | Some _ => Raise TypeError
          | None => obind (bind_params params' args' kw)
                      (fun b => Return (a :: fst b, snd b))
          end
      | [] =>
          match kw !! name, dflt with
          | Some v, _ => obind (bind_params params' [] (delete name kw))
                           (fun b => Return (v :: fst b, snd b))
          | None, Some d => obind (bind_params params' [] kw)
                              (fun b => Return (d :: fst b, snd b))
          | None, None => Raise TypeError
          end
      end
  end.

(** A signature without [**kwargs]: no keyword may be left over. *)
Definition bind_exact (params : list (string * option pyval))
    (args : list pyval) (kw : kwargs) : outcome (list pyval) :=
  obind (bind_params params args kw)
    (fun b => if decide (size (snd b) = 0) then Return (fst b) else Raise TypeError).

Definition param (i : nat) (vs : list pyval) : pyval := nth i vs PyNone.

(** ** The tracer *)

(** [opentracing_instrumentation.utils.start_child_span(operation_name,
    parent=opentracing_instrumentation.get_current_span())] *)
Definition start_child_span (name : pyval) : M nat :=
  fun w => (Return (length (spans w)),
            set_spans (spans w ++ [{| operation_name := name; parent := current_span w;
                                      tags := ∅; finished := 0 |}]) w).

Definition add_tag (key : string) (val : tagval) (sp : span) : span :=
  {| operation_name := operation_name sp; parent := parent sp;
     tags := <[key := val]> (tags sp); finished := finished sp |}.

Definition mark_finished (sp : span) : span :=
  {| operation_name := operation_name sp; parent := parent sp;
     tags := tags sp; finished := S (finished sp) |}.

(** [span.set_tag(key, val)] *)
Definition set_tag (sp : nat) (key : string) (val : tagval) : M unit :=
  modify (fun w => set_spans (alter (add_tag key val) sp (spans w)) w).

(** [span.finish()] *)
Definition finish (sp : nat) : M unit :=
  modify (fun w => set_spans (alter mark_finished sp (spans w)) w).

(** A call of one of the library's own methods. *)
Definition library_call (cls name : string) (self : ref)
    (args : list pyval) (kw : kwargs) : M pyval :=
  fun w => match lib_call cls name self args kw (heap w) (lib_state w) with
           | (r, h, s) => (r, set_lib h s w)
           end.

End Builtins.

Section Source.
Context {L : Library}.

(** ** Names and statements *)

(** A replacement field of [str.format]: the value's [str()]. *)
Definition format_field (val : pyval) : outcome string := py_str val.

Definition _get_operation_name (operation_name : pyval) : M pyval :=
  prefix <- gets g_trace_prefix ;;
  if is_None prefix then ret operation_name
  else lift (obind (format_field prefix) (fun p =>
             obind (format_field operation_name) (fun n =>
             Return (PyStr (p +:+ "/" +:+ n))))).

(** [str(val)] is evaluated before the [try]; the bare [except] takes
    whatever [unicode(val)] raises. *)
Definition _truncate (val : pyval) : outcome pyval :=
  obind (py_str val) (fun val =>
    match unicode val with
    | Return val =>
        Return (PyUnicode (if (_ARGUMENT_LENGTH_LIMIT <? length val)%nat
                           then take _ARGUMENT_LENGTH_LIMIT val
                           else val))
    | Raise _ => Return (PyUnicode (ulit "{bytes}"))
    end).

Definition _normalize_stmt (args : list pyval) : outcome pyval :=
  obind (omap _truncate args) (str_join " ").

Definition _normalize_stmts (command_stack : list command) : outcome pyval :=
  obind (omap (fun command => _normalize_stmt (fst command)) command_stack)
        (str_join ";").

(** ** Span tags *)

Definition _peer_tags (self : pyval) : M (list (string * pyval)) :=
  has <- hasattr_connection_pool self ;;
  connection_pool <- (if has : bool then get_connection_pool self else ret self) ;;
  conn_info <- get_connection_kwargs connection_pool ;;
  let host := dict_get conn_info "host" in
  host_given <- truth host ;;
  peer_host <- (if host_given : bool
                then is_ipv4 <- lift (IPV4_RE_match_val host) ;;
                     ret [(if is_ipv4 : bool then PEER_HOST_IPV4 else PEER_HOSTNAME, host)]
                else ret []) ;;
  let port := dict_get conn_info "port" in
  port_given <- truth port ;;
  ret (peer_host ++ if port_given : bool then [(PEER_PORT, port)] else []).

Definition _set_base_span_tags (self : pyval) (span : nat) (stmt : pyval) : M unit :=
  self_given <- truth self ;;
  (if self_given : bool
   then peer_tags <- _peer_tags self ;;
        for_each peer_tags (fun t => set_tag span (fst t) (TagVal (snd t)))
   else ret tt) ;;;
  set_tag span "component" (TagVal (PyStr "redis-py")) ;;;
  set_tag span "db.type" (TagVal (PyStr "redis")) ;;;
  set_tag span "db.statement" (TagVal stmt) ;;;
  set_tag span "span.kind" (TagVal (PyStr "client")).

(** ** Installing the wrappers *)

Definition StrictRedis : pyval := PyClass "redis.client.StrictRedis".

Definition _patch_obj_execute_command (redis_obj : pyval) (is_klass : bool) : M unit :=
  execute_command_method <- getattr_method redis_obj "execute_command" ;;
  setattr_method redis_obj "execute_command"
    (TracingExecuteCommand execute_command_method is_klass).

Definition _patch_pipe_execute (pipe : pyval) : M unit :=
  execute_method <- getattr_method pipe "execute" ;;
  setattr_method pipe "execute" (TracingExecute pipe execute_method) ;;;
  immediate_execute_method <- getattr_method pipe "immediate_execute_command" ;;
  setattr_method pipe "immediate_execute_command"
    (TracingImmediateExecuteCommand pipe immediate_execute_method).

Definition _patch_pubsub_parse_response (pubsub : pyval) : M unit :=
  parse_response_method <- getattr_method pubsub "parse_response" ;;
  setattr_method pubsub "parse_response" (TracingParseResponse pubsub parse_response_method).

Definition _patch_pubsub (pubsub : pyval) : M unit :=
  _patch_pubsub_parse_response pubsub ;;;
  _patch_obj_execute_command pubsub false.

Definition _patch_redis_classes : M unit :=
  _patch_obj_execute_command StrictRedis true ;;;
  pipeline_method <- getattr_method StrictRedis "pipeline" ;;
  setattr_method StrictRedis "pipeline" (KlassTracingPipeline pipeline_method) ;;;
  pubsub_method <- getattr_method StrictRedis "pubsub" ;;
  setattr_method StrictRedis "pubsub" (KlassTracingPubsub pubsub_method).

Definition _patch_client (client : pyval) : M unit :=
  _patch_obj_execute_command client false ;;;
  pipeline_method <- getattr_method client "pipeline" ;;
  setattr_method client "pipeline" (ClientTracingPipeline pipeline_method) ;;;
  pubsub_method <- getattr_method client "pubsub" ;;
  setattr_method client "pubsub" (ClientTracingPubsub pubsub_method).

(** ** The public functions *)

Definition setup_tracing (trace_all_classes prefix : pyval) : M unit :=
  modify (set_globals trace_all_classes prefix) ;;;
  flag <- gets g_trace_all_classes ;;
  on <- truth flag ;;
  if on : bool then _patch_redis_classes else ret tt.

Definition trace_client (client : pyval) : M unit := _patch_client client.

Definition trace_pipeline (pipe : pyval) : M unit := _patch_pipe_execute pipe.

Definition trace_pubsub (pubsub : pyval) : M unit := _patch_pubsub pubsub.

(** ** The wrappers

    Each takes what its closure captured, then the arguments of the call. *)

Abbreviation callable := (list pyval -> gmap string pyval -> M pyval).

(** The [except Exception as exc] clause that tags and re-raises. *)
Definition tag_error (span : nat) (exc : exn) : M unit :=
  set_tag span "error" (TagVal (PyStr "true")) ;;;
  set_tag span "error.object" (TagExc exc).

Definition tracing_execute_command (execute_command_method : callable)
    (is_klass : bool) (args : list pyval) (kw : kwargs) : M pyval :=
  self <- (if is_klass then item0 args else ret PyNone) ;;
  let reported_args := if is_klass then tail args else args in
  command <- item0 reported_args ;;
  name <- _get_operation_name command ;;
  span <- start_child_span name ;;
  stmt <- lift (_normalize_stmt reported_args) ;;
  _set_base_span_tags self span stmt ;;;
  try_finally
    (try_except (execute_command_method args kw)
                (fun exc => tag_error span exc ;;; raise exc))
    (finish span).

Definition tracing_execute (pipe : pyval) (execute_method : callable)
    (args : list pyval) (kw : kwargs) : M pyval :=
  b <- lift (bind_exact [("raise_on_error", Some (PyBool true))] args kw) ;;
  let raise_on_error := param 0 b in
  stack <- get_command_stack pipe ;;
  match stack with
  | [] => execute_method [] {[ "raise_on_error" := raise_on_error ]}
  | _ :: _ =>
      name <- _get_operation_name (PyStr "MULTI") ;;
      span <- start_child_span name ;;
      stack <- get_command_stack pipe ;;
      stmt <- lift (_normalize_stmts stack) ;;
      _set_base_span_tags pipe span stmt ;;;
      try_finally
        (try_except (execute_method [] {[ "raise_on_error" := raise_on_error ]})
                    (fun exc => tag_error span exc ;;; raise exc))
        (finish span)
  end.

(** [res] is assigned and the function ends: the call evaluates to [None]. *)
Definition tracing_immediate_execute_command (pipe : pyval)
    (immediate_execute_method : callable) (args : list pyval) (kw : kwargs) : M pyval :=
  command <- item0 args ;;
  name <- _get_operation_name command ;;
  span <- start_child_span name ;;
  stmt <- lift (_normalize_stmt args) ;;
  _set_base_span_tags pipe span stmt ;;;
  try_finally
    (try_except (res <- immediate_execute_method args kw ;; ret tt)
                (fun exc => tag_error span exc))
    (finish span) ;;;
  ret PyNone.

Definition tracing_parse_response (pubsub : pyval) (parse_response_method : callable)
    (args : list pyval) (kw : kwargs) : M pyval :=
  b <- lift (bind_exact [("block", Some (PyBool true)); ("timeout", Some (PyInt 0))] args kw) ;;
  let block := param 0 b in
  let timeout := param 1 b in
  name <- _get_operation_name (PyStr "SUB") ;;
  span <- start_child_span name ;;
  _set_base_span_tags pubsub span (PyStr "") ;;;
  try_finally
    (try_except (parse_response_method [] (<[ "block" := block ]> {[ "timeout" := timeout ]}))
                (fun exc => tag_error span exc ;;; raise exc))
    (finish span).

Definition _patch_redis_classes_tracing_pipeline (pipeline_method : callable)
    (args : list pyval) (kw : kwargs) : M pyval :=
  b <- lift (bind_exact [("self", None); ("transaction", Some (PyBool true));
                         ("shard_hint", Some PyNone)] args kw) ;;
  pipe <- pipeline_method [param 0 b; param 1 b; param 2 b] ∅ ;;
  _patch_pipe_execute pipe ;;;
  ret pipe.

Definition _patch_redis_classes_tracing_pubsub (pubsub_method : callable)
    (args : list pyval) (kw : kwargs) : M pyval :=
  b <- lift (bind_params [("self", None)] args kw) ;;
  pubsub <- pubsub_method [param 0 (fst b)] (snd b) ;;
  _patch_pubsub pubsub ;;;
  ret pubsub.

Definition _patch_client_tracing_pipeline (pipeline_method : callable)
    (args : list pyval) (kw : kwargs) : M pyval :=
  b <- lift (bind_exact [("transaction", Some (PyBool true));
                         ("shard_hint", Some PyNone)] args kw) ;;
  pipe <- pipeline_method [param 0 b; param 1 b] ∅ ;;
  _patch_pipe_execute pipe ;;;
  ret pipe.

Definition _patch_client_tracing_pubsub (pubsub_method : callable)
    (args : list pyval) (kw : kwargs) : M pyval :=
  b <- lift (bind_params [] args kw) ;;
  pubsub <- pubsub_method [] (snd b) ;;
  _patch_pubsub pubsub ;;;
  ret pubsub.

(** ** Calling a callable *)

Fixpoint call (m : method) (args : list pyval) (kw : kwargs) {struct m} : M pyval :=
  match m with
  | Original cls name =>
      match args with
      | PyRef self :: args' => library_call cls name self args' kw
      | _ => raise TypeError
      end
  | Bound self func => call func (PyRef self :: args) kw
  | TracingExecuteCommand f is_klass => tracing_execute_command (call f) is_klass args kw
  | KlassTracingPipeline f => _patch_redis_classes_tracing_pipeline (call f) args kw
  | KlassTracingPubsub f => _patch_redis_classes_tracing_pubsub (call f) args kw
  | ClientTracingPipeline f => _patch_client_tracing_pipeline (call f) args kw
  | ClientTracingPubsub f => _patch_client_tracing_pubsub (call f) args kw
  | TracingExecute pipe f => tracing_execute pipe (call f) args kw
  | TracingImmediateExecuteCommand pipe f =>
      tracing_immediate_execute_command pipe (call f) args kw
  | TracingParseResponse pubsub f => tracing_parse_response pubsub (call f) args kw
  end.

(** A method call on an object: the attribute is looked up, then called. *)
Definition invoke (obj : pyval) (name : string) (args : list pyval) (kw : kwargs) : M pyval :=
  m <- getattr_method obj name ;;
  call m args kw.

End Source.

(** ** Vocabulary of the statements *)

Section Vocabulary.
Context {L : Library}.

(** The display form of a value, where [str()] gives one. *)
Definition display (val : pyval) : string :=
  match py_str val with Return s => s | Raise _ => "" end.

Definition displayable (val : pyval) : Prop := py_str val = Return (display val).

(** What a display form contributes to [db.statement]: its text cut to the
    limit, or the placeholder when it is not ASCII text. *)
Definition contribution (s : string) : ustring :=
  match unicode s with
  | Return t => take _ARGUMENT_LENGTH_LIMIT t
  | Raise _ => ulit "{bytes}"
  end.

Definition piece (val : pyval) : ustring := contribution (display val).

(** The statement of one command, and of a batch. *)
Definition statement_text (args : list pyval) : ustring :=
  ujoin (ulit " ") (map piece args).

Definition batch_text (stack : list command) : ustring :=
  ujoin (ulit ";") (map (fun c => statement_text (fst c)) stack).

(** The display forms cut to the limit and joined, with no placeholder. *)
Definition truncated_displays (args : list pyval) : ustring :=
  ujoin (ulit " ") (map (fun v => take _ARGUMENT_LENGTH_LIMIT (bytes_of (display v))) args).

(** The name of a span for [command] under the prefix of [w]. *)
Definition named (w : world) (command : pyval) : outcome pyval :=
  fst (_get_operation_name command w).

(** The name a span gets for [command] under [prefix]. *)
Definition expected_name (prefix command : pyval) : pyval :=
  match prefix with
  | PyNone => command
  | _ => PyStr (display prefix +:+ "/" +:+ display command)
  end.

(** The peer tags [_set_base_span_tags] asks for: none for a false [self]. *)
Definition peers_for (self : pyval) (w : world) : outcome (list (string * pyval)) :=
  if py_truth (heap w) self then fst (_peer_tags self w) else Return [].

(** The tags after [_set_base_span_tags], over the tags [t] already there. *)
Definition tag_all (peers : list (string * pyval)) (stmt : pyval)
    (t : gmap string tagval) : gmap string tagval :=
  <["span.kind" := TagVal (PyStr "client")]>
    (<["db.statement" := TagVal stmt]>
      (<["db.type" := TagVal (PyStr "redis")]>
        (<["component" := TagVal (PyStr "redis-py")]>
          (foldl (fun t p => <[fst p := TagVal (snd p)]> t) t peers)))).

Definition with_tags (t : gmap string tagval) (sp : span) : span :=
  {| operation_name := operation_name sp; parent := parent sp;
     tags := t; finished := finished sp |}.

Definition fresh_span (name : pyval) (w : world) : span :=
  {| operation_name := name; parent := current_span w; tags := ∅; finished := 0 |}.

Definition tagged_span (name : pyval) (peers : list (string * pyval)) (stmt : pyval)
    (w : world) : span :=
  {| operation_name := name; parent := current_span w;
     tags := tag_all peers stmt ∅; finished := 0 |}.

Definition push_span (sp : span) (w : world) : world :=
  set_spans (spans w ++ [sp]) w.

Definition on_span (f : span -> span) (sid : nat) (w : world) : world :=
  set_spans (alter f sid (spans w)) w.

Definition with_error (exc : exn) (sp : span) : span :=
  add_tag "error.object" (TagExc exc) (add_tag "error" (TagVal (PyStr "true")) sp).

(** What the [except Exception] clause leaves on the span: the error tags
    for an instance of [Exception], nothing for another exception. *)
Definition noted (exc : exn) (sp : span) : span :=
  if is_Exception exc then with_error exc sp else sp.

(** Span [sid] of [w] carries the error [exc] and was finished once. *)
Definition error_recorded (sid : nat) (exc : exn) (w : world) : Prop :=
  exists sp, spans w !! sid = Some sp /\
             tags sp !! "error" = Some (TagVal (PyStr "true")) /\
             tags sp !! "error.object" = Some (TagExc exc) /\
             finished sp = 1.

(** The signature of [execute], as the wrapper repeats it. *)
Definition execute_signature : list (string * option pyval) :=
  [("raise_on_error", Some (PyBool true))].

Definition parse_response_signature : list (string * option pyval) :=
  [("block", Some (PyBool true)); ("timeout", Some (PyInt 0))].

(** A span that the bookkeeping hands over is the last one, tagged and not
    yet finished. *)
Definition handed_over (w : world) (sid : nat) (w1 : world) : Prop :=
  exists name peers st,
    sid = length (spans w) /\ w1 = push_span (tagged_span name peers st w) w.

(** [self] has neither a [connection_pool] nor [connection_kwargs] of its
    own: so every value that is no instance, and an instance without the two
    attributes. *)
Definition lacks_configuration (w : world) (self : pyval) : Prop :=
  match self with
  | PyRef r =>
      match heap w !! r with
      | Some o => connection_pool o = None /\ connection_kwargs o = None
      | None => True
      end
  | _ => True
  end.

(** The [execute_command] found on [obj] is the wrapper installed for one
    object, the one that passes no originating object on. *)
Definition per_instance_wrapped (obj : pyval) (w : world) : Prop :=
  exists g, getattr_method obj "execute_command" w
            = (Return (TracingExecuteCommand g false), w).

Definition no_peer_tags (sp : span) : Prop :=
  tags sp !! PEER_HOST_IPV4 = None /\ tags sp !! PEER_HOSTNAME = None /\
  tags sp !! PEER_PORT = None.

(** The spans [l] are still the first spans of [w], untouched. *)
Definition keeps (l : list span) (w : world) : Prop :=
  exists more, spans w = l ++ more.

(** [c] leaves the spans [l] alone: it only adds spans after them and
    changes those. *)
Definition framed {A} (l : list span) (c : M A) : Prop :=
  forall w, keeps l w -> keeps l (snd (c w)).

(** [c] only reads the objects: it changes nothing, and what it gives
    depends on the heap alone. *)
Definition reads_heap {A} (c : M A) : Prop :=
  forall w w', heap w = heap w' -> c w' = (fst (c w), w').

(** [c] does not touch the tracer. *)
Definition silent {A} (c : M A) : Prop :=
  forall w, spans (snd (c w)) = spans w.

(** The bookkeeping of each wrapper: all it does before the [try]. *)
Definition open_tagged (self name : pyval) (stmt : M pyval) : M nat :=
  span <- start_child_span name ;;
  stmt <- stmt ;;
  _set_base_span_tags self span stmt ;;;
  ret span.

Definition prologue_execute_command (is_klass : bool) (args : list pyval) : M nat :=
  self <- (if is_klass then item0 args else ret PyNone) ;;
  command <- item0 (if is_klass then tail args else args) ;;
  name <- _get_operation_name command ;;
  open_tagged self name (lift (_normalize_stmt (if is_klass then tail args else args))).

Definition prologue_execute (pipe : pyval) : M nat :=
  name <- _get_operation_name (PyStr "MULTI") ;;
  open_tagged pipe name (stack <- get_command_stack pipe ;; lift (_normalize_stmts stack)).

Definition prologue_immediate (pipe : pyval) (args : list pyval) : M nat :=
  command <- item0 args ;;
  name <- _get_operation_name command ;;
  open_tagged pipe name (lift (_normalize_stmt args)).

Definition prologue_parse_response (pubsub : pyval) : M nat :=
  name <- _get_operation_name (PyStr "SUB") ;;
  open_tagged pubsub name (ret (PyStr "")).

End Vocabulary.

(** ** A small client library to run the module against

    Commands are logged in the store; a command named [BOOM] is answered with
    an error, one named [WAIT] is interrupted from the keyboard while it
    blocks; [execute] sends the queued commands and resets the pipeline;
    [parse_response] on a connection that was never subscribed raises. *)

Definition sends_boom (args : list pyval) : bool :=
  match args with
  | PyStr "BOOM" :: _ => true
  | _ => false
  end.

Definition sends_wait (args : list pyval) : bool :=
  match args with
  | PyStr "WAIT" :: _ => true
  | _ => false
  end.

Definition reset_stack (o : object) : object :=
  {| obj_class := obj_class o; connection_pool := connection_pool o;
     connection_kwargs := connection_kwargs o; command_stack := Some [];
     obj_dict := obj_dict o |}.

Definition demo_call (cls name : string) (self : ref) (args : list pyval)
    (kw : gmap string pyval) (h : gmap ref object) (s : list (list pyval))
  : outcome pyval * gmap ref object * list (list pyval) :=
  if (String.eqb name "execute_command" || String.eqb name "immediate_execute_command")%bool
  then (if sends_boom args then Raise (LibraryError 7)
        else if sends_wait args then Raise KeyboardInterrupt
        else Return (PyStr "OK"),
        h, s ++ [args])
  else if String.eqb name "execute"
  then match h !! self with
       | Some o =>
           let stack := default [] (command_stack o) in
           (if existsb (fun c => sends_boom (fst c)) stack
            then Raise (LibraryError 7)
            else Return (PyInt (Z.of_nat (length stack))),
            <[self := reset_stack o]> h, s ++ map fst stack)
       | None => (Raise AttributeError, h, s)
       end
  else if String.eqb name "parse_response"
  then (Raise (LibraryError 9), h, s)
  else (Raise AttributeError, h, s).

(** A pipeline has a length, the number of queued commands, and so is false
    when nothing is queued; the other objects are true. *)
Definition demo_truth (o : object) : bool :=
  match command_stack o with
  | Some [] => false
  | _ => true
  end.

Definition demo : Library :=
  {| store := list (list pyval);
     lib_call := demo_call;
     obj_str := fun _ => Return "<object>";
     obj_truth := demo_truth |}.

Definition demo_pool : object :=
  {| obj_class := "redis.connection.ConnectionPool"; connection_pool := None;
     connection_kwargs := Some (<["host" := PyStr "localhost"]> {[ "port" := PyInt 6379 ]});
     command_stack := None; obj_dict := ∅ |}.

Definition demo_client : object :=
  {| obj_class := "redis.client.StrictRedis"; connection_pool := Some (PyRef 0);
     connection_kwargs := None; command_stack := None; obj_dict := ∅ |}.

Definition demo_pipe (stack : list command) : object :=
  {| obj_class := "redis.client.StrictPipeline"; connection_pool := Some (PyRef 0);
     connection_kwargs := None; command_stack := Some stack; obj_dict := ∅ |}.

Definition demo_pubsub : object :=
  {| obj_class := "redis.client.PubSub"; connection_pool := Some (PyRef 0);
     connection_kwargs := None; command_stack := None; obj_dict := ∅ |}.

(** An object with no connection configuration at all. *)
Definition demo_bare : object :=
  {| obj_class := "object"; connection_pool := None;
     connection_kwargs := None; command_stack := Some [([PyStr "GET"; PyStr "a"], ∅)];
     obj_dict := ∅ |}.

(** A client on a pool of the application's own, one that keeps no
    [connection_kwargs]. *)
Definition demo_custom_client : object :=
  {| obj_class := "redis.client.StrictRedis"; connection_pool := Some (PyRef 4);
     connection_kwargs := None; command_stack := None; obj_dict := ∅ |}.

(** A byte string that is not ASCII text. *)
Definition demo_binary : string := String (ascii_of_nat 255) "".

Definition demo_batch : list command :=
  [([PyStr "SET"; PyStr "k"; PyStr "v"], ∅); ([PyStr "GET"; PyStr "k"], ∅)].

Definition demo_boom_batch : list command :=
  [([PyStr "SET"; PyStr "k"; PyStr "v"], ∅); ([PyStr "BOOM"], ∅)].

(** The process just after import: no prefix, nothing patched.  Object 0 is
    the connection pool, 1 a client, 2 a pipeline with two queued commands,
    3 a pubsub, 4 an object without connection configuration, 5 a pipeline
    with nothing queued, 6 a pipeline whose batch the server rejects, 7 a
    client on a pool without [connection_kwargs]. *)
Definition demo_world : @world demo :=
  {| g_trace_prefix := PyNone; g_trace_all_classes := PyBool true;
     classes := ∅;
     heap := <[0 := demo_pool]> (<[1 := demo_client]> (<[2 := demo_pipe demo_batch]>
             (<[3 := demo_pubsub]> (<[4 := demo_bare]> (<[5 := demo_pipe []]>
             (<[6 := demo_pipe demo_boom_batch]> {[ 7 := demo_custom_client ]}))))));
     spans := []; current_span := None;
     lib_state := (@nil (list pyval) : @store demo) |}.

(** The same process with the prefix [Redis] configured and no class
    patched. *)
Definition demo_prefixed : @world demo :=
  @set_globals demo (PyBool false) (PyStr "Redis") demo_world.

(** The unpatched methods of the objects above. *)
Definition orig_execute_command : method := Original "redis.client.StrictRedis" "execute_command".
Definition orig_execute : method := Original "redis.client.StrictPipeline" "execute".
Definition orig_immediate : method :=
  Original "redis.client.StrictPipeline" "immediate_execute_command".
Definition orig_parse_response : method := Original "redis.client.PubSub" "parse_response".

(** ** Vocabulary of the further properties *)

(** One to three decimal digits. *)
Definition digit_group (g : list N) : Prop :=
  1 <= length g <= 3 /\ forallb is_digit g = true.

(** Four digit groups with dots between them. *)
Definition dotted_quad (l : list N) : Prop :=
  exists a b c d,
    digit_group a /\ digit_group b /\ digit_group c /\ digit_group d /\
    l = a ++ 46%N :: b ++ 46%N :: c ++ 46%N :: d.

(** The peer tags of the objects on the pool of the small library. *)
Definition demo_peers : list (string * pyval) :=
  [(PEER_HOSTNAME, PyStr "localhost"); (PEER_PORT, PyInt 6379)].

(** The small library with its factories: [pipeline] makes object 8, a
    pipeline with nothing queued, [pubsub] object 9. *)
Definition factory_call (cls name : string) (self : ref) (args : list pyval)
    (kw : gmap string pyval) (h : gmap ref object) (s : list (list pyval))
  : outcome pyval * gmap ref object * list (list pyval) :=
  if String.eqb name "pipeline" then (Return (PyRef 8), <[8 := demo_pipe []]> h, s)
  else if String.eqb name "pubsub" then (Return (PyRef 9), <[9 := demo_pubsub]> h, s)
  else demo_call cls name self args kw h s.

Definition factory : Library :=
  {| store := list (list pyval);
     lib_call := factory_call;
     obj_str := fun _ => Return "<object>";
     obj_truth := demo_truth |}.

(** A process on that library: the pool and one client, nothing patched. *)
Definition factory_world : @world factory :=
  {| g_trace_prefix := PyNone; g_trace_all_classes := PyBool true;
     classes := ∅;
     heap := <[0 := demo_pool]> {[ 1 := demo_client ]};
     spans := []; current_span := None;
     lib_state := (@nil (list pyval) : @store factory) |}.

Section FurtherVocabulary.
Context {L : Library}.

(** A peer tag as [_peer_tags] may give it: a true value under the port key,
    or under the address key when it matches the pattern and under the host
    name key when it does not. *)
Definition peer_tag_ok (w : world) (p : string * pyval) : Prop :=
  py_truth (heap w) (snd p) = true /\
  ((fst p = PEER_HOST_IPV4 /\ IPV4_RE_match_val (snd p) = Return true) \/
   (fst p = PEER_HOSTNAME /\ IPV4_RE_match_val (snd p) = Return false) \/
   fst p = PEER_PORT).

(** What [name] looks up to on instance [r], whose state is [o]. *)
Definition slot (w : world) (r : ref) (o : object) (name : string) : method :=
  match obj_dict o !! name with
  | Some m => m
  | None => Bound r (class_function w (obj_class o) name)
  end.

(** [o] after [o.name = m]. *)
Definition assign (name : string) (m : method) (o : object) : object :=
  set_obj_dict (<[name := m]> (obj_dict o)) o.

(** The process with instance [r] in state [o]. *)
Definition store_object (r : ref) (o : object) (w : world) : world :=
  set_heap (<[r := o]> (heap w)) w.

(** An instance after [_patch_pipe_execute], [_patch_pubsub],
    [_patch_client]: each wrapper around what the name looked up to. *)
Definition traced_pipe (w : world) (r : ref) (o : object) : object :=
  assign "immediate_execute_command"
    (TracingImmediateExecuteCommand (PyRef r) (slot w r o "immediate_execute_command"))
    (assign "execute" (TracingExecute (PyRef r) (slot w r o "execute")) o).

Definition traced_pubsub (w : world) (r : ref) (o : object) : object :=
  assign "execute_command"
    (TracingExecuteCommand (slot w r o "execute_command") false)
    (assign "parse_response"
       (TracingParseResponse (PyRef r) (slot w r o "parse_response")) o).

Definition traced_client (w : world) (r : ref) (o : object) : object :=
  assign "pubsub" (ClientTracingPubsub (slot w r o "pubsub"))
    (assign "pipeline" (ClientTracingPipeline (slot w r o "pipeline"))
       (assign "execute_command"
          (TracingExecuteCommand (slot w r o "execute_command") false) o)).

(** The signatures of the factories, as the wrappers repeat them. *)
Definition pipeline_signature : list (string * option pyval) :=
  [("transaction", Some (PyBool true)); ("shard_hint", Some PyNone)].

Definition klass_pipeline_signature : list (string * option pyval) :=
  ("self", None) :: pipeline_signature.

(** The four tags every span gets, with the statement [stmt]. *)
Definition base_tagged (stmt : pyval) (sp : span) : Prop :=
  tags sp !! "component" = Some (TagVal (PyStr "redis-py")) /\
  tags sp !! "db.type" = Some (TagVal (PyStr "redis")) /\
  tags sp !! "db.statement" = Some (TagVal stmt) /\
  tags sp !! "span.kind" = Some (TagVal (PyStr "client")).

Definition no_error_tags (sp : span) : Prop :=
  tags sp !! "error" = None /\ tags sp !! "error.object" = None.

(** Span [sid] of [w] carries no error and was finished once. *)
Definition finished_clean (sid : nat) (w : world) : Prop :=
  exists sp, spans w !! sid = Some sp /\ no_error_tags sp /\ finished sp = 1.

(** How a wrapper leaves its span when the wrapped method raised [exc]: with
    the error recorded when [exc] is an instance of [Exception], without
    otherwise. *)
Definition closed_after (exc : exn) (sid : nat) (w : world) : Prop :=
  if is_Exception exc then error_recorded sid exc w else finished_clean sid w.

Definition carries (peers : list (string * pyval)) (sp : span) : Prop :=
  forall k v, (k, v) ∈ peers -> tags sp !! k = Some (TagVal v).

(** [c] does not touch the store behind the client. *)
Definition offline {A} (c : M A) : Prop :=
  forall w, lib_state (snd (c w)) = lib_state w.

(** What a name looks up to after an activation that assigns the names of
    [changes]: the wrapper around what it looked up to before, [m]. *)
Fixpoint rewrap (changes : list (string * (method -> method))) (name : string)
    (m : method) : method :=
  match changes with
  | [] => m
  | (n, wrap) :: rest => if decide (n = name) then wrap m else rewrap rest name m
  end.




Definition class_wrappers : list (string * (method -> method)) :=
  [("execute_command", fun m => TracingExecuteCommand m true);
   ("pipeline", KlassTracingPipeline); ("pubsub", KlassTracingPubsub)].

(** The names [_patch_redis_classes] assigns on the class. *)
Definition patched_names : list string := ["execute_command"; "pipeline"; "pubsub"].

(** The search for [name] through the classes [l] gets as far as the class
    [base]: no class before it has the name, assigned or of its own. *)
Fixpoint arrives (base : string) (assigned : gmap string (gmap string method))
    (l : list string) (name : string) : bool :=
  match l with
  | [] => false
  | c :: rest =>
      if String.eqb c base then true
      else match assigned !! c ≫= (.!! name) with
           | Some _ => false
           | None => if defines c name then false else arrives base assigned rest name
           end
  end.

(** The class [cls] takes what it has under [name] from [StrictRedis]: it
    is that class, or derives from it and nothing before it in the search
    has the name. *)
Definition from_StrictRedis (w : world) (cls name : string) : bool :=
  arrives "redis.client.StrictRedis" (classes w) (mro cls) name.

(** [o'] has the data attributes of [o]. *)
Definition same_data (o o' : object) : Prop :=
  obj_class o' = obj_class o /\ connection_pool o' = connection_pool o /\
  connection_kwargs o' = connection_kwargs o /\ command_stack o' = command_stack o.

(** [c] changes nothing but the methods of instance [r]. *)
Definition local_to (r : ref) (c : M unit) : Prop :=
  forall w,
    g_trace_prefix (snd (c w)) = g_trace_prefix w /\
    g_trace_all_classes (snd (c w)) = g_trace_all_classes w /\
    classes (snd (c w)) = classes w /\ spans (snd (c w)) = spans w /\
    current_span (snd (c w)) = current_span w /\ lib_state (snd (c w)) = lib_state w /\
    (forall r', r' <> r -> heap (snd (c w)) !! r' = heap w !! r') /\
    match heap w !! r, heap (snd (c w)) !! r with
    | Some o, Some o' => same_data o o'
    | None, None => True
    | _, _ => False
    end.

(** The bookkeeping hands over, as span [sid] of [w1], a span tagged with
    peer tags as [_peer_tags] gives them. *)
Definition tagged_from (w : world) (sid : nat) (w1 : world) (sp0 : span) : Prop :=
  exists name peers st,
    NoDup (map fst peers) /\ Forall (peer_tag_ok w) peers /\
    sp0 = tagged_span name peers st w /\
    sid = length (spans w) /\ w1 = push_span sp0 w.

End FurtherVocabulary.

(** * Properties *)

(** ** The address pattern *)

Example ipv4_dotted_quad : IPV4_RE_match (ulit "10.0.0.127") = true.
Proof. reflexivity. Qed.

Example ipv4_host_name : IPV4_RE_match (ulit "localhost") = false.
Proof. reflexivity. Qed.

Example ipv4_four_digits : IPV4_RE_match (ulit "1000.0.0.1") = false.
Proof. reflexivity. Qed.

(** ** Text *)

Lemma bytes_of_app (a b : string) : bytes_of (a +:+ b) = bytes_of a ++ bytes_of b.
Proof.
  unfold bytes_of. induction a as [|c a IH]; simpl; [reflexivity|].
  f_equal. exact IH.
Qed.

Lemma string_length_app (a b : string) :
  String.length (a +:+ b) = String.length a + String.length b.
Proof. induction a as [|c a IH]; simpl; [reflexivity | rewrite IH; reflexivity]. Qed.

Lemma bytes_of_sjoin (sep : string) (ss : list string) :
  bytes_of (sjoin sep ss) = ujoin (bytes_of sep) (map bytes_of ss).
Proof.
  induction ss as [|s ss IH]; [reflexivity|].
  destruct ss as [|s' ss]; [reflexivity|].
  change (sjoin sep (s :: s' :: ss)) with (s +:+ sep +:+ sjoin sep (s' :: ss)).
  rewrite !bytes_of_app, IH. reflexivity.
Qed.

Lemma is_ascii_app (a b : list N) : is_ascii (a ++ b) = (is_ascii a && is_ascii b)%bool.
Proof. unfold is_ascii. apply forallb_app. Qed.

Lemma is_ascii_ujoin (sep : ustring) (items : list ustring) :
  is_ascii sep = true -> Forall (fun t => is_ascii t = true) items ->
  is_ascii (ujoin sep items) = true.
Proof.
  intros Hsep Hall. induction Hall as [|t items Ht Hall IH]; [reflexivity|].
  destruct items as [|t' items]; [exact Ht|].
  change (ujoin sep (t :: t' :: items)) with (t ++ sep ++ ujoin sep (t' :: items)).
  rewrite !is_ascii_app, Ht, Hsep, IH. reflexivity.
Qed.

Lemma unicode_ascii (s : string) :
  is_ascii (bytes_of s) = true -> unicode s = Return (bytes_of s).
Proof. intros H. unfold unicode. rewrite H. reflexivity. Qed.

Lemma text_of_coerce (v : pyval) (t : ustring) :
  text_of v = Some t -> coerce_unicode v = Return t.
Proof.
  destruct v; simpl; try discriminate.
  - unfold unicode. destruct (is_ascii (bytes_of s)); intros H;
      [injection H as <-; reflexivity | discriminate].
  - intros H. injection H as <-. reflexivity.
Qed.

Lemma omap_coerce (items : list pyval) (texts : list ustring) :
  Forall2 (fun v t => text_of v = Some t) items texts ->
  omap coerce_unicode items = Return texts.
Proof.
  induction 1 as [|v t items texts Hv _ IH]; [reflexivity|].
  simpl. rewrite (text_of_coerce _ _ Hv). simpl. rewrite IH. reflexivity.
Qed.

Lemma all_str_texts (items : list pyval) (texts : list ustring) :
  Forall2 (fun v t => text_of v = Some t) items texts ->
  forallb is_PyStr items = true ->
  map bytes_of (map str_payload items) = texts /\
  Forall (fun t => is_ascii t = true) texts.
Proof.
  induction 1 as [|v t items texts Hv _ IH]; simpl; [intros _; split; constructor|].
  intros Hb. apply andb_prop in Hb as [Hv' Hrest].
  destruct (IH Hrest) as [IH1 IH2].
  destruct v; try discriminate. simpl in *.
  destruct (is_ascii (bytes_of s)) eqn:Ha; [|discriminate].
  injection Hv as <-. split; [f_equal; exact IH1 | constructor; assumption].
Qed.

(** Joining string values joins their texts. *)
Lemma str_join_text (sep : string) (items : list pyval) (texts : list ustring) :
  is_ascii (bytes_of sep) = true ->
  Forall2 (fun v t => text_of v = Some t) items texts ->
  exists v, str_join sep items = Return v /\
            text_of v = Some (ujoin (bytes_of sep) texts).
Proof.
  intros Hsep Hall. unfold str_join.
  destruct (forallb is_PyStr items) eqn:Hb.
  - destruct (all_str_texts _ _ Hall Hb) as [Hmap Hascii].
    eexists; split; [reflexivity|]. simpl.
    rewrite bytes_of_sjoin, Hmap, (is_ascii_ujoin _ _ Hsep Hascii). reflexivity.
  - rewrite (omap_coerce _ _ Hall). simpl.
    rewrite (unicode_ascii _ Hsep). simpl.
    eexists; split; reflexivity.
Qed.

(** Joining unicode items, at least one, gives a unicode. *)
Lemma str_join_unicode (sep : string) (x : ustring) (xs : list ustring) :
  is_ascii (bytes_of sep) = true ->
  str_join sep (map PyUnicode (x :: xs)) = Return (PyUnicode (ujoin (bytes_of sep) (x :: xs))).
Proof.
  intros Hsep. unfold str_join.
  change (forallb is_PyStr (map PyUnicode (x :: xs))) with false. cbv iota.
  assert (Hm : forall l, omap coerce_unicode (map PyUnicode l) = Return l).
  { induction l as [|y l IH]; [reflexivity|]. simpl. rewrite IH. reflexivity. }
  rewrite Hm. simpl. rewrite (unicode_ascii _ Hsep). reflexivity.
Qed.

Section TextOfArguments.
Context {L : Library}.

Lemma take_limit (t : ustring) :
  (if (_ARGUMENT_LENGTH_LIMIT <? length t)%nat then take _ARGUMENT_LENGTH_LIMIT t else t)
  = take _ARGUMENT_LENGTH_LIMIT t.
Proof.
  destruct (_ARGUMENT_LENGTH_LIMIT <? length t)%nat eqn:H; [reflexivity|].
  apply Nat.ltb_ge in H. symmetry. apply take_ge. exact H.
Qed.

(** With a display form, [_truncate] gives that form's contribution. *)
Lemma _truncate_display (val : pyval) (s : string) :
  py_str val = Return s -> _truncate val = Return (PyUnicode (contribution s)).
Proof.
  intros H. unfold _truncate, contribution. rewrite H. simpl.
  destruct (unicode s); [rewrite take_limit|]; reflexivity.
Qed.

(** Without one, the exception of [str()] leaves [_truncate]. *)
Lemma _truncate_raises (val : pyval) (e : exn) :
  py_str val = Raise e -> _truncate val = Raise e.
Proof. intros H. unfold _truncate. rewrite H. reflexivity. Qed.

Lemma contribution_short (s : string) :
  length (contribution s) <= _ARGUMENT_LENGTH_LIMIT.
Proof.
  unfold contribution. destruct (unicode s).
  - rewrite length_take. lia.
  - vm_compute. lia.
Qed.

Lemma contribution_cut (s : string) :
  is_ascii (bytes_of s) = true -> _ARGUMENT_LENGTH_LIMIT < length (bytes_of s) ->
  contribution s = take _ARGUMENT_LENGTH_LIMIT (bytes_of s) /\
  length (contribution s) = _ARGUMENT_LENGTH_LIMIT.
Proof.
  intros Ha Hlen. unfold contribution. rewrite (unicode_ascii _ Ha).
  split; [reflexivity|]. rewrite length_take. lia.
Qed.

Lemma contribution_binary (s : string) :
  is_ascii (bytes_of s) = false -> contribution s = ulit "{bytes}".
Proof. intros Ha. unfold contribution, unicode. rewrite Ha. reflexivity. Qed.

Lemma omap_truncate (args : list pyval) :
  Forall displayable args -> omap _truncate args = Return (map PyUnicode (map piece args)).
Proof.
  induction 1 as [|v args Hv _ IH]; [reflexivity|].
  simpl. rewrite (_truncate_display _ _ Hv). simpl. rewrite IH. reflexivity.
Qed.

Lemma omap_truncate_raises (args1 args2 : list pyval) (v : pyval) (e : exn) :
  Forall displayable args1 -> py_str v = Raise e ->
  omap _truncate (args1 ++ v :: args2) = Raise e.
Proof.
  intros H1 Hv. induction H1 as [|a args1 Ha _ IH]; simpl.
  - rewrite (_truncate_raises _ _ Hv). reflexivity.
  - rewrite (_truncate_display _ _ Ha). simpl. rewrite IH. reflexivity.
Qed.

(** The statement of a command whose arguments all have a display form. *)
Lemma _normalize_stmt_text (args : list pyval) :
  Forall displayable args ->
  exists stmt, _normalize_stmt args = Return stmt /\
               text_of stmt = Some (statement_text args) /\
               (args <> [] -> stmt = PyUnicode (statement_text args)).
Proof.
  intros H. unfold _normalize_stmt. rewrite (omap_truncate _ H). cbn [obind].
  destruct args as [|a args].
  - exists (PyStr ""). split; [reflexivity|]. split; [reflexivity | congruence].
  - change (map piece (a :: args)) with (piece a :: map piece args).
    rewrite (str_join_unicode " " _ _ eq_refl).
    eexists. split; [reflexivity|]. split; reflexivity.
Qed.

Lemma _normalize_stmt_raises (args1 args2 : list pyval) (v : pyval) (e : exn) :
  Forall displayable args1 -> py_str v = Raise e ->
  _normalize_stmt (args1 ++ v :: args2) = Raise e.
Proof.
  intros H1 Hv. unfold _normalize_stmt.
  rewrite (omap_truncate_raises _ _ _ _ H1 Hv). reflexivity.
Qed.

(** The statement of a batch: the statements of its commands, in order. *)
Lemma _normalize_stmts_text (stack : list command) :
  Forall (fun c => Forall displayable (fst c)) stack ->
  exists stmt, _normalize_stmts stack = Return stmt /\
               text_of stmt = Some (batch_text stack).
Proof.
  intros H. unfold _normalize_stmts.
  assert (Hs : exists items,
             omap (fun c : command => _normalize_stmt (fst c)) stack = Return items /\
             Forall2 (fun v t => text_of v = Some t) items
                     (map (fun c => statement_text (fst c)) stack)).
  { induction H as [|c stack Hc _ [items [IH1 IH2]]].
    - exists []. split; [reflexivity | constructor].
    - destruct (_normalize_stmt_text _ Hc) as [stmt [Hstmt [Htext _]]].
      exists (stmt :: items). simpl. rewrite Hstmt. simpl. rewrite IH1. simpl.
      split; [reflexivity | constructor; assumption]. }
  destruct Hs as [items [Hitems Htexts]]. rewrite Hitems. simpl.
  destruct (str_join_text ";" _ _ eq_refl Htexts) as [v [Hv Ht]].
  exists v. split; assumption.
Qed.

End TextOfArguments.

(** ** Reading the process state *)

Section Reading.
Context {L : Library}.

Lemma reads_ret {A} (a : A) : reads_heap (ret a).
Proof. intros w w' _. reflexivity. Qed.

Lemma reads_raise {A} (e : exn) : reads_heap (@raise L A e).
Proof. intros w w' _. reflexivity. Qed.

Lemma reads_lift {A} (o : outcome A) : reads_heap (lift o).
Proof. intros w w' _. reflexivity. Qed.

Lemma reads_gets {A} (f : world -> A) :
  (forall w w', heap w = heap w' -> f w' = f w) -> reads_heap (gets f).
Proof. intros Hf w w' H. unfold gets. simpl. rewrite (Hf w w' H). reflexivity. Qed.

Lemma reads_bind {A B} (c : M A) (k : A -> M B) :
  reads_heap c -> (forall a, reads_heap (k a)) -> reads_heap (bind c k).
Proof.
  intros Hc Hk w w' H. unfold bind.
  rewrite (Hc w w' H), (Hc w w eq_refl).
  destruct (fst (c w)) as [a|e]; [|reflexivity].
  apply Hk. exact H.
Qed.

Ltac reads :=
  repeat first
    [ apply reads_ret | apply reads_raise | apply reads_lift
    | apply reads_bind; [|intros ?]
    | apply reads_gets; intros ? ? Hheap; simpl; rewrite ?Hheap; reflexivity
    | match goal with
      | H : forall v, reads_heap (_ v) |- _ => apply H
      | |- reads_heap (match ?x with _ => _ end) => destruct x
      end ].

Lemma truth_reads (val : pyval) : reads_heap (truth val).
Proof. unfold truth. reads. Qed.

Lemma instance_reads (val : pyval) : reads_heap (instance val).
Proof. unfold instance. reads. Qed.

Lemma get_command_stack_reads (pipe : pyval) : reads_heap (get_command_stack pipe).
Proof. unfold get_command_stack. pose proof instance_reads. reads. Qed.

(** The peer-tag lookup reads the objects and nothing else, and changes
    nothing. *)
Lemma _peer_tags_reads (self : pyval) : reads_heap (_peer_tags self).
Proof.
  unfold _peer_tags, hasattr_connection_pool, get_connection_pool, get_connection_kwargs.
  pose proof instance_reads. pose proof truth_reads. reads.
Qed.


Lemma get_command_stack_read_only (pipe : pyval) (w : world) :
  get_command_stack pipe w = (fst (get_command_stack pipe w), w).
Proof. apply get_command_stack_reads. reflexivity. Qed.

Lemma peers_for_reads (self : pyval) (w w' : world) :
  heap w = heap w' -> peers_for self w' = peers_for self w.
Proof.
  intros H. unfold peers_for. rewrite <- H.
  destruct (py_truth (heap w) self); [|reflexivity].
  rewrite (_peer_tags_reads self w w' H). reflexivity.
Qed.

Lemma _get_operation_name_read_only (command : pyval) (w : world) :
  _get_operation_name command w = (named w command, w).
Proof.
  unfold named, _get_operation_name, bind, gets, ret, lift. simpl.
  destruct (is_None (g_trace_prefix w)); reflexivity.
Qed.

Lemma named_reads (command : pyval) (w w' : world) :
  g_trace_prefix w = g_trace_prefix w' -> named w' command = named w command.
Proof.
  intros H. unfold named, _get_operation_name, bind, gets, ret, lift. simpl.
  rewrite H. destruct (is_None (g_trace_prefix w')); reflexivity.
Qed.

(** The two shapes of a span name. *)
Lemma named_no_prefix (command : pyval) (w : world) :
  g_trace_prefix w = PyNone -> named w command = Return command.
Proof.
  intros H. unfold named, _get_operation_name, bind, gets, ret. simpl.
  rewrite H. reflexivity.
Qed.

Lemma named_prefix (command : pyval) (w : world) (p n : string) :
  g_trace_prefix w <> PyNone ->
  py_str (g_trace_prefix w) = Return p -> py_str command = Return n ->
  named w command = Return (PyStr (p +:+ "/" +:+ n)).
Proof.
  intros Hp Hs Hn. unfold named, _get_operation_name, bind, gets, ret, lift, format_field.
  simpl. destruct (is_None (g_trace_prefix w)) eqn:E.
  - destruct (g_trace_prefix w); try discriminate. congruence.
  - rewrite Hs, Hn. reflexivity.
Qed.

End Reading.

(** ** The tracer *)

Section Spans.
Context {L : Library}.

Lemma alter_middle {A} (f : A -> A) (l : list A) (x : A) (more : list A) :
  alter f (length l) (l ++ x :: more) = l ++ f x :: more.
Proof. rewrite <- (Nat.add_0_r (length l)). rewrite alter_app_r. reflexivity. Qed.

Lemma set_tag_last (l : list span) (sp : span) (key : string) (val : tagval) (w : world) :
  set_tag (length l) key val (set_spans (l ++ [sp]) w)
  = (Return tt, set_spans (l ++ [add_tag key val sp]) w).
Proof. unfold set_tag, modify. simpl. rewrite alter_middle. reflexivity. Qed.

Lemma for_each_tags (peers : list (string * pyval)) (l : list span) (sp : span) (w : world) :
  for_each peers (fun t => set_tag (length l) (fst t) (TagVal (snd t)))
    (set_spans (l ++ [sp]) w)
  = (Return tt,
     set_spans (l ++ [with_tags (foldl (fun t p => <[fst p := TagVal (snd p)]> t)
                                       (tags sp) peers) sp]) w).
Proof.
  revert sp. induction peers as [|p peers IH]; intros sp.
  - destruct sp. reflexivity.
  - simpl. unfold bind. rewrite set_tag_last. rewrite IH. reflexivity.
Qed.

(** What [_set_base_span_tags] does to the span opened last. *)
Lemma _set_base_span_tags_run (self stmt : pyval) (l : list span) (sp : span) (w : world) :
  _set_base_span_tags self (length l) stmt (set_spans (l ++ [sp]) w) =
  match peers_for self w with
  | Return peers =>
      (Return tt, set_spans (l ++ [with_tags (tag_all peers stmt (tags sp)) sp]) w)
  | Raise e => (Raise e, set_spans (l ++ [sp]) w)
  end.
Proof.
  unfold _set_base_span_tags, peers_for.
  unfold bind at 1. unfold truth at 1, gets. cbn [heap set_spans].
  destruct (py_truth (heap w) self).
  - unfold bind at 1. unfold bind at 1.
    rewrite (_peer_tags_reads self w (set_spans (l ++ [sp]) w) eq_refl).
    destruct (fst (_peer_tags self w)) as [peers|e]; [|reflexivity].
    rewrite for_each_tags.
    unfold bind. rewrite !set_tag_last. reflexivity.
  - unfold bind, ret. rewrite !set_tag_last. destruct sp. reflexivity.
Qed.

(** The bookkeeping common to the wrappers, case by case. *)
Lemma open_tagged_run (self name : pyval) (stmt : M pyval) (w : world) :
  reads_heap stmt ->
  open_tagged self name stmt w =
  match fst (stmt w) with
  | Raise e => (Raise e, push_span (fresh_span name w) w)
  | Return st =>
      match peers_for self w with
      | Raise e => (Raise e, push_span (fresh_span name w) w)
      | Return peers => (Return (length (spans w)), push_span (tagged_span name peers st w) w)
      end
  end.
Proof.
  intros Hstmt. unfold open_tagged.
  unfold bind at 1.
  change (start_child_span name w)
    with (Return (length (spans w)), push_span (fresh_span name w) w).
  cbv beta iota. unfold bind at 1.
  rewrite (Hstmt w (push_span (fresh_span name w) w) eq_refl).
  destruct (fst (stmt w)) as [st|e]; [|reflexivity].
  unfold bind at 1. unfold push_span at 1.
  rewrite (_set_base_span_tags_run self st (spans w) (fresh_span name w) w).
  destruct (peers_for self w) as [peers|e]; reflexivity.
Qed.

(** When the bookkeeping returns, it has opened and tagged one span. *)
Lemma open_tagged_returns (self name : pyval) (stmt : M pyval) (w w1 : world) (sid : nat) :
  reads_heap stmt ->
  open_tagged self name stmt w = (Return sid, w1) ->
  exists st peers,
    fst (stmt w) = Return st /\ peers_for self w = Return peers /\
    sid = length (spans w) /\ w1 = push_span (tagged_span name peers st w) w.
Proof.
  intros Hstmt. rewrite (open_tagged_run _ _ _ _ Hstmt).
  destruct (fst (stmt w)) as [st|e]; [|discriminate].
  destruct (peers_for self w) as [peers|e]; [|discriminate].
  intros H. injection H as <- <-. exists st, peers. repeat split; reflexivity.
Qed.

(** When the bookkeeping raises, no tagged span is left: at most a fresh
    one, without a tag and not finished. *)
Lemma open_tagged_raises (self name : pyval) (stmt : M pyval) (w w1 : world) (e : exn) :
  reads_heap stmt ->
  open_tagged self name stmt w = (Raise e, w1) ->
  w1 = push_span (fresh_span name w) w.
Proof.
  intros Hstmt. rewrite (open_tagged_run _ _ _ _ Hstmt).
  destruct (fst (stmt w)) as [st|e1].
  - destruct (peers_for self w) as [peers|e2]; [discriminate|].
    intros H. injection H as _ <-. reflexivity.
  - intros H. injection H as _ <-. reflexivity.
Qed.

Lemma on_span_same (f : span -> span) (sid : nat) (w : world) :
  (forall sp, f sp = sp) -> on_span f sid w = w.
Proof.
  intros Hf. unfold on_span, set_spans. rewrite (list_alter_id f _ _ Hf).
  destruct w; reflexivity.
Qed.

Lemma noted_cases (e : exn) :
  (is_Exception e = true /\ noted e = with_error e) \/
  (is_Exception e = false /\ forall sp, noted e sp = sp).
Proof. unfold noted. destruct (is_Exception e); [left | right]; split; reflexivity. Qed.

Lemma noted_shape (e : exn) : noted e = id \/ exists e', noted e = with_error e'.
Proof.
  destruct (noted_cases e) as [[_ Hn] | [He _]]; [right; eauto|].
  left. unfold noted. rewrite He. reflexivity.
Qed.

(** The [try]/[except]/[finally] of the wrappers that re-raise. *)
Lemma bracket_run {A} (sid : nat) (body : M A) (w1 : world) :
  try_finally (try_except body (fun exc => tag_error sid exc ;;; raise exc)) (finish sid) w1 =
  match body w1 with
  | (Return v, w2) => (Return v, on_span mark_finished sid w2)
  | (Raise e, w2) => (Raise e, on_span mark_finished sid (on_span (noted e) sid w2))
  end.
Proof.
  unfold try_finally, try_except.
  destruct (body w1) as [[v|e] w2]; [reflexivity|].
  destruct (noted_cases e) as [[He Hn] | [He Hn]]; rewrite He.
  - rewrite Hn.
    unfold tag_error, bind, set_tag, finish, modify, raise, on_span, set_spans. simpl.
    rewrite (list_alter_alter_eq (add_tag "error.object" (TagExc e))
               (add_tag "error" (TagVal (PyStr "true")))).
    reflexivity.
  - rewrite (on_span_same _ _ _ Hn). reflexivity.
Qed.

(** The same for the wrapper that swallows the exception. *)
Lemma bracket_swallow_run (sid : nat) (body : M pyval) (w1 : world) :
  (try_finally (try_except (res <- body ;; ret tt) (fun exc => tag_error sid exc))
               (finish sid) ;;; ret PyNone) w1 =
  match body w1 with
  | (Return v, w2) => (Return PyNone, on_span mark_finished sid w2)
  | (Raise e, w2) =>
      (if is_Exception e then Return PyNone else Raise e,
       on_span mark_finished sid (on_span (noted e) sid w2))
  end.
Proof.
  unfold try_finally, try_except, bind at 1 2.
  destruct (body w1) as [[v|e] w2]; [reflexivity|].
  destruct (noted_cases e) as [[He Hn] | [He Hn]]; rewrite He.
  - rewrite Hn.
    unfold tag_error, bind, set_tag, finish, modify, ret, on_span, set_spans. simpl.
    rewrite (list_alter_alter_eq (add_tag "error.object" (TagExc e))
               (add_tag "error" (TagVal (PyStr "true")))).
    reflexivity.
  - rewrite (on_span_same _ _ _ Hn). reflexivity.
Qed.

(** The span opened last, after the wrapped call added [more] spans and the
    wrapper changed its own. *)
Lemma lookup_on_span (f : span -> span) (l : list span) (sp : span) (w : world) :
  keeps (l ++ [sp]) w -> spans (on_span f (length l) w) !! length l = Some (f sp).
Proof.
  intros [more H]. unfold on_span. simpl. rewrite H, <- app_assoc. simpl.
  rewrite alter_middle. apply list_lookup_middle. reflexivity.
Qed.

Lemma keeps_on_span (f : span -> span) (l : list span) (sp : span) (w : world) :
  keeps (l ++ [sp]) w -> keeps (l ++ [f sp]) (on_span f (length l) w).
Proof.
  intros [more H]. exists more. unfold on_span. simpl. rewrite H, <- !app_assoc. simpl.
  apply alter_middle.
Qed.

Lemma keeps_refl (w : world) : keeps (spans w) w.
Proof. exists []. symmetry. apply app_nil_r. Qed.

Lemma keeps_lookup (l : list span) (sp : span) (w : world) :
  keeps (l ++ [sp]) w -> spans w !! length l = Some sp.
Proof.
  intros [more H]. rewrite H, <- app_assoc. apply list_lookup_middle. reflexivity.
Qed.

End Spans.

(** ** What a call leaves alone *)

Section Frame.
Context {L : Library}.

Lemma silent_ret {A} (a : A) : silent (ret a).
Proof. intros w. reflexivity. Qed.

Lemma silent_raise {A} (e : exn) : silent (@raise L A e).
Proof. intros w. reflexivity. Qed.

Lemma silent_lift {A} (o : outcome A) : silent (lift o).
Proof. intros w. reflexivity. Qed.

Lemma silent_gets {A} (f : world -> A) : silent (gets f).
Proof. intros w. reflexivity. Qed.

Lemma silent_modify (f : world -> world) :
  (forall w, spans (f w) = spans w) -> silent (modify f).
Proof. intros H w. apply H. Qed.

Lemma silent_bind {A B} (c : M A) (k : A -> M B) :
  silent c -> (forall a, silent (k a)) -> silent (bind c k).
Proof.
  intros Hc Hk w. unfold bind. specialize (Hc w).
  destruct (c w) as [[a|e] w1]; simpl in *; [|exact Hc].
  rewrite Hk. exact Hc.
Qed.

Lemma silent_reads {A} (c : M A) : reads_heap c -> silent c.
Proof. intros H w. rewrite (H w w eq_refl). reflexivity. Qed.

Lemma silent_library_call (cls name : string) (self : ref) (args : list pyval) (kw : kwargs) :
  silent (library_call cls name self args kw).
Proof.
  intros w. unfold library_call.
  destruct (lib_call cls name self args kw (heap w) (lib_state w)) as [[r h] s].
  reflexivity.
Qed.

Ltac silence :=
  repeat first
    [ apply silent_ret | apply silent_raise | apply silent_lift | apply silent_gets
    | apply silent_library_call
    | apply silent_modify; intros ?; reflexivity
    | apply silent_bind; [|intros ?]
    | match goal with
      | H : forall v, silent (_ v) |- _ => apply H
      | H : forall v1 v2, silent (_ v1 v2) |- _ => apply H
      | H : forall v1 v2 v3, silent (_ v1 v2 v3) |- _ => apply H
      | |- silent (match ?x with _ => _ end) => destruct x
      end ].

Lemma item0_silent (l : list pyval) : silent (item0 l).
Proof. unfold item0. silence. Qed.

Lemma instance_silent (val : pyval) : silent (instance val).
Proof. apply silent_reads, instance_reads. Qed.

Lemma getattr_method_silent (obj : pyval) (name : string) : silent (getattr_method obj name).
Proof. unfold getattr_method. pose proof instance_silent. silence. Qed.

Lemma setattr_method_silent (obj : pyval) (name : string) (m : method) :
  silent (setattr_method obj name m).
Proof. unfold setattr_method. pose proof instance_silent. silence. Qed.

Lemma _patch_obj_execute_command_silent (obj : pyval) (k : bool) :
  silent (_patch_obj_execute_command obj k).
Proof.
  unfold _patch_obj_execute_command.
  pose proof getattr_method_silent. pose proof setattr_method_silent. silence.
Qed.

Lemma _patch_pipe_execute_silent (pipe : pyval) : silent (_patch_pipe_execute pipe).
Proof.
  unfold _patch_pipe_execute.
  pose proof getattr_method_silent. pose proof setattr_method_silent. silence.
Qed.

Lemma _patch_pubsub_silent (pubsub : pyval) : silent (_patch_pubsub pubsub).
Proof.
  unfold _patch_pubsub, _patch_pubsub_parse_response.
  pose proof getattr_method_silent. pose proof setattr_method_silent.
  pose proof _patch_obj_execute_command_silent. silence.
Qed.

Lemma _get_operation_name_silent (command : pyval) : silent (_get_operation_name command).
Proof. intros w. rewrite _get_operation_name_read_only. reflexivity. Qed.

Lemma framed_silent {A} (l : list span) (c : M A) : silent c -> framed l c.
Proof. intros H w [more Hw]. exists more. rewrite H. exact Hw. Qed.

Lemma framed_bind {A B} (l : list span) (c : M A) (k : A -> M B) :
  framed l c -> (forall a, framed l (k a)) -> framed l (bind c k).
Proof.
  intros Hc Hk w Hw. unfold bind. specialize (Hc w Hw).
  destruct (c w) as [[a|e] w1]; simpl in *; [|exact Hc].
  apply Hk. exact Hc.
Qed.

Lemma framed_try_except {A} (l : list span) (body : M A) (handler : exn -> M A) :
  framed l body -> (forall e, framed l (handler e)) -> framed l (try_except body handler).
Proof.
  intros Hc Hk w Hw. unfold try_except. specialize (Hc w Hw).
  destruct (body w) as [[a|e] w1]; simpl in *; [exact Hc|].
  destruct (is_Exception e); [apply Hk|]; exact Hc.
Qed.

Lemma framed_try_finally {A} (l : list span) (body : M A) (final : M unit) :
  framed l body -> framed l final -> framed l (try_finally body final).
Proof.
  intros Hc Hf w Hw. unfold try_finally. specialize (Hc w Hw).
  destruct (body w) as [r w1]; simpl in *. specialize (Hf w1 Hc).
  destruct (final w1) as [[u|e] w2]; exact Hf.
Qed.

Lemma keeps_alter (f : span -> span) (l : list span) (sid : nat) (w : world) :
  length l <= sid -> keeps l w -> keeps l (on_span f sid w).
Proof.
  intros Hle [more Hw]. exists (alter f (sid - length l) more).
  unfold on_span. simpl. rewrite Hw. apply alter_app_r_alt. exact Hle.
Qed.

Lemma framed_set_tag (l : list span) (sid : nat) (key : string) (val : tagval) :
  length l <= sid -> framed l (set_tag sid key val).
Proof. intros Hle w Hw. apply (keeps_alter _ _ _ _ Hle Hw). Qed.

Lemma framed_finish (l : list span) (sid : nat) :
  length l <= sid -> framed l (finish sid).
Proof. intros Hle w Hw. apply (keeps_alter _ _ _ _ Hle Hw). Qed.

(** A span that is started gets an index past the spans already there. *)
Lemma framed_start (l : list span) {B} (name : pyval) (k : nat -> M B) :
  (forall sid, length l <= sid -> framed l (k sid)) ->
  framed l (bind (start_child_span name) k).
Proof.
  intros Hk w [more Hw]. unfold bind, start_child_span.
  apply Hk.
  - rewrite Hw, length_app. lia.
  - exists (more ++ [fresh_span name w]). simpl. rewrite Hw, <- app_assoc. reflexivity.
Qed.

Lemma framed_for_each {A} (l : list span) (items : list A) (body : A -> M unit) :
  (forall x, framed l (body x)) -> framed l (for_each items body).
Proof.
  intros Hb. induction items as [|x items IH]; simpl.
  - apply framed_silent, silent_ret.
  - apply framed_bind; [apply Hb | intros _; exact IH].
Qed.

Lemma _set_base_span_tags_framed (l : list span) (self stmt : pyval) (sid : nat) :
  length l <= sid -> framed l (_set_base_span_tags self sid stmt).
Proof.
  intros Hle. unfold _set_base_span_tags.
  apply framed_bind; [apply framed_silent, silent_reads, truth_reads | intros b].
  apply framed_bind.
  - destruct b; [|apply framed_silent, silent_ret].
    apply framed_bind; [apply framed_silent, silent_reads, _peer_tags_reads | intros peers].
    apply framed_for_each. intros x. apply framed_set_tag, Hle.
  - intros _. repeat (apply framed_bind; [apply framed_set_tag, Hle | intros _]).
    apply framed_set_tag, Hle.
Qed.

Ltac frames :=
  repeat first
    [ apply _set_base_span_tags_framed; assumption
    | apply framed_set_tag; assumption
    | apply framed_finish; assumption
    | apply framed_silent;
      first [ apply item0_silent | apply _get_operation_name_silent
            | apply _patch_pipe_execute_silent | apply _patch_pubsub_silent
            | apply silent_reads, get_command_stack_reads ]
    | apply framed_start; intros ? ?
    | apply framed_try_finally
    | apply framed_try_except; [|intros ?]
    | apply framed_bind; [|intros ?]
    | match goal with
      | H : forall a k, framed _ (?f a k) |- framed _ (?f _ _) => apply H
      | |- framed _ (match ?x with _ => _ end) => destruct x
      end
    | apply framed_silent; silence ].

Section Wrappers.
Variable l : list span.
Variable f : list pyval -> kwargs -> M pyval.
Hypothesis f_framed : forall args kw, framed l (f args kw).

Lemma tracing_execute_command_framed (is_klass : bool) (args : list pyval) (kw : kwargs) :
  framed l (tracing_execute_command f is_klass args kw).
Proof. unfold tracing_execute_command, tag_error. frames. Qed.

Lemma tracing_execute_framed (pipe : pyval) (args : list pyval) (kw : kwargs) :
  framed l (tracing_execute pipe f args kw).
Proof. unfold tracing_execute, tag_error. frames. Qed.

Lemma tracing_immediate_execute_command_framed (pipe : pyval)
    (args : list pyval) (kw : kwargs) :
  framed l (tracing_immediate_execute_command pipe f args kw).
Proof. unfold tracing_immediate_execute_command, tag_error. frames. Qed.

Lemma tracing_parse_response_framed (pubsub : pyval) (args : list pyval) (kw : kwargs) :
  framed l (tracing_parse_response pubsub f args kw).
Proof. unfold tracing_parse_response, tag_error. frames. Qed.

Lemma tracing_pipeline_klass_framed (args : list pyval) (kw : kwargs) :
  framed l (_patch_redis_classes_tracing_pipeline f args kw).
Proof. unfold _patch_redis_classes_tracing_pipeline. frames. Qed.

Lemma tracing_pubsub_klass_framed (args : list pyval) (kw : kwargs) :
  framed l (_patch_redis_classes_tracing_pubsub f args kw).
Proof. unfold _patch_redis_classes_tracing_pubsub. frames. Qed.

Lemma tracing_pipeline_client_framed (args : list pyval) (kw : kwargs) :
  framed l (_patch_client_tracing_pipeline f args kw).
Proof. unfold _patch_client_tracing_pipeline. frames. Qed.

Lemma tracing_pubsub_client_framed (args : list pyval) (kw : kwargs) :
  framed l (_patch_client_tracing_pubsub f args kw).
Proof. unfold _patch_client_tracing_pubsub. frames. Qed.

End Wrappers.

(** Whatever callable is called, the spans that were there before the call
    are as they were after it. *)
Lemma call_framed (m : method) :
  forall (l : list span) (args : list pyval) (kw : kwargs), framed l (call m args kw).
Proof.
  induction m as [cls name | self func IH | g IH k | g IH | g IH | g IH | g IH
                 | pipe g IH | pipe g IH | pubsub g IH];
    intros l args kw; simpl.
  - destruct args as [|[] args]; apply framed_silent;
      first [apply silent_raise | apply silent_library_call].
  - apply IH.
  - apply tracing_execute_command_framed. intros; apply IH.
  - apply tracing_pipeline_klass_framed. intros; apply IH.
  - apply tracing_pubsub_klass_framed. intros; apply IH.
  - apply tracing_pipeline_client_framed. intros; apply IH.
  - apply tracing_pubsub_client_framed. intros; apply IH.
  - apply tracing_execute_framed. intros; apply IH.
  - apply tracing_immediate_execute_command_framed. intros; apply IH.
  - apply tracing_parse_response_framed. intros; apply IH.
Qed.

(** The library's own methods do not touch the tracer at all. *)
Lemma call_original_silent (cls name : string) (args : list pyval) (kw : kwargs) :
  silent (call (Original cls name) args kw).
Proof.
  simpl. destruct args as [|[] args];
    first [apply silent_raise | apply silent_library_call].
Qed.

Lemma call_bound_original_silent (r : ref) (cls name : string)
    (args : list pyval) (kw : kwargs) :
  silent (call (Bound r (Original cls name)) args kw).
Proof. simpl. apply silent_library_call. Qed.

End Frame.

(** ** The wrappers, step by step *)

Section Runs.
Context {L : Library}.

Ltac split_run :=
  unfold open_tagged, bind, ret;
  repeat (match goal with
          | |- context [match ?c ?w with _ => _ end] =>
              lazymatch type of (c w) with
              | (outcome _ * world)%type => destruct (c w) as [[?|?] ?]
              end
          end; try reflexivity).

(** Each wrapper is its bookkeeping, then the wrapped call between the
    error tags and [finish]. *)
Lemma tracing_execute_command_run (f : list pyval -> kwargs -> M pyval) (is_klass : bool)
    (args : list pyval) (kw : kwargs) (w : world) :
  tracing_execute_command f is_klass args kw w =
  match prologue_execute_command is_klass args w with
  | (Raise e, w1) => (Raise e, w1)
  | (Return sid, w1) =>
      match f args kw w1 with
      | (Return v, w2) => (Return v, on_span mark_finished sid w2)
      | (Raise e, w2) => (Raise e, on_span mark_finished sid (on_span (noted e) sid w2))
      end
  end.
Proof.
  transitivity
    (match prologue_execute_command is_klass args w with
     | (Raise e, w1) => (Raise e, w1)
     | (Return sid, w1) =>
         try_finally (try_except (f args kw) (fun exc => tag_error sid exc ;;; raise exc))
                     (finish sid) w1
     end).
  - unfold tracing_execute_command, prologue_execute_command. split_run.
  - destruct (prologue_execute_command is_klass args w) as [[sid|e] w1]; [|reflexivity].
    apply bracket_run.
Qed.

(** The pipeline's [execute] with nothing queued: the original, called with
    the [raise_on_error] of the call. *)
Lemma tracing_execute_empty (pipe : pyval) (f : list pyval -> kwargs -> M pyval)
    (args : list pyval) (kw : kwargs) (w : world) (b : list pyval) :
  bind_exact execute_signature args kw = Return b ->
  fst (get_command_stack pipe w) = Return [] ->
  tracing_execute pipe f args kw w = f [] {[ "raise_on_error" := param 0 b ]} w.
Proof.
  intros Hb Hs. unfold tracing_execute.
  unfold bind at 1. unfold lift at 1. unfold execute_signature in Hb. rewrite Hb.
  unfold bind at 1. rewrite get_command_stack_read_only, Hs. reflexivity.
Qed.

Lemma tracing_execute_run (pipe : pyval) (f : list pyval -> kwargs -> M pyval)
    (args : list pyval) (kw : kwargs) (w : world) (b : list pyval) (c : command)
    (cs : list command) :
  bind_exact execute_signature args kw = Return b ->
  fst (get_command_stack pipe w) = Return (c :: cs) ->
  tracing_execute pipe f args kw w =
  match prologue_execute pipe w with
  | (Raise e, w1) => (Raise e, w1)
  | (Return sid, w1) =>
      match f [] {[ "raise_on_error" := param 0 b ]} w1 with
      | (Return v, w2) => (Return v, on_span mark_finished sid w2)
      | (Raise e, w2) => (Raise e, on_span mark_finished sid (on_span (noted e) sid w2))
      end
  end.
Proof.
  intros Hb Hs.
  transitivity
    (match prologue_execute pipe w with
     | (Raise e, w1) => (Raise e, w1)
     | (Return sid, w1) =>
         try_finally (try_except (f [] {[ "raise_on_error" := param 0 b ]})
                                 (fun exc => tag_error sid exc ;;; raise exc))
                     (finish sid) w1
     end).
  - unfold tracing_execute.
    unfold bind at 1. unfold lift at 1. unfold execute_signature in Hb. rewrite Hb.
    unfold bind at 1. rewrite get_command_stack_read_only, Hs.
    unfold prologue_execute. split_run.
  - destruct (prologue_execute pipe w) as [[sid|e] w1]; [|reflexivity].
    apply bracket_run.
Qed.

Lemma tracing_immediate_execute_command_run (pipe : pyval)
    (f : list pyval -> kwargs -> M pyval) (args : list pyval) (kw : kwargs) (w : world) :
  tracing_immediate_execute_command pipe f args kw w =
  match prologue_immediate pipe args w with
  | (Raise e, w1) => (Raise e, w1)
  | (Return sid, w1) =>
      match f args kw w1 with
      | (Return v, w2) => (Return PyNone, on_span mark_finished sid w2)
      | (Raise e, w2) =>
          (if is_Exception e then Return PyNone else Raise e,
           on_span mark_finished sid (on_span (noted e) sid w2))
      end
  end.
Proof.
  transitivity
    (match prologue_immediate pipe args w with
     | (Raise e, w1) => (Raise e, w1)
     | (Return sid, w1) =>
         (try_finally (try_except (res <- f args kw ;; ret tt)
                                  (fun exc => tag_error sid exc))
                      (finish sid) ;;; ret PyNone) w1
     end).
  - unfold tracing_immediate_execute_command, prologue_immediate.
    unfold open_tagged.
    unfold bind at 1. unfold bind at 7.
    destruct (item0 args w) as [[command|e] w0]; [|reflexivity].
    unfold bind at 1. unfold bind at 6.
    destruct (_get_operation_name command w0) as [[name|e] w1]; [|reflexivity].
    unfold bind at 1. unfold bind at 5.
    destruct (start_child_span name w1) as [[sid|e] w2]; [|reflexivity].
    unfold bind at 1. unfold bind at 4.
    destruct (lift (_normalize_stmt args) w2) as [[stmt|e] w3]; [|reflexivity].
    unfold bind at 1. unfold bind at 3.
    destruct (_set_base_span_tags pipe sid stmt w3) as [[u|e] w4]; reflexivity.
  - destruct (prologue_immediate pipe args w) as [[sid|e] w1]; [|reflexivity].
    apply bracket_swallow_run.
Qed.

Lemma tracing_parse_response_run (pubsub : pyval) (f : list pyval -> kwargs -> M pyval)
    (args : list pyval) (kw : kwargs) (w : world) (b : list pyval) :
  bind_exact parse_response_signature args kw = Return b ->
  tracing_parse_response pubsub f args kw w =
  match prologue_parse_response pubsub w with
  | (Raise e, w1) => (Raise e, w1)
  | (Return sid, w1) =>
      match f [] (<[ "block" := param 0 b ]> {[ "timeout" := param 1 b ]}) w1 with
      | (Return v, w2) => (Return v, on_span mark_finished sid w2)
      | (Raise e, w2) => (Raise e, on_span mark_finished sid (on_span (noted e) sid w2))
      end
  end.
Proof.
  intros Hb.
  transitivity
    (match prologue_parse_response pubsub w with
     | (Raise e, w1) => (Raise e, w1)
     | (Return sid, w1) =>
         try_finally (try_except
                        (f [] (<[ "block" := param 0 b ]> {[ "timeout" := param 1 b ]}))
                        (fun exc => tag_error sid exc ;;; raise exc))
                     (finish sid) w1
     end).
  - unfold tracing_parse_response.
    unfold bind at 1. unfold lift at 1. unfold parse_response_signature in Hb. rewrite Hb.
    unfold prologue_parse_response. split_run.
  - destruct (prologue_parse_response pubsub w) as [[sid|e] w1]; [|reflexivity].
    apply bracket_run.
Qed.

End Runs.

(** ** The bookkeeping, case by case *)

Section Bookkeeping.
Context {L : Library}.

Lemma prologue_execute_command_eq (is_klass : bool) (args : list pyval) (w : world) :
  prologue_execute_command is_klass args w =
  match (if is_klass then args else PyNone :: args) with
  | self :: command :: rest =>
      match named w command with
      | Raise e => (Raise e, w)
      | Return name =>
          match _normalize_stmt (command :: rest) with
          | Raise e => (Raise e, push_span (fresh_span name w) w)
          | Return st =>
              match peers_for self w with
              | Raise e => (Raise e, push_span (fresh_span name w) w)
              | Return peers =>
                  (Return (length (spans w)), push_span (tagged_span name peers st w) w)
              end
          end
      end
  | _ => (Raise IndexError, w)
  end.
Proof.
  unfold prologue_execute_command.
  destruct is_klass; [destruct args as [|self args]; [reflexivity|] |];
    (destruct args as [|command rest]; [reflexivity|]);
    unfold bind at 1; unfold item0, ret; cbv beta iota; unfold bind at 1;
    unfold item0, tail, ret; cbv beta iota; unfold bind at 1;
    rewrite _get_operation_name_read_only;
    (destruct (named w command) as [name|e]; [|reflexivity]);
    rewrite (open_tagged_run _ _ _ _ (reads_lift _)); reflexivity.
Qed.

Lemma prologue_immediate_eq (pipe : pyval) (args : list pyval) (w : world) :
  prologue_immediate pipe args w =
  match args with
  | command :: rest =>
      match named w command with
      | Raise e => (Raise e, w)
      | Return name =>
          match _normalize_stmt (command :: rest) with
          | Raise e => (Raise e, push_span (fresh_span name w) w)
          | Return st =>
              match peers_for pipe w with
              | Raise e => (Raise e, push_span (fresh_span name w) w)
              | Return peers =>
                  (Return (length (spans w)), push_span (tagged_span name peers st w) w)
              end
          end
      end
  | [] => (Raise IndexError, w)
  end.
Proof.
  unfold prologue_immediate. destruct args as [|command rest]; [reflexivity|].
  unfold bind at 1; unfold item0, ret; cbv beta iota; unfold bind at 1.
  rewrite _get_operation_name_read_only.
  destruct (named w command) as [name|e]; [|reflexivity].
  rewrite (open_tagged_run _ _ _ _ (reads_lift _)). reflexivity.
Qed.

Lemma batch_statement_reads (pipe : pyval) :
  reads_heap (stack <- get_command_stack pipe ;; lift (_normalize_stmts stack)).
Proof.
  apply reads_bind; [apply get_command_stack_reads | intros stack; apply reads_lift].
Qed.

Lemma prologue_execute_eq (pipe : pyval) (w : world) :
  prologue_execute pipe w =
  match named w (PyStr "MULTI") with
  | Raise e => (Raise e, w)
  | Return name =>
      match obind (fst (get_command_stack pipe w)) _normalize_stmts with
      | Raise e => (Raise e, push_span (fresh_span name w) w)
      | Return st =>
          match peers_for pipe w with
          | Raise e => (Raise e, push_span (fresh_span name w) w)
          | Return peers =>
              (Return (length (spans w)), push_span (tagged_span name peers st w) w)
          end
      end
  end.
Proof.
  unfold prologue_execute. unfold bind at 1.
  rewrite _get_operation_name_read_only.
  destruct (named w (PyStr "MULTI")) as [name|e]; [|reflexivity].
  rewrite (open_tagged_run _ _ _ _ (batch_statement_reads pipe)).
  unfold bind at 1. rewrite get_command_stack_read_only.
  destruct (fst (get_command_stack pipe w)) as [stack|e]; reflexivity.
Qed.

Lemma prologue_parse_response_eq (pubsub : pyval) (w : world) :
  prologue_parse_response pubsub w =
  match named w (PyStr "SUB") with
  | Raise e => (Raise e, w)
  | Return name =>
      match peers_for pubsub w with
      | Raise e => (Raise e, push_span (fresh_span name w) w)
      | Return peers =>
          (Return (length (spans w)), push_span (tagged_span name peers (PyStr "") w) w)
      end
  end.
Proof.
  unfold prologue_parse_response. unfold bind at 1.
  rewrite _get_operation_name_read_only.
  destruct (named w (PyStr "SUB")) as [name|e]; [|reflexivity].
  rewrite (open_tagged_run _ _ _ _ (reads_ret _)). reflexivity.
Qed.

Lemma prologue_execute_command_hands_over (is_klass : bool) (args : list pyval)
    (w w1 : world) (sid : nat) :
  prologue_execute_command is_klass args w = (Return sid, w1) -> handed_over w sid w1.
Proof.
  rewrite prologue_execute_command_eq. intros H.
  repeat case_match; simplify_eq; do 3 eexists; split; reflexivity.
Qed.

Lemma prologue_immediate_hands_over (pipe : pyval) (args : list pyval)
    (w w1 : world) (sid : nat) :
  prologue_immediate pipe args w = (Return sid, w1) -> handed_over w sid w1.
Proof.
  rewrite prologue_immediate_eq. intros H.
  repeat case_match; simplify_eq; do 3 eexists; split; reflexivity.
Qed.

Lemma prologue_execute_hands_over (pipe : pyval) (w w1 : world) (sid : nat) :
  prologue_execute pipe w = (Return sid, w1) -> handed_over w sid w1.
Proof.
  rewrite prologue_execute_eq. intros H.
  repeat case_match; simplify_eq; do 3 eexists; split; reflexivity.
Qed.

Lemma prologue_parse_response_hands_over (pubsub : pyval) (w w1 : world) (sid : nat) :
  prologue_parse_response pubsub w = (Return sid, w1) -> handed_over w sid w1.
Proof.
  rewrite prologue_parse_response_eq. intros H.
  repeat case_match; simplify_eq; do 3 eexists; split; reflexivity.
Qed.

End Bookkeeping.

(** ** The claims *)

Section Claims.
Context {L : Library}.

Lemma keeps_handed_over (w w1 : world) (sid : nat) :
  handed_over w sid w1 ->
  exists sp, spans w1 = spans w ++ [sp] /\ sid = length (spans w) /\ finished sp = 0.
Proof.
  intros (name & peers & st & -> & ->). eexists. repeat split; reflexivity.
Qed.

(** Closing a span after an exception leaves it with the error tags and
    finished once. *)
Lemma closing_records_error (w w1 w2 : world) (sid : nat) (exc : exn) :
  handed_over w sid w1 -> keeps (spans w1) w2 ->
  error_recorded sid exc (on_span mark_finished sid (on_span (with_error exc) sid w2)).
Proof.
  intros Hh Hk. destruct (keeps_handed_over _ _ _ Hh) as (sp & Hsp & -> & Hfin).
  rewrite Hsp in Hk.
  apply (keeps_on_span (with_error exc)) in Hk.
  exists (mark_finished (with_error exc sp)). split.
  - apply lookup_on_span. exact Hk.
  - simpl. rewrite lookup_insert_ne by discriminate.
    rewrite !lookup_insert_eq, Hfin. repeat split; reflexivity.
Qed.

Lemma call_keeps (m : method) (args : list pyval) (kw : kwargs) (w1 w2 : world)
    (r : outcome pyval) :
  call m args kw w1 = (r, w2) -> keeps (spans w1) w2.
Proof.
  intros H. pose proof (call_framed m (spans w1) args kw w1 (keeps_refl w1)) as Hk.
  rewrite H in Hk. exact Hk.
Qed.

(** The three ways to call [execute] and the [raise_on_error] each binds. *)
Lemma bind_raise_on_error_omitted :
  bind_exact execute_signature [] ∅ = Return [PyBool true].
Proof. reflexivity. Qed.

Lemma bind_raise_on_error_positional (v : pyval) :
  bind_exact execute_signature [v] ∅ = Return [v].
Proof. reflexivity. Qed.

Lemma bind_raise_on_error_keyword (v : pyval) :
  bind_exact execute_signature [] {[ "raise_on_error" := v ]} = Return [v].
Proof.
  unfold bind_exact, execute_signature, bind_params.
  rewrite lookup_singleton_eq. simpl.
  rewrite delete_singleton_eq. reflexivity.
Qed.

(** C7.  With nothing queued, the traced [execute] is the original [execute]
    called with the [raise_on_error] of the call: the same outcome and the
    same effects, and so no span unless the original starts one. *)
Theorem empty_batch_calls_through (pipe : pyval) (f : list pyval -> kwargs -> M pyval)
    (args : list pyval) (kw : kwargs) (w : world) (b : list pyval) :
  bind_exact execute_signature args kw = Return b ->
  fst (get_command_stack pipe w) = Return [] ->
  tracing_execute pipe f args kw w = f [] {[ "raise_on_error" := param 0 b ]} w /\
  ((forall a k, silent (f a k)) ->
   spans (snd (tracing_execute pipe f args kw w)) = spans w).
Proof.
  intros Hb Hs. rewrite (tracing_execute_empty _ _ _ _ _ _ Hb Hs).
  split; [reflexivity|]. intros Hf. apply Hf.
Qed.

(** C8.  A unicode argument with a character outside ASCII: [str(val)],
    which runs before the [try], raises, and [_truncate] raises with it
    instead of giving the placeholder. *)
Theorem truncate_raises_on_unicode :
  _truncate (PyUnicode [233%N]) = Raise UnicodeEncodeError.
Proof. reflexivity. Qed.

(** The traced [immediate_execute_command] never gives anything but
    [None]. *)
Lemma tracing_immediate_returns_None (pipe : pyval) (f : list pyval -> kwargs -> M pyval)
    (args : list pyval) (kw : kwargs) (w w' : world) (v : pyval) :
  tracing_immediate_execute_command pipe f args kw w = (Return v, w') -> v = PyNone.
Proof.
  rewrite tracing_immediate_execute_command_run.
  destruct (prologue_immediate pipe args w) as [[sid|e] w1]; [|discriminate].
  destruct (f args kw w1) as [[r|e] w2]; [|destruct (is_Exception e); [|discriminate]];
    intros H; injection H as <- _; reflexivity.
Qed.

Lemma named_expected (w : world) (command : pyval) :
  displayable (g_trace_prefix w) -> displayable command ->
  named w command = Return (expected_name (g_trace_prefix w) command).
Proof.
  unfold displayable. intros Hp Hc.
  unfold named, _get_operation_name, bind, gets, ret, lift, format_field.
  cbv beta iota.
  destruct (is_None (g_trace_prefix w)) eqn:E.
  - destruct (g_trace_prefix w); try discriminate. reflexivity.
  - cbn [fst]. rewrite Hp, Hc. cbn [obind].
    destruct (g_trace_prefix w); try discriminate; reflexivity.
Qed.

Lemma spans_on_span_last (g : span -> span) (l : list span) (sp : span) (w : world) :
  spans w = l ++ [sp] -> spans (on_span g (length l) w) = l ++ [g sp].
Proof. intros H. unfold on_span. simpl. rewrite H. apply alter_middle. Qed.

Lemma statement_tag (peers : list (string * pyval)) (stmt : pyval) (t : gmap string tagval) :
  tag_all peers stmt t !! "db.statement" = Some (TagVal stmt).
Proof.
  unfold tag_all. rewrite lookup_insert_ne by discriminate. apply lookup_insert_eq.
Qed.

(** What the wrapper of [execute_command] leaves in the tracer when its
    bookkeeping raises nothing and the wrapped method starts no span. *)
Lemma execute_command_one_span (f : list pyval -> kwargs -> M pyval) (is_klass : bool)
    (args : list pyval) (kw : kwargs) (w : world) (self command name st : pyval)
    (rest : list pyval) (peers : list (string * pyval)) :
  (forall a k, silent (f a k)) ->
  (if is_klass then args else PyNone :: args) = self :: command :: rest ->
  named w command = Return name ->
  _normalize_stmt (command :: rest) = Return st ->
  peers_for self w = Return peers ->
  exists sp, spans (snd (tracing_execute_command f is_klass args kw w)) = spans w ++ [sp] /\
             operation_name sp = name /\
             tags sp !! "db.statement" = Some (TagVal st) /\
             finished sp = 1.
Proof.
  intros Hf Hargs Hname Hst Hpeers.
  rewrite tracing_execute_command_run, prologue_execute_command_eq.
  rewrite Hargs, Hname, Hst, Hpeers.
  pose proof (Hf args kw (push_span (tagged_span name peers st w) w)) as Hs.
  destruct (f args kw (push_span (tagged_span name peers st w) w)) as [[v|e] w2];
    simpl in Hs; simpl snd.
  - exists (mark_finished (tagged_span name peers st w)).
    split; [apply spans_on_span_last, Hs|].
    split; [reflexivity|]. split; [apply statement_tag | reflexivity].
  - exists (mark_finished (noted e (tagged_span name peers st w))).
    split; [apply spans_on_span_last, spans_on_span_last, Hs|].
    unfold noted. destruct (is_Exception e).
    + split; [reflexivity|]. split; [|reflexivity].
      simpl. rewrite !lookup_insert_ne by discriminate. apply statement_tag.
    + split; [reflexivity|]. split; [apply statement_tag | reflexivity].
Qed.

(** C3, as the code has it.  A command with at least its name, issued
    through the wrapped [execute_command] whose bookkeeping raises nothing
    (every argument has a display form, the prefix too, the peer lookup
    succeeds), leaves exactly one span: named [prefix/command], or [command]
    without a prefix; its [db.statement] the contributions of the arguments
    joined by single spaces, where an argument contributes its display form
    cut to 128 characters, or [{bytes}] when that form is not ASCII text;
    finished once. *)
Theorem traced_command_leaves_one_span (f : list pyval -> kwargs -> M pyval) (is_klass : bool)
    (args : list pyval) (kw : kwargs) (w : world) (self command : pyval)
    (rest : list pyval) (peers : list (string * pyval)) :
  (forall a k, silent (f a k)) ->
  (if is_klass then args else PyNone :: args) = self :: command :: rest ->
  Forall displayable (command :: rest) ->
  displayable (g_trace_prefix w) ->
  peers_for self w = Return peers ->
  exists sp, spans (snd (tracing_execute_command f is_klass args kw w)) = spans w ++ [sp] /\
             operation_name sp = expected_name (g_trace_prefix w) command /\
             tags sp !! "db.statement"
               = Some (TagVal (PyUnicode (statement_text (command :: rest)))) /\
             finished sp = 1.
Proof.
  intros Hf Hargs Hall Hprefix Hpeers.
  destruct (_normalize_stmt_text _ Hall) as (st & Hst & _ & Hne).
  rewrite <- (Hne ltac:(discriminate)).
  eapply execute_command_one_span; eauto.
  apply named_expected; [exact Hprefix | exact (Forall_inv Hall)].
Qed.

Lemma prologue_keeps_store (is_klass : bool) (args : list pyval) (w : world) :
  heap (snd (prologue_execute_command is_klass args w)) = heap w /\
  lib_state (snd (prologue_execute_command is_klass args w)) = lib_state w.
Proof.
  rewrite prologue_execute_command_eq.
  repeat case_match; split; reflexivity.
Qed.

(** C2, as the code has it.  The bookkeeping of the wrapper runs before the
    wrapped call and outside the [try]; it leaves the objects and the store
    as they are.  When it raises, the wrapper raises the same exception from
    the same state: the wrapped method is not called.  When it returns, the
    outcome of the wrapper and its effect on the objects and the store are
    those of the wrapped method called with the arguments of the call. *)
Theorem bookkeeping_errors_propagate (f : list pyval -> kwargs -> M pyval) (is_klass : bool)
    (args : list pyval) (kw : kwargs) (w : world) :
  let p := prologue_execute_command is_klass args w in
  let traced := tracing_execute_command f is_klass args kw w in
  heap (snd p) = heap w /\ lib_state (snd p) = lib_state w /\
  match fst p with
  | Raise e => traced = (Raise e, snd p)
  | Return sid =>
      fst traced = fst (f args kw (snd p)) /\
      heap (snd traced) = heap (snd (f args kw (snd p))) /\
      lib_state (snd traced) = lib_state (snd (f args kw (snd p)))
  end.
Proof.
  intros p traced. subst p traced.
  destruct (prologue_keeps_store is_klass args w) as [Hh Hl].
  split; [exact Hh|]. split; [exact Hl|].
  rewrite tracing_execute_command_run.
  destruct (prologue_execute_command is_klass args w) as [[sid|e] w1]; simpl;
    [|reflexivity].
  destruct (f args kw w1) as [[v|e] w2]; repeat split; reflexivity.
Qed.

(** C9, as the code has it.  For an originating object without connection
    configuration the lookup [_peer_tags] raises [AttributeError].  Tag
    derivation yields no peer tag and raises nothing when the object is
    [None] or another false value: then it does not look up at all. *)
Theorem peer_lookup_without_configuration (self : pyval) (w : world) :
  lacks_configuration w self ->
  _peer_tags self w = (Raise AttributeError, w) /\
  (py_truth (heap w) self = false ->
   forall l sp stmt,
     _set_base_span_tags self (length l) stmt (set_spans (l ++ [sp]) w)
     = (Return tt, set_spans (l ++ [with_tags (tag_all [] stmt (tags sp)) sp]) w)).
Proof.
  intros Hlack. split.
  - unfold _peer_tags, hasattr_connection_pool, get_connection_pool, get_connection_kwargs,
      instance, bind, gets, ret, raise.
    destruct self; try reflexivity. simpl in Hlack. simpl.
    destruct (heap w !! r) as [o|] eqn:Ho; simpl; rewrite ?Ho; simpl; [|reflexivity].
    destruct Hlack as [Hp Hk]. rewrite Hp. simpl. rewrite Ho. simpl. rewrite Hk.
    reflexivity.
  - intros Hfalse l sp stmt. rewrite _set_base_span_tags_run.
    unfold peers_for. rewrite Hfalse. reflexivity.
Qed.

(** Where there is configuration but neither host nor port in it, the
    lookup gives no peer tag. *)
Lemma _peer_tags_no_host_no_port (r : ref) (o : object) (d : gmap string pyval) (w : world) :
  heap w !! r = Some o -> connection_pool o = None -> connection_kwargs o = Some d ->
  d !! "host" = None -> d !! "port" = None ->
  _peer_tags (PyRef r) w = (Return [], w).
Proof.
  intros Ho Hp Hk Hhost Hport.
  unfold _peer_tags, hasattr_connection_pool, get_connection_pool, get_connection_kwargs,
    instance, truth, dict_get, bind, gets, ret, raise.
  simpl. rewrite Ho, Hp. simpl. rewrite Ho. simpl. rewrite Hk, Hhost, Hport. reflexivity.
Qed.

(** C6, as the code has it.  [execute] on a traced pipeline with a batch
    queued, when the bookkeeping raises nothing, leaves exactly one span,
    named [prefix/MULTI], or [MULTI] without a prefix; its [db.statement] the
    statements of the queued commands joined by [;] in the order queued.
    The original [execute] is entered with that span already tagged: the
    statement is that of the batch as it was queued, whatever the original
    does to it. *)
Theorem traced_batch_leaves_one_span (pipe : pyval) (f : list pyval -> kwargs -> M pyval)
    (args : list pyval) (kw : kwargs) (w : world) (b : list pyval) (c : command)
    (cs : list command) (peers : list (string * pyval)) :
  (forall a k, silent (f a k)) ->
  bind_exact execute_signature args kw = Return b ->
  fst (get_command_stack pipe w) = Return (c :: cs) ->
  Forall (fun c => Forall displayable (fst c)) (c :: cs) ->
  displayable (g_trace_prefix w) ->
  peers_for pipe w = Return peers ->
  exists st sp0,
    text_of st = Some (batch_text (c :: cs)) /\
    operation_name sp0 = expected_name (g_trace_prefix w) (PyStr "MULTI") /\
    tags sp0 !! "db.statement" = Some (TagVal st) /\
    fst (tracing_execute pipe f args kw w)
      = fst (f [] {[ "raise_on_error" := param 0 b ]} (push_span sp0 w)) /\
    exists sp, spans (snd (tracing_execute pipe f args kw w)) = spans w ++ [sp] /\
               operation_name sp = expected_name (g_trace_prefix w) (PyStr "MULTI") /\
               tags sp !! "db.statement" = Some (TagVal st) /\
               finished sp = 1.
Proof.
  intros Hf Hb Hs Hall Hprefix Hpeers.
  destruct (_normalize_stmts_text _ Hall) as (st & Hst & Htext).
  exists st, (tagged_span (expected_name (g_trace_prefix w) (PyStr "MULTI")) peers st w).
  split; [exact Htext|]. split; [reflexivity|]. split; [apply statement_tag|].
  rewrite (tracing_execute_run _ _ _ _ _ _ _ _ Hb Hs), prologue_execute_eq.
  rewrite (named_expected w (PyStr "MULTI") Hprefix eq_refl), Hs. cbn [obind].
  rewrite Hst, Hpeers.
  set (w1 := push_span _ w).
  pose proof (Hf [] {[ "raise_on_error" := param 0 b ]} w1) as Hsil.
  destruct (f [] {[ "raise_on_error" := param 0 b ]} w1) as [[v|e] w2];
    simpl in Hsil; (split; [reflexivity|]); simpl snd.
  - eexists. split; [apply spans_on_span_last, Hsil|].
    split; [reflexivity|]. split; [apply statement_tag | reflexivity].
  - eexists. split; [apply spans_on_span_last, spans_on_span_last, Hsil|].
    unfold noted. destruct (is_Exception e).
    + split; [reflexivity|]. split; [|reflexivity].
      simpl. rewrite !lookup_insert_ne by discriminate. apply statement_tag.
    + split; [reflexivity|]. split; [apply statement_tag | reflexivity].
Qed.

(** *** Attribute lookup and assignment, in equations *)

Lemma getattr_method_ref (r : ref) (name : string) (w : world) (o : object) :
  heap w !! r = Some o ->
  getattr_method (PyRef r) name w
  = (Return (match obj_dict o !! name with
             | Some m => m
             | None => Bound r (class_function w (obj_class o) name)
             end), w).
Proof.
  intros Ho. unfold getattr_method, instance, bind, gets, ret. simpl. rewrite Ho.
  destruct (obj_dict o !! name); reflexivity.
Qed.

Lemma getattr_method_class (cls name : string) (w : world) :
  getattr_method (PyClass cls) name w = (Return (class_function w cls name), w).
Proof. reflexivity. Qed.

Lemma getattr_method_read_only (obj : pyval) (name : string) (w : world) :
  snd (getattr_method obj name w) = w.
Proof.
  destruct obj; try reflexivity.
  unfold getattr_method, instance, bind, gets, ret, raise. simpl.
  destruct (heap w !! r) as [o|]; [|reflexivity].
  destruct (obj_dict o !! name); reflexivity.
Qed.

Lemma setattr_method_ref (r : ref) (name : string) (m : method) (w : world) (o : object) :
  heap w !! r = Some o ->
  setattr_method (PyRef r) name m w
  = (Return tt, set_heap (<[r := set_obj_dict (<[name := m]> (obj_dict o)) o]> (heap w)) w).
Proof.
  intros Ho. unfold setattr_method, instance, bind, gets, ret, modify. simpl. rewrite Ho.
  reflexivity.
Qed.

Lemma setattr_method_class (cls name : string) (m : method) (w : world) :
  setattr_method (PyClass cls) name m w
  = (Return tt, set_classes
                  (<[cls := <[name := m]> (default ∅ (classes w !! cls))]> (classes w)) w).
Proof. reflexivity. Qed.

Lemma setattr_method_returns (obj : pyval) (name : string) (m : method) (w w' : world) :
  setattr_method obj name m w = (Return tt, w') ->
  (exists r o, obj = PyRef r /\ heap w !! r = Some o /\
               w' = set_heap (<[r := set_obj_dict (<[name := m]> (obj_dict o)) o]> (heap w)) w)
  \/ (exists cls, obj = PyClass cls /\
                  w' = set_classes
                         (<[cls := <[name := m]> (default ∅ (classes w !! cls))]> (classes w))
                         w).
Proof.
  destruct obj; try discriminate.
  - rewrite setattr_method_class. intros H. injection H as <-. right. eauto.
  - destruct (heap w !! r) as [o|] eqn:Ho.
    + rewrite (setattr_method_ref _ _ _ _ _ Ho). intros H. injection H as <-.
      left. eauto.
    + unfold setattr_method, instance, bind, gets, raise. simpl. rewrite Ho. discriminate.
Qed.

(** A class is the first of the classes searched for its attributes, and
    comes once. *)
Lemma mro_head (cls : string) : exists tl, mro cls = cls :: tl /\ cls ∉ tl.
Proof.
  unfold mro.
  destruct (String.eqb_spec cls "redis.client.Redis") as [->|H1].
  { eexists. split; [reflexivity|]. rewrite !not_elem_of_cons.
    repeat split; try discriminate. apply not_elem_of_nil. }
  destruct (String.eqb_spec cls "redis.client.StrictPipeline") as [->|H2].
  { eexists. split; [reflexivity|]. rewrite !not_elem_of_cons.
    repeat split; try discriminate. apply not_elem_of_nil. }
  destruct (String.eqb_spec cls "redis.client.Pipeline") as [->|H3].
  { eexists. split; [reflexivity|]. rewrite !not_elem_of_cons.
    repeat split; try discriminate. apply not_elem_of_nil. }
  exists []. split; [reflexivity | apply not_elem_of_nil].
Qed.

Lemma inherited_insert_notin (assigned : gmap string (gmap string method)) (c : string)
    (d : gmap string method) (l : list string) (name : string) :
  c ∉ l -> inherited (<[c := d]> assigned) l name = inherited assigned l name.
Proof.
  induction l as [|c' l IH]; intros Hc; [reflexivity|].
  apply not_elem_of_cons in Hc as [Hne Hc]. simpl.
  rewrite lookup_insert_ne by exact Hne. rewrite (IH Hc). reflexivity.
Qed.

Lemma class_function_insert (w : world) (cls name name' : string) (m : method) :
  class_function
    (set_classes (<[cls := <[name := m]> (default ∅ (classes w !! cls))]> (classes w)) w)
    cls name'
  = if decide (name = name') then m else class_function w cls name'.
Proof.
  unfold class_function. simpl.
  destruct (mro_head cls) as (tl & -> & Hnotin). simpl.
  rewrite lookup_insert_eq. simpl. rewrite lookup_insert.
  destruct (decide (name = name')); [reflexivity|].
  rewrite (inherited_insert_notin _ _ _ _ _ Hnotin).
  destruct (classes w !! cls); reflexivity.
Qed.

Lemma setattr_installs (obj : pyval) (g : method) (w w' : world) :
  setattr_method obj "execute_command" (TracingExecuteCommand g false) w = (Return tt, w') ->
  per_instance_wrapped obj w'.
Proof.
  intros H. exists g.
  destruct (setattr_method_returns _ _ _ _ _ H) as [(r & o & -> & Ho & ->) | (cls & -> & ->)].
  - erewrite getattr_method_ref; [|simpl; apply lookup_insert_eq].
    simpl. rewrite lookup_insert_eq. reflexivity.
  - rewrite getattr_method_class, class_function_insert. reflexivity.
Qed.

Lemma setattr_other_keeps (obj : pyval) (name : string) (m : method) (w w' : world) :
  name <> "execute_command" ->
  setattr_method obj name m w = (Return tt, w') ->
  per_instance_wrapped obj w -> per_instance_wrapped obj w'.
Proof.
  intros Hne H [g Hg]. exists g.
  destruct (setattr_method_returns _ _ _ _ _ H) as [(r & o & -> & Ho & ->) | (cls & -> & ->)].
  - rewrite (getattr_method_ref _ _ _ _ Ho) in Hg.
    erewrite getattr_method_ref; [|simpl; apply lookup_insert_eq].
    simpl. rewrite lookup_insert_ne by exact Hne.
    destruct (obj_dict o !! "execute_command"); [|discriminate].
    injection Hg as ->. reflexivity.
  - rewrite getattr_method_class in Hg. injection Hg as Hg.
    rewrite getattr_method_class, class_function_insert.
    destruct (decide (name = "execute_command")); [contradiction|].
    rewrite Hg. reflexivity.
Qed.

Lemma getattr_keeps (obj obj' : pyval) (name : string) (w w' : world) (r : outcome method) :
  getattr_method obj' name w = (r, w') ->
  per_instance_wrapped obj w -> per_instance_wrapped obj w'.
Proof.
  intros H. pose proof (getattr_method_read_only obj' name w) as Hw.
  rewrite H in Hw. simpl in Hw. subst w'. exact id.
Qed.

Lemma _patch_obj_execute_command_installs (obj : pyval) (w w' : world) :
  _patch_obj_execute_command obj false w = (Return tt, w') -> per_instance_wrapped obj w'.
Proof.
  unfold _patch_obj_execute_command, bind.
  destruct (getattr_method obj "execute_command" w) as [[g|e] w1]; [|discriminate].
  apply setattr_installs.
Qed.

Lemma _patch_client_installs (client : pyval) (w w' : world) :
  _patch_client client w = (Return tt, w') -> per_instance_wrapped client w'.
Proof.
  unfold _patch_client. unfold bind at 1.
  destruct (_patch_obj_execute_command client false w) as [[[]|e] w1] eqn:H1;
    [|discriminate].
  apply _patch_obj_execute_command_installs in H1.
  unfold bind at 1.
  destruct (getattr_method client "pipeline" w1) as [[g2|e] w2] eqn:H2; [|discriminate].
  apply (getattr_keeps client) in H2; [|exact H1].
  unfold bind at 1.
  destruct (setattr_method client "pipeline" (ClientTracingPipeline g2) w2)
    as [[[]|e] w3] eqn:H3; [|discriminate].
  apply setattr_other_keeps in H3; [|discriminate|exact H2].
  unfold bind at 1.
  destruct (getattr_method client "pubsub" w3) as [[g4|e] w4] eqn:H4; [|discriminate].
  apply (getattr_keeps client) in H4; [|exact H3].
  intros H5. apply setattr_other_keeps in H5; [exact H5|discriminate|exact H4].
Qed.

Lemma _patch_pubsub_installs (pubsub : pyval) (w w' : world) :
  _patch_pubsub pubsub w = (Return tt, w') -> per_instance_wrapped pubsub w'.
Proof.
  unfold _patch_pubsub. unfold bind at 1.
  destruct (_patch_pubsub_parse_response pubsub w) as [[[]|e] w1]; [|discriminate].
  apply _patch_obj_execute_command_installs.
Qed.

Lemma lookup_past_end (w : world) (sp : span) :
  spans w !! length (spans w) = Some sp -> False.
Proof. intros H. apply lookup_lt_Some in H. lia. Qed.

Lemma tagged_without_peers (name st : pyval) (w : world) :
  no_peer_tags (tagged_span name [] st w).
Proof.
  unfold no_peer_tags, PEER_HOST_IPV4, PEER_HOSTNAME, PEER_PORT, tagged_span, tag_all.
  cbn [tags foldl].
  rewrite !lookup_insert_ne by discriminate. rewrite lookup_empty. repeat split.
Qed.

(** The span of the wrapper installed for one object has no peer tag. *)
Lemma instance_wrapper_no_peer_tags (m : method) (args : list pyval) (kw : kwargs)
    (w : world) (sp : span) :
  spans (snd (tracing_execute_command (call m) false args kw w)) !! length (spans w)
    = Some sp ->
  no_peer_tags sp.
Proof.
  rewrite tracing_execute_command_run, prologue_execute_command_eq.
  destruct args as [|command rest]; [intros H; destruct (lookup_past_end _ _ H)|].
  destruct (named w command) as [name|e]; [|intros H; destruct (lookup_past_end _ _ H)].
  destruct (_normalize_stmt (command :: rest)) as [st|e].
  - change (peers_for PyNone w) with (@Return (list (string * pyval)) []).
    cbv iota.
    set (sp0 := tagged_span name [] st w).
    destruct (call m (command :: rest) kw (push_span sp0 w)) as [[v|e] w2] eqn:Hc;
      apply call_keeps in Hc; simpl in Hc; simpl snd.
    + rewrite (lookup_on_span _ _ _ _ Hc). intros H. injection H as <-.
      apply (tagged_without_peers name st w).
    + apply (keeps_on_span (noted e)) in Hc.
      rewrite (lookup_on_span _ _ _ _ Hc). intros H. injection H as <-.
      pose proof (tagged_without_peers name st w) as Hno.
      unfold noted. destruct (is_Exception e); [|exact Hno].
      unfold no_peer_tags, PEER_HOST_IPV4, PEER_HOSTNAME, PEER_PORT in *. simpl in *.
      rewrite !(lookup_insert_ne _ "error.object"), !(lookup_insert_ne _ "error")
        by discriminate.
      exact Hno.
  - simpl. rewrite list_lookup_middle by reflexivity. intros H. injection H as <-.
    unfold no_peer_tags. simpl. rewrite !lookup_empty. repeat split.
Qed.

(** C10.  After a client was marked with [trace_client], or a pubsub with
    [trace_pubsub], the span that a command issued through its
    [execute_command] starts carries no peer tag: neither the host, as
    address or as name, nor the port. *)
Theorem per_instance_span_has_no_peer_tags (obj : pyval) (w w1 : world)
    (args : list pyval) (kw : kwargs) (sp : span) :
  trace_client obj w = (Return tt, w1) \/ trace_pubsub obj w = (Return tt, w1) ->
  spans (snd (invoke obj "execute_command" args kw w1)) !! length (spans w1) = Some sp ->
  no_peer_tags sp.
Proof.
  intros Hact.
  assert (Hin : per_instance_wrapped obj w1).
  { destruct Hact as [H|H];
      [apply _patch_client_installs in H | apply _patch_pubsub_installs in H]; exact H. }
  destruct Hin as [g Hg]. unfold invoke, bind. rewrite Hg. simpl call.
  apply instance_wrapper_no_peer_tags.
Qed.

(** Once the name of the span is derived, the wrapper of [execute_command]
    starts a span, whatever comes after. *)
Lemma execute_command_opens_span (m : method) (is_klass : bool) (args : list pyval)
    (kw : kwargs) (w : world) (self command name : pyval) (rest : list pyval) :
  (if is_klass then args else PyNone :: args) = self :: command :: rest ->
  named w command = Return name ->
  length (spans w)
  < length (spans (snd (tracing_execute_command (call m) is_klass args kw w))).
Proof.
  intros Hargs Hname.
  rewrite tracing_execute_command_run, prologue_execute_command_eq, Hargs, Hname.
  assert (Hpush : forall sp, length (spans w) < length (spans (push_span sp w))).
  { intros sp. simpl. rewrite length_app. simpl. lia. }
  destruct (_normalize_stmt (command :: rest)) as [st|e]; [|apply Hpush].
  destruct (peers_for self w) as [peers|e]; [|apply Hpush].
  set (sp0 := tagged_span name peers st w).
  destruct (call m args kw (push_span sp0 w)) as [[v|e] w2] eqn:Hc;
    apply call_keeps in Hc; destruct Hc as [more Hc]; simpl in Hc; simpl;
    rewrite !length_alter, Hc, !length_app; simpl; lia.
Qed.

(** What [setup_tracing] with [trace_all_classes] true leaves behind: the
    class's [execute_command] is the wrapper, around what the class had. *)
Lemma setup_tracing_patches_class (prefix : pyval) (w : world) :
  let w1 := snd (setup_tracing (PyBool true) prefix w) in
  class_function w1 "redis.client.StrictRedis" "execute_command"
    = TracingExecuteCommand
        (class_function w "redis.client.StrictRedis" "execute_command") true /\
  heap w1 = heap w /\ spans w1 = spans w /\ g_trace_prefix w1 = prefix.
Proof.
  change (setup_tracing (PyBool true) prefix w)
    with (_patch_redis_classes (set_globals (PyBool true) prefix w)).
  unfold _patch_redis_classes, _patch_obj_execute_command, StrictRedis, bind.
  repeat (progress (rewrite ?getattr_method_class, ?setattr_method_class; cbv beta iota)).
  cbn [snd]. rewrite !class_function_insert. simpl.
  repeat split; reflexivity.
Qed.

(** C5, as the code has it.  [setup_tracing] with [trace_all_classes] true
    puts the wrapper on the class, and a client looks its [execute_command]
    up there: on a client that was there before, and was never marked
    itself, a command goes through the wrapper, and once its name is derived
    a span is started. *)
Theorem earlier_instance_is_traced (w : world) (r : ref) (o : object) (prefix : pyval)
    (args : list pyval) (kw : kwargs) :
  heap w !! r = Some o ->
  obj_class o = "redis.client.StrictRedis" ->
  obj_dict o !! "execute_command" = None ->
  let w1 := snd (setup_tracing (PyBool true) prefix w) in
  invoke (PyRef r) "execute_command" args kw w1
  = tracing_execute_command
      (call (class_function w "redis.client.StrictRedis" "execute_command"))
      true (PyRef r :: args) kw w1 /\
  (forall command rest,
      args = command :: rest -> displayable prefix -> displayable command ->
      length (spans w)
      < length (spans (snd (invoke (PyRef r) "execute_command" args kw w1)))).
Proof.
  intros Ho Hcls Hdict w1.
  destruct (setup_tracing_patches_class prefix w) as (Hf & Hh & Hs & Hp).
  fold w1 in Hf, Hh, Hs, Hp.
  assert (Hinv : invoke (PyRef r) "execute_command" args kw w1
                 = tracing_execute_command
                     (call (class_function w "redis.client.StrictRedis" "execute_command"))
                     true (PyRef r :: args) kw w1).
  { unfold invoke, bind. rewrite <- Hh in Ho.
    rewrite (getattr_method_ref _ _ _ _ Ho), Hdict, Hcls, Hf. reflexivity. }
  split; [exact Hinv|].
  intros command rest -> Hdp Hdc. rewrite Hinv, <- Hs.
  eapply execute_command_opens_span; [reflexivity|].
  apply named_expected; [rewrite Hp; exact Hdp | exact Hdc].
Qed.

End Claims.

(** ** The module run against the small library *)

Section Examples.
Local Existing Instance demo.

(** C1.  On a pipeline, [immediate_execute_command('GET', 'a')] gives the
    reply of the server; once the pipeline is traced the same call gives
    [None]: the wrapper keeps the reply in [res] and ends without returning
    it. *)
Theorem immediate_execute_result_is_dropped :
  fst (invoke (PyRef 5) "immediate_execute_command" [PyStr "GET"; PyStr "a"] ∅
         demo_prefixed) = Return (PyStr "OK") /\
  fst ((trace_pipeline (PyRef 5) ;;;
        invoke (PyRef 5) "immediate_execute_command" [PyStr "GET"; PyStr "a"] ∅)
         demo_prefixed) = Return PyNone.
Proof. split; vm_compute; reflexivity. Qed.

(** C2 fails.  A client on a pool that keeps no [connection_kwargs]:
    untraced, [GET a] reaches the server and is answered; with the classes
    traced, the peer-tag lookup raises [AttributeError], the caller gets
    that, and the command never reaches the server. *)
Lemma peer_lookup_error_prevents_the_call :
  let plain := invoke (PyRef 7) "execute_command" [PyStr "GET"; PyStr "a"] ∅ demo_world in
  let traced :=
    (setup_tracing (PyBool true) (PyStr "Redis") ;;;
     invoke (PyRef 7) "execute_command" [PyStr "GET"; PyStr "a"] ∅) demo_world in
  (fst plain = Return (PyStr "OK") /\ lib_state (snd plain) = [[PyStr "GET"; PyStr "a"]]) /\
  (fst traced = Raise AttributeError /\ lib_state (snd traced) = []).
Proof. vm_compute. repeat split. Qed.

(** C3 fails.  [SET k v] with a value of one byte that is not ASCII: the
    statement of the span ends in the placeholder, not in the display form
    of the value cut to the limit. *)
Lemma binary_argument_gives_placeholder :
  let args := [PyStr "SET"; PyStr "k"; PyStr demo_binary] in
  let traced :=
    (trace_client (PyRef 1) ;;; invoke (PyRef 1) "execute_command" args ∅) demo_prefixed in
  map (fun sp => tags sp !! "db.statement") (spans (snd traced))
    = [Some (TagVal (PyUnicode (ulit "SET k {bytes}")))] /\
  ulit "SET k {bytes}" <> truncated_displays args.
Proof. split; [vm_compute; reflexivity | vm_compute; discriminate]. Qed.

(** The theorem of C3 on [SET k v], issued on client 1 under the prefix
    [Redis]. *)
Lemma traced_command_witness :
  exists sp,
    spans (snd (tracing_execute_command (call (Bound 1 orig_execute_command)) false
                  [PyStr "SET"; PyStr "k"; PyStr "v"] ∅ demo_prefixed))
      = spans demo_prefixed ++ [sp] /\
    operation_name sp = PyStr "Redis/SET" /\
    tags sp !! "db.statement" = Some (TagVal (PyUnicode (ulit "SET k v"))) /\
    finished sp = 1.
Proof.
  apply (traced_command_leaves_one_span (call (Bound 1 orig_execute_command)) false
           [PyStr "SET"; PyStr "k"; PyStr "v"] ∅ demo_prefixed
           PyNone (PyStr "SET") [PyStr "k"; PyStr "v"] []).
  - intros a k. apply call_bound_original_silent.
  - reflexivity.
  - repeat constructor.
  - reflexivity.
  - reflexivity.
Defined.

(** C5 fails.  Client 1 is there before [setup_tracing] and is never marked
    itself: nothing was assigned on it, and yet [GET a] on it leaves the
    span [Redis/GET]. *)
Lemma earlier_instance_gets_a_span :
  let w1 := snd (setup_tracing (PyBool true) (PyStr "Redis") demo_world) in
  (exists o, heap w1 !! 1 = Some o /\ obj_dict o = ∅) /\
  spans w1 = [] /\
  map operation_name
      (spans (snd (invoke (PyRef 1) "execute_command" [PyStr "GET"; PyStr "a"] ∅ w1)))
    = [PyStr "Redis/GET"].
Proof.
  split; [exists demo_client; split; vm_compute; reflexivity|].
  split; vm_compute; reflexivity.
Qed.

(** The theorem of C5 on client 1. *)
Lemma earlier_instance_witness :
  let w1 := snd (setup_tracing (PyBool true) (PyStr "Redis") demo_world) in
  invoke (PyRef 1) "execute_command" [PyStr "GET"; PyStr "a"] ∅ w1
  = tracing_execute_command (call orig_execute_command) true
      [PyRef 1; PyStr "GET"; PyStr "a"] ∅ w1 /\
  length (spans demo_world)
  < length (spans (snd (invoke (PyRef 1) "execute_command" [PyStr "GET"; PyStr "a"] ∅ w1))).
Proof.
  destruct (earlier_instance_is_traced demo_world 1 demo_client (PyStr "Redis")
              [PyStr "GET"; PyStr "a"] ∅ eq_refl eq_refl eq_refl) as [H1 H2].
  split; [exact H1|].
  apply (H2 (PyStr "GET") [PyStr "a"] eq_refl); reflexivity.
Defined.

(** C6 fails.  A pipeline marked with [trace_pipeline] in a process where no
    prefix was configured: the span of [execute] is named [MULTI], which is
    no [prefix/MULTI]. *)
Lemma multi_span_name_without_prefix :
  let traced := (trace_pipeline (PyRef 2) ;;; invoke (PyRef 2) "execute" [] ∅) demo_world in
  g_trace_prefix demo_world = PyNone /\
  map operation_name (spans (snd traced)) = [PyStr "MULTI"] /\
  ~ exists prefix : string, PyStr "MULTI" = PyStr (prefix +:+ "/MULTI").
Proof.
  split; [reflexivity|]. split; [vm_compute; reflexivity|].
  intros [prefix H]. injection H as H. apply (f_equal String.length) in H.
  rewrite string_length_app in H. simpl in H. lia.
Qed.

(** The theorem of C6 on the two commands queued on pipeline 2. *)
Lemma traced_batch_witness :
  exists st sp0,
    text_of st = Some (ulit "SET k v;GET k") /\
    operation_name sp0 = PyStr "Redis/MULTI" /\
    tags sp0 !! "db.statement" = Some (TagVal st) /\
    fst (tracing_execute (PyRef 2) (call (Bound 2 orig_execute)) [] ∅ demo_prefixed)
      = fst (call (Bound 2 orig_execute) [] {[ "raise_on_error" := PyBool true ]}
               (push_span sp0 demo_prefixed)) /\
    exists sp,
      spans (snd (tracing_execute (PyRef 2) (call (Bound 2 orig_execute)) [] ∅
                    demo_prefixed)) = spans demo_prefixed ++ [sp] /\
      operation_name sp = PyStr "Redis/MULTI" /\
      tags sp !! "db.statement" = Some (TagVal st) /\
      finished sp = 1.
Proof.
  eapply (traced_batch_leaves_one_span (PyRef 2) (call (Bound 2 orig_execute)) [] ∅
            demo_prefixed [PyBool true] ([PyStr "SET"; PyStr "k"; PyStr "v"], ∅)
            [([PyStr "GET"; PyStr "k"], ∅)]).
  - intros a k. apply call_bound_original_silent.
  - reflexivity.
  - reflexivity.
  - repeat constructor.
  - reflexivity.
  - reflexivity.
Defined.

(** The theorem of C7 on pipeline 5, which has nothing queued. *)
Lemma empty_batch_witness :
  tracing_execute (PyRef 5) (call (Bound 5 orig_execute)) [] ∅ demo_prefixed
  = call (Bound 5 orig_execute) [] {[ "raise_on_error" := PyBool true ]} demo_prefixed /\
  ((forall a k, silent (call (Bound 5 orig_execute) a k)) ->
   spans (snd (tracing_execute (PyRef 5) (call (Bound 5 orig_execute)) [] ∅ demo_prefixed))
   = spans demo_prefixed).
Proof.
  apply (empty_batch_calls_through (PyRef 5) (call (Bound 5 orig_execute)) [] ∅
           demo_prefixed [PyBool true]); reflexivity.
Defined.

(** C9 fails.  Object 4 has neither a [connection_pool] nor
    [connection_kwargs], and is true as objects are: the lookup raises. *)
Lemma peer_lookup_raises :
  lacks_configuration demo_world (PyRef 4) /\
  py_truth (heap demo_world) (PyRef 4) = true /\
  fst (_peer_tags (PyRef 4) demo_world) = Raise AttributeError.
Proof. vm_compute. repeat split. Qed.

(** The theorem of C9 on object 4. *)
Lemma peer_lookup_witness :
  _peer_tags (PyRef 4) demo_world = (Raise AttributeError, demo_world) /\
  (py_truth (heap demo_world) (PyRef 4) = false ->
   forall l sp stmt,
     _set_base_span_tags (PyRef 4) (length l) stmt (set_spans (l ++ [sp]) demo_world)
     = (Return tt,
        set_spans (l ++ [with_tags (tag_all [] stmt (tags sp)) sp]) demo_world)).
Proof.
  apply (peer_lookup_without_configuration (PyRef 4) demo_world).
  vm_compute. split; reflexivity.
Defined.

(** The theorem of C10 on client 1, marked with [trace_client]. *)
Lemma per_instance_witness :
  exists sp,
    spans (snd (invoke (PyRef 1) "execute_command" [PyStr "GET"; PyStr "a"] ∅
                  (snd (trace_client (PyRef 1) demo_prefixed)))) !! 0 = Some sp /\
    no_peer_tags sp.
Proof.
  eexists. split; [vm_compute; reflexivity|].
  eapply (per_instance_span_has_no_peer_tags (PyRef 1) demo_prefixed
            (snd (trace_client (PyRef 1) demo_prefixed)) [PyStr "GET"; PyStr "a"] ∅).
  - left. vm_compute. reflexivity.
  - vm_compute. reflexivity.
Defined.

(** On the class-level path the same command does carry the peer tags. *)
Example class_level_span_has_peer_tags :
  let w1 := snd (setup_tracing (PyBool true) (PyStr "Redis") demo_world) in
  map (fun sp => (tags sp !! PEER_HOSTNAME, tags sp !! PEER_PORT))
      (spans (snd (invoke (PyRef 1) "execute_command" [PyStr "GET"; PyStr "a"] ∅ w1)))
  = [(Some (TagVal (PyStr "localhost")), Some (TagVal (PyInt 6379)))].
Proof. vm_compute. reflexivity. Qed.

End Examples.

(** * Further properties *)

(** ** The address pattern, in full *)

Lemma digits_1_3_spec (l r : list N) :
  In r (digits_1_3 l) <-> exists g, digit_group g /\ l = g ++ r.
Proof.
  unfold digits_1_3, digit_group. split.
  - intros H.
    destruct l as [|a l1]; [destruct H|].
    destruct (is_digit a) eqn:Ha; [|destruct H].
    destruct H as [<-|H].
    { exists [a]. simpl. rewrite Ha. repeat split; lia. }
    destruct l1 as [|b l2]; [destruct H|].
    destruct (is_digit b) eqn:Hb; [|destruct H].
    destruct H as [<-|H].
    { exists [a; b]. simpl. rewrite Ha, Hb. repeat split; lia. }
    destruct l2 as [|c l3]; [destruct H|].
    destruct (is_digit c) eqn:Hc; [|destruct H].
    destruct H as [<-|[]].
    exists [a; b; c]. simpl. rewrite Ha, Hb, Hc. repeat split; lia.
  - intros (g & [[Hlo Hhi] Hd] & ->).
    destruct g as [|a [|b [|c [|x g]]]]; simpl in *; try lia.
    + rewrite andb_true_r in Hd. rewrite Hd. left. reflexivity.
    + apply andb_prop in Hd as [Ha Hb]. rewrite andb_true_r in Hb.
      rewrite Ha, Hb. right. left. reflexivity.
    + apply andb_prop in Hd as [Ha Hd]. apply andb_prop in Hd as [Hb Hc].
      rewrite andb_true_r in Hc. rewrite Ha, Hb, Hc.
      right. right. left. reflexivity.
Qed.

Lemma dot_spec (l r : list N) : In r (dot l) <-> l = 46%N :: r.
Proof.
  split.
  - intros H. destruct l as [|x l]; [destruct H|].
    destruct (N.eq_dec x 46%N) as [->|Hne].
    + destruct H as [<-|[]]. reflexivity.
    + exfalso. unfold dot in H.
      repeat (match type of H with
              | In _ (match ?y with _ => _ end) => destruct y
              end; try (destruct H; fail); try congruence).
  - intros ->. left. reflexivity.
Qed.

Lemma seq_re_spec (p q : list N -> list (list N)) (l r : list N) :
  In r (seq_re p q l) <-> exists m, In m (p l) /\ In r (q m).
Proof.
  unfold seq_re. rewrite in_concat. split.
  - intros (x & Hx & Hr). apply in_map_iff in Hx as (m & <- & Hm). eauto.
  - intros (m & Hm & Hr). exists (q m). split; [|exact Hr].
    apply in_map_iff. eauto.
Qed.

Lemma at_end_spec (l : list N) : at_end l = true <-> l = [] \/ l = [10%N].
Proof.
  split.
  - intros H. destruct l as [|x l]; [left; reflexivity|]. right. unfold at_end in H.
    repeat (match type of H with
            | (match ?y with _ => _ end) = true => destruct y
            end; try discriminate H).
    reflexivity.
  - intros [->| ->]; reflexivity.
Qed.

(** X1.  [IPV4_RE] matches exactly the dotted quads, four groups of one to
    three decimal digits with dots between them, and a dotted quad followed
    by one newline; the groups are not checked against 255. *)
Theorem IPV4_RE_matches_dotted_quads (l : list N) :
  IPV4_RE_match l = true <->
  dotted_quad l \/ exists l0, dotted_quad l0 /\ l = l0 ++ [10%N].
Proof.
  unfold IPV4_RE_match. rewrite existsb_exists.
  setoid_rewrite at_end_spec.
  setoid_rewrite seq_re_spec. setoid_rewrite seq_re_spec.
  setoid_rewrite seq_re_spec. setoid_rewrite seq_re_spec.
  setoid_rewrite seq_re_spec. setoid_rewrite seq_re_spec.
  setoid_rewrite digits_1_3_spec. setoid_rewrite dot_spec.
  unfold dotted_quad. split.
  - intros (r & (m1 & (a & Ha & ->) & m2 & -> & m3 & (b & Hb & [= ->]) & m4 & ->
                 & m5 & (c & Hc & [= ->]) & m6 & -> & (d & Hd & [= ->])) & Hr).
    destruct Hr as [-> | ->].
    + left. exists a, b, c, d. rewrite app_nil_r. auto.
    + right. exists (a ++ 46%N :: b ++ 46%N :: c ++ 46%N :: d).
      split; [exists a, b, c, d; auto|].
      rewrite <- !app_assoc. simpl. rewrite <- !app_assoc. simpl.
      rewrite <- !app_assoc. reflexivity.
  - intros [(a & b & c & d & Ha & Hb & Hc & Hd & ->)
           | (l0 & (a & b & c & d & Ha & Hb & Hc & Hd & ->) & ->)].
    + exists []. split; [|left; reflexivity].
      eexists. split; [exists a; split; [exact Ha | reflexivity]|].
      eexists. split; [reflexivity|].
      eexists. split; [exists b; split; [exact Hb | reflexivity]|].
      eexists. split; [reflexivity|].
      eexists. split; [exists c; split; [exact Hc | reflexivity]|].
      eexists. split; [reflexivity|].
      exists d. split; [exact Hd | rewrite app_nil_r; reflexivity].
    + exists [10%N]. split; [|right; reflexivity].
      eexists. split; [exists a; split; [exact Ha|]|].
      { rewrite <- !app_assoc. simpl. reflexivity. }
      eexists. split; [reflexivity|].
      eexists. split; [exists b; split; [exact Hb|]|].
      { rewrite <- !app_assoc. simpl. reflexivity. }
      eexists. split; [reflexivity|].
      eexists. split; [exists c; split; [exact Hc|]|].
      { rewrite <- !app_assoc. simpl. reflexivity. }
      eexists. split; [reflexivity|].
      exists d. split; [exact Hd | reflexivity].
Qed.

Section FurtherProperties.
Context {L : Library}.

(** ** Peer tags *)

Lemma peer_tags_shape_aux (self : pyval) (w : world) (peers : list (string * pyval)) :
  fst (_peer_tags self w) = Return peers ->
  NoDup (map fst peers) /\ length peers <= 2 /\ Forall (peer_tag_ok w) peers.
Proof.
  unfold _peer_tags. unfold bind at 1.
  destruct (hasattr_connection_pool self w) as [[has|e] w1] eqn:H1; [|discriminate].
  assert (w1 = w) as ->.
  { unfold hasattr_connection_pool, gets, ret in H1.
    destruct self; injection H1 as _ H1; symmetry; exact H1. }
  unfold bind at 1.
  destruct ((if has then get_connection_pool self else ret self) w) as [[pool|e] w1] eqn:H2;
    [|discriminate].
  assert (w1 = w) as ->.
  { destruct has; [|unfold ret in H2; congruence].
    unfold get_connection_pool in H2.
    pose proof (instance_reads self w w eq_refl) as Hi.
    unfold bind in H2. rewrite Hi in H2.
    destruct (fst (instance self w)); [|congruence].
    destruct (connection_pool a); unfold ret, raise in H2; congruence. }
  unfold bind at 1.
  destruct (get_connection_kwargs pool w) as [[d|e] w1] eqn:H3; [|discriminate].
  assert (w1 = w) as ->.
  { unfold get_connection_kwargs in H3.
    pose proof (instance_reads pool w w eq_refl) as Hi.
    unfold bind in H3. rewrite Hi in H3.
    destruct (fst (instance pool w)); [|congruence].
    destruct (connection_kwargs a); unfold ret, raise in H3; congruence. }
  unfold bind, truth, gets, lift, ret. cbv beta iota.
  assert (Hfin : forall peers0 : list (string * pyval),
             NoDup (map fst peers0) -> PEER_PORT ∉ map fst peers0 ->
             length peers0 <= 1 -> Forall (peer_tag_ok w) peers0 ->
             let peers := peers0 ++ (if py_truth (heap w) (dict_get d "port")
                                     then [(PEER_PORT, dict_get d "port")] else []) in
             NoDup (map fst peers) /\ length peers <= 2 /\ Forall (peer_tag_ok w) peers).
  { intros peers0 Hnd Hnp Hlen Hok.
    destruct (py_truth (heap w) (dict_get d "port")) eqn:Hp; cbv zeta.
    - rewrite map_app, length_app. simpl. split; [|split; [lia|]].
      + apply NoDup_app. split; [exact Hnd|]. split; [|apply NoDup_singleton].
        intros x Hx ->%list_elem_of_singleton. exact (Hnp Hx).
      + apply Forall_app. split; [exact Hok|]. constructor; [|constructor].
        split; [exact Hp | right; right; reflexivity].
    - rewrite app_nil_r. split; [exact Hnd|]. split; [lia | exact Hok]. }
  destruct (py_truth (heap w) (dict_get d "host")) eqn:Hh; cbv beta iota.
  - destruct (IPV4_RE_match_val (dict_get d "host")) as [m|e] eqn:Hm; [|discriminate].
    cbn [fst]. intros [= <-].
    apply (Hfin [(if m then PEER_HOST_IPV4 else PEER_HOSTNAME, dict_get d "host")]).
    + simpl. apply NoDup_singleton.
    + simpl. intros H%list_elem_of_singleton.
      unfold PEER_PORT, PEER_HOST_IPV4, PEER_HOSTNAME in H. destruct m; discriminate H.
    + simpl. lia.
    + constructor; [|constructor]. split; [exact Hh|].
      destruct m; [left | right; left]; split; auto.
  - cbn [fst]. intros [= <-]. apply (Hfin []).
    + constructor.
    + simpl. apply not_elem_of_nil.
    + simpl. lia.
    + constructor.
Qed.

(** ** Assignments on an instance *)

Lemma store_object_twice (r : ref) (o1 o2 : object) (w : world) :
  store_object r o2 (store_object r o1 w) = store_object r o2 w.
Proof. unfold store_object, set_heap. simpl. rewrite insert_insert_eq. reflexivity. Qed.

Lemma getattr_stored (r : ref) (o : object) (name : string) (w : world) :
  getattr_method (PyRef r) name (store_object r o w)
  = (Return (slot w r o name), store_object r o w).
Proof.
  erewrite getattr_method_ref; [|simpl; apply lookup_insert_eq]. reflexivity.
Qed.

Lemma setattr_stored (r : ref) (o : object) (name : string) (m : method) (w : world) :
  setattr_method (PyRef r) name m (store_object r o w)
  = (Return tt, store_object r (assign name m o) w).
Proof.
  erewrite setattr_method_ref; [|simpl; apply lookup_insert_eq].
  f_equal. exact (store_object_twice r o (assign name m o) w).
Qed.

Lemma setattr_first (r : ref) (o : object) (name : string) (m : method) (w : world) :
  heap w !! r = Some o ->
  setattr_method (PyRef r) name m w = (Return tt, store_object r (assign name m o) w).
Proof. intros Ho. rewrite (setattr_method_ref _ _ _ _ _ Ho). reflexivity. Qed.

Lemma getattr_first (r : ref) (o : object) (name : string) (w : world) :
  heap w !! r = Some o ->
  getattr_method (PyRef r) name w = (Return (slot w r o name), w).
Proof. intros Ho. rewrite (getattr_method_ref _ _ _ _ Ho). reflexivity. Qed.

Lemma slot_assign_same (w : world) (r : ref) (o : object) (name : string) (m : method) :
  slot w r (assign name m o) name = m.
Proof. unfold slot, assign. simpl. rewrite lookup_insert_eq. reflexivity. Qed.

Lemma slot_assign_other (w : world) (r : ref) (o : object) (name name' : string) (m : method) :
  name <> name' -> slot w r (assign name m o) name' = slot w r o name'.
Proof. intros H. unfold slot, assign. simpl. rewrite lookup_insert_ne by exact H. reflexivity. Qed.

Lemma _patch_pipe_execute_eq (r : ref) (o : object) (w : world) :
  heap w !! r = Some o ->
  _patch_pipe_execute (PyRef r) w = (Return tt, store_object r (traced_pipe w r o) w).
Proof.
  intros Ho. unfold _patch_pipe_execute.
  unfold bind at 1. rewrite (getattr_first _ _ _ _ Ho).
  unfold bind at 1. rewrite (setattr_first _ _ _ _ _ Ho).
  unfold bind at 1. rewrite getattr_stored.
  rewrite setattr_stored. rewrite slot_assign_other by discriminate. reflexivity.
Qed.

Lemma _patch_pubsub_eq (r : ref) (o : object) (w : world) :
  heap w !! r = Some o ->
  _patch_pubsub (PyRef r) w = (Return tt, store_object r (traced_pubsub w r o) w).
Proof.
  intros Ho. unfold _patch_pubsub, _patch_pubsub_parse_response, _patch_obj_execute_command.
  unfold bind at 1. unfold bind at 1. rewrite (getattr_first _ _ _ _ Ho).
  rewrite (setattr_first _ _ _ _ _ Ho).
  unfold bind at 1. rewrite getattr_stored.
  rewrite setattr_stored. rewrite slot_assign_other by discriminate. reflexivity.
Qed.

Lemma _patch_client_eq (r : ref) (o : object) (w : world) :
  heap w !! r = Some o ->
  _patch_client (PyRef r) w = (Return tt, store_object r (traced_client w r o) w).
Proof.
  intros Ho. unfold _patch_client, _patch_obj_execute_command.
  unfold bind at 1. unfold bind at 1. rewrite (getattr_first _ _ _ _ Ho).
  rewrite (setattr_first _ _ _ _ _ Ho).
  unfold bind at 1. rewrite getattr_stored.
  unfold bind at 1. rewrite setattr_stored.
  unfold bind at 1. rewrite getattr_stored.
  rewrite setattr_stored.
  rewrite !slot_assign_other by discriminate. reflexivity.
Qed.



Lemma peers_for_shape (self : pyval) (w : world) (peers : list (string * pyval)) :
  peers_for self w = Return peers ->
  NoDup (map fst peers) /\ Forall (peer_tag_ok w) peers.
Proof.
  unfold peers_for. destruct (py_truth (heap w) self).
  - intros H. destruct (peer_tags_shape_aux self w peers H) as (Hn & _ & Hf). auto.
  - intros [= <-]. split; constructor.
Qed.

Lemma peer_key (w : world) (p : string * pyval) :
  peer_tag_ok w p ->
  fst p = PEER_HOST_IPV4 \/ fst p = PEER_HOSTNAME \/ fst p = PEER_PORT.
Proof. intros [_ [[H _]|[[H _]|H]]]; auto. Qed.

Lemma foldl_tags_other (peers : list (string * pyval)) (t : gmap string tagval) (k : string) :
  k ∉ map fst peers ->
  foldl (fun t p => <[fst p := TagVal (snd p)]> t) t peers !! k = t !! k.
Proof.
  revert t. induction peers as [|p peers IH]; intros t Hk; [reflexivity|].
  simpl in *. apply not_elem_of_cons in Hk as [Hne Hk].
  rewrite (IH _ Hk). apply lookup_insert_ne. congruence.
Qed.

Lemma foldl_tags_carried (peers : list (string * pyval)) (t : gmap string tagval)
    (k : string) (v : pyval) :
  NoDup (map fst peers) -> (k, v) ∈ peers ->
  foldl (fun t p => <[fst p := TagVal (snd p)]> t) t peers !! k = Some (TagVal v).
Proof.
  revert t. induction peers as [|p peers IH]; intros t Hnd Hin.
  - apply elem_of_nil in Hin as [].
  - simpl in *. apply NoDup_cons in Hnd as [Hp Hnd].
    apply elem_of_cons in Hin as [<-|Hin].
    + rewrite (foldl_tags_other _ _ _ Hp). apply lookup_insert_eq.
    + apply (IH _ Hnd Hin).
Qed.

Lemma tag_all_base (peers : list (string * pyval)) (stmt : pyval) (t : gmap string tagval) :
  tag_all peers stmt t !! "component" = Some (TagVal (PyStr "redis-py")) /\
  tag_all peers stmt t !! "db.type" = Some (TagVal (PyStr "redis")) /\
  tag_all peers stmt t !! "db.statement" = Some (TagVal stmt) /\
  tag_all peers stmt t !! "span.kind" = Some (TagVal (PyStr "client")).
Proof.
  unfold tag_all. repeat split.
  - rewrite !lookup_insert_ne by discriminate. apply lookup_insert_eq.
  - rewrite !lookup_insert_ne by discriminate. apply lookup_insert_eq.
  - rewrite !lookup_insert_ne by discriminate. apply lookup_insert_eq.
  - apply lookup_insert_eq.
Qed.

Lemma peer_key_not_base (w : world) (peers : list (string * pyval)) (k : string) (v : pyval) :
  Forall (peer_tag_ok w) peers -> (k, v) ∈ peers ->
  k <> "component" /\ k <> "db.type" /\ k <> "db.statement" /\ k <> "span.kind" /\
  k <> "error" /\ k <> "error.object".
Proof.
  intros Hok Hin. rewrite Forall_forall in Hok.
  destruct (peer_key _ _ (Hok _ Hin)) as [H|[H|H]]; simpl in H; subst k;
    repeat split; discriminate.
Qed.

Lemma tag_all_carries (w : world) (peers : list (string * pyval)) (stmt : pyval)
    (t : gmap string tagval) (k : string) (v : pyval) :
  NoDup (map fst peers) -> Forall (peer_tag_ok w) peers -> (k, v) ∈ peers ->
  tag_all peers stmt t !! k = Some (TagVal v).
Proof.
  intros Hnd Hok Hin.
  destruct (peer_key_not_base _ _ _ _ Hok Hin) as (H1 & H2 & H3 & H4 & _).
  unfold tag_all. rewrite !lookup_insert_ne by congruence.
  apply (foldl_tags_carried _ _ _ _ Hnd Hin).
Qed.

Lemma tag_all_other (w : world) (peers : list (string * pyval)) (stmt : pyval)
    (t : gmap string tagval) (k : string) :
  Forall (peer_tag_ok w) peers ->
  k ∉ ["component"; "db.type"; "db.statement"; "span.kind";
       PEER_HOST_IPV4; PEER_HOSTNAME; PEER_PORT] ->
  tag_all peers stmt t !! k = t !! k.
Proof.
  intros Hok Hk. unfold tag_all.
  rewrite !not_elem_of_cons in Hk. destruct Hk as (H1 & H2 & H3 & H4 & H5 & H6 & H7 & _).
  rewrite !lookup_insert_ne by congruence.
  apply foldl_tags_other. intros Hin.
  apply list_elem_of_fmap in Hin as (p & -> & Hp).
  rewrite Forall_forall in Hok.
  destruct (peer_key _ _ (Hok _ Hp)) as [H|[H|H]]; congruence.
Qed.

(** *** [_set_base_span_tags] on any span *)

Lemma set_tag_at (l more : list span) (sp : span) (key : string) (val : tagval) (w : world) :
  set_tag (length l) key val (set_spans (l ++ sp :: more) w)
  = (Return tt, set_spans (l ++ add_tag key val sp :: more) w).
Proof. unfold set_tag, modify. simpl. rewrite alter_middle. reflexivity. Qed.

Lemma for_each_tags_at (peers : list (string * pyval)) (l more : list span) (sp : span)
    (w : world) :
  for_each peers (fun t => set_tag (length l) (fst t) (TagVal (snd t)))
    (set_spans (l ++ sp :: more) w)
  = (Return tt,
     set_spans (l ++ with_tags (foldl (fun t p => <[fst p := TagVal (snd p)]> t)
                                      (tags sp) peers) sp :: more) w).
Proof.
  revert sp. induction peers as [|p peers IH]; intros sp.
  - destruct sp. reflexivity.
  - simpl. unfold bind. rewrite set_tag_at. rewrite IH. reflexivity.
Qed.

Lemma _set_base_span_tags_at (self stmt : pyval) (l more : list span) (sp : span)
    (w : world) :
  _set_base_span_tags self (length l) stmt (set_spans (l ++ sp :: more) w) =
  match peers_for self w with
  | Return peers =>
      (Return tt,
       set_spans (l ++ with_tags (tag_all peers stmt (tags sp)) sp :: more) w)
  | Raise e => (Raise e, set_spans (l ++ sp :: more) w)
  end.
Proof.
  unfold _set_base_span_tags, peers_for.
  unfold bind at 1. unfold truth at 1, gets. cbn [heap set_spans].
  destruct (py_truth (heap w) self).
  - unfold bind at 1. unfold bind at 1.
    rewrite (_peer_tags_reads self w (set_spans (l ++ sp :: more) w) eq_refl).
    destruct (fst (_peer_tags self w)) as [peers|e]; [|reflexivity].
    rewrite for_each_tags_at.
    unfold bind. rewrite !set_tag_at. reflexivity.
  - unfold bind, ret. rewrite !set_tag_at. destruct sp. reflexivity.
Qed.

(** X3.  [_set_base_span_tags] on a span of the tracer.  If the peer lookup
    raises, the exception leaves and nothing is tagged.  Otherwise the span,
    and no other, is changed: it keeps its name and its finish count, gets
    [component], [db.type], [db.statement] and [span.kind], carries every
    peer tag of the originating object, and keeps every other tag it had. *)
Theorem base_tags_are_set (self stmt : pyval) (sid : nat) (w : world) (sp : span) :
  spans w !! sid = Some sp ->
  match peers_for self w with
  | Raise e => _set_base_span_tags self sid stmt w = (Raise e, w)
  | Return peers =>
      exists sp',
        _set_base_span_tags self sid stmt w = (Return tt, on_span (fun _ => sp') sid w) /\
        operation_name sp' = operation_name sp /\ parent sp' = parent sp /\
        finished sp' = finished sp /\
        base_tagged stmt sp' /\ carries peers sp' /\
        forall k, k ∉ ["component"; "db.type"; "db.statement"; "span.kind";
                       PEER_HOST_IPV4; PEER_HOSTNAME; PEER_PORT] ->
                  tags sp' !! k = tags sp !! k
  end.
Proof.
  intros Hsp.
  pose proof (take_drop_middle _ _ _ Hsp) as Hsplit.
  assert (Hlen : length (take sid (spans w)) = sid).
  { apply length_take_le. apply lookup_lt_Some in Hsp. lia. }
  revert Hsplit Hlen.
  generalize (take sid (spans w)) as l. generalize (drop (S sid) (spans w)) as more.
  intros more l Hsplit <-.
  assert (Hw : w = set_spans (l ++ sp :: more) w).
  { destruct w. simpl in Hsplit. subst. reflexivity. }
  assert (Hp : peers_for self w = peers_for self (set_spans (l ++ sp :: more) w)).
  { rewrite <- Hw. reflexivity. }
  destruct (peers_for self w) as [peers|e] eqn:Hpeers.
  - exists (with_tags (tag_all peers stmt (tags sp)) sp).
    split.
    + rewrite Hw at 1. rewrite _set_base_span_tags_at, Hpeers. f_equal.
      unfold on_span. rewrite <- Hsplit, alter_middle. reflexivity.
    + destruct (peers_for_shape _ _ _ Hpeers) as [Hnd Hok].
      split; [reflexivity|]. split; [reflexivity|]. split; [reflexivity|].
      split; [apply tag_all_base|]. split.
      * intros k v Hin. apply (tag_all_carries w); assumption.
      * intros k Hk. apply (tag_all_other w); assumption.
  - rewrite Hw at 1. rewrite _set_base_span_tags_at, Hpeers, <- Hw. reflexivity.
Qed.

(** ** The span a wrapper leaves *)

Lemma tagged_from_intro (self name st : pyval) (peers : list (string * pyval)) (w : world) :
  peers_for self w = Return peers ->
  tagged_from w (length (spans w)) (push_span (tagged_span name peers st w) w)
    (tagged_span name peers st w).
Proof.
  intros Hp. destruct (peers_for_shape _ _ _ Hp) as [Hnd Hok].
  exists name, peers, st. repeat split; assumption.
Qed.

Lemma prologue_execute_command_tagged (is_klass : bool) (args : list pyval)
    (w w1 : world) (sid : nat) :
  prologue_execute_command is_klass args w = (Return sid, w1) ->
  exists sp0, tagged_from w sid w1 sp0.
Proof.
  rewrite prologue_execute_command_eq. intros H.
  repeat case_match; simplify_eq; eexists; eapply tagged_from_intro; eassumption.
Qed.

Lemma prologue_execute_tagged (pipe : pyval) (w w1 : world) (sid : nat) :
  prologue_execute pipe w = (Return sid, w1) -> exists sp0, tagged_from w sid w1 sp0.
Proof.
  rewrite prologue_execute_eq. intros H.
  repeat case_match; simplify_eq; eexists; eapply tagged_from_intro; eassumption.
Qed.

Lemma prologue_parse_response_tagged (pubsub : pyval) (w w1 : world) (sid : nat) :
  prologue_parse_response pubsub w = (Return sid, w1) ->
  exists sp0, tagged_from w sid w1 sp0.
Proof.
  rewrite prologue_parse_response_eq. intros H.
  repeat case_match; simplify_eq; eexists; eapply tagged_from_intro; eassumption.
Qed.

Lemma tagged_span_clean (w : world) (name st : pyval) (peers : list (string * pyval)) :
  Forall (peer_tag_ok w) peers ->
  no_error_tags (tagged_span name peers st w).
Proof.
  intros Hok. unfold no_error_tags, tagged_span. cbn [tags].
  split; (rewrite (tag_all_other w _ _ _ _ Hok); [apply lookup_empty|]);
    unfold PEER_HOST_IPV4, PEER_HOSTNAME, PEER_PORT;
    rewrite !not_elem_of_cons; repeat split; try discriminate; apply not_elem_of_nil.
Qed.

Lemma prologue_immediate_tagged (pipe : pyval) (args : list pyval) (w w1 : world)
    (sid : nat) :
  prologue_immediate pipe args w = (Return sid, w1) ->
  exists sp0, tagged_from w sid w1 sp0.
Proof.
  rewrite prologue_immediate_eq. intros H.
  repeat case_match; simplify_eq; eexists; eapply tagged_from_intro; eassumption.
Qed.

(** Closing the span after the wrapped method raised. *)
Lemma closing_after (w w1 w2 : world) (sid : nat) (sp0 : span) (exc : exn) :
  tagged_from w sid w1 sp0 -> keeps (spans w1) w2 ->
  closed_after exc sid (on_span mark_finished sid (on_span (noted exc) sid w2)).
Proof.
  intros (name & peers & st & Hnd & Hok & -> & -> & ->) Hk.
  unfold closed_after. destruct (noted_cases exc) as [[He Hn] | [He Hn]]; rewrite He.
  - rewrite Hn. eapply closing_records_error; [|exact Hk].
    exists name, peers, st. split; reflexivity.
  - rewrite (on_span_same _ _ _ Hn). simpl in Hk.
    exists (mark_finished (tagged_span name peers st w)).
    split; [apply lookup_on_span, Hk|]. split; [|reflexivity].
    apply (tagged_span_clean w name st peers Hok).
Qed.

(** C4, as the code has it.  When the wrapped method raises [exc] after the
    wrapper has opened its span, the span is finished once and the wrappers
    of [execute_command], of the pipeline's [execute] and of the pubsub's
    [parse_response] raise [exc] themselves.  If [exc] is an instance of
    [Exception] the span carries [error = 'true'] and [error.object = exc],
    and the pipeline's [immediate_execute_command] returns [None] instead
    of raising.  If it is not, as for a [KeyboardInterrupt], the [except
    Exception] clause lets it pass: the span gets no error tag, and
    [immediate_execute_command] raises [exc] too. *)
Theorem raised_exception_is_tagged (m : method) (exc : exn) :
  (forall is_klass args kw w sid w1 w2,
      prologue_execute_command is_klass args w = (Return sid, w1) ->
      call m args kw w1 = (Raise exc, w2) ->
      exists w3, tracing_execute_command (call m) is_klass args kw w = (Raise exc, w3) /\
                 closed_after exc sid w3) /\
  (forall pipe args kw w b c cs sid w1 w2,
      bind_exact execute_signature args kw = Return b ->
      fst (get_command_stack pipe w) = Return (c :: cs) ->
      prologue_execute pipe w = (Return sid, w1) ->
      call m [] {[ "raise_on_error" := param 0 b ]} w1 = (Raise exc, w2) ->
      exists w3, tracing_execute pipe (call m) args kw w = (Raise exc, w3) /\
                 closed_after exc sid w3) /\
  (forall pubsub args kw w b sid w1 w2,
      bind_exact parse_response_signature args kw = Return b ->
      prologue_parse_response pubsub w = (Return sid, w1) ->
      call m [] (<[ "block" := param 0 b ]> {[ "timeout" := param 1 b ]}) w1
        = (Raise exc, w2) ->
      exists w3, tracing_parse_response pubsub (call m) args kw w = (Raise exc, w3) /\
                 closed_after exc sid w3) /\
  (forall pipe args kw w sid w1 w2,
      prologue_immediate pipe args w = (Return sid, w1) ->
      call m args kw w1 = (Raise exc, w2) ->
      exists w3, tracing_immediate_execute_command pipe (call m) args kw w
                   = (if is_Exception exc then Return PyNone else Raise exc, w3) /\
                 closed_after exc sid w3).
Proof.
  split; [|split; [|split]].
  - intros is_klass args kw w sid w1 w2 Hp Hc.
    rewrite tracing_execute_command_run, Hp, Hc.
    destruct (prologue_execute_command_tagged _ _ _ _ _ Hp) as [sp0 Ht].
    eexists; split; [reflexivity|].
    eapply closing_after; [exact Ht | eapply call_keeps, Hc].
  - intros pipe args kw w b c cs sid w1 w2 Hb Hs Hp Hc.
    rewrite (tracing_execute_run _ _ _ _ _ _ _ _ Hb Hs), Hp, Hc.
    destruct (prologue_execute_tagged _ _ _ _ Hp) as [sp0 Ht].
    eexists; split; [reflexivity|].
    eapply closing_after; [exact Ht | eapply call_keeps, Hc].
  - intros pubsub args kw w b sid w1 w2 Hb Hp Hc.
    rewrite (tracing_parse_response_run _ _ _ _ _ _ Hb), Hp, Hc.
    destruct (prologue_parse_response_tagged _ _ _ _ Hp) as [sp0 Ht].
    eexists; split; [reflexivity|].
    eapply closing_after; [exact Ht | eapply call_keeps, Hc].
  - intros pipe args kw w sid w1 w2 Hp Hc.
    rewrite tracing_immediate_execute_command_run, Hp, Hc.
    destruct (prologue_immediate_tagged _ _ _ _ _ Hp) as [sp0 Ht].
    eexists; split; [reflexivity|].
    eapply closing_after; [exact Ht | eapply call_keeps, Hc].
Qed.

(** X4.  When the wrapped method returns normally, the wrapper of
    [execute_command], of the pipeline's [execute] with a batch queued, and
    of the pubsub's [parse_response] returns the same value, and the span it
    opened is finished once and carries no [error] and no [error.object]
    tag. *)
Theorem normal_return_leaves_clean_span (m : method) (v : pyval) :
  (forall is_klass args kw w w',
      tracing_execute_command (call m) is_klass args kw w = (Return v, w') ->
      exists w1 w2 sp,
        call m args kw w1 = (Return v, w2) /\
        spans w' !! length (spans w) = Some sp /\ finished sp = 1 /\ no_error_tags sp) /\
  (forall pipe args kw w w' b c cs,
      bind_exact execute_signature args kw = Return b ->
      fst (get_command_stack pipe w) = Return (c :: cs) ->
      tracing_execute pipe (call m) args kw w = (Return v, w') ->
      exists w1 w2 sp,
        call m [] {[ "raise_on_error" := param 0 b ]} w1 = (Return v, w2) /\
        spans w' !! length (spans w) = Some sp /\ finished sp = 1 /\ no_error_tags sp) /\
  (forall pubsub args kw w w' b,
      bind_exact parse_response_signature args kw = Return b ->
      tracing_parse_response pubsub (call m) args kw w = (Return v, w') ->
      exists w1 w2 sp,
        call m [] (<[ "block" := param 0 b ]> {[ "timeout" := param 1 b ]}) w1
          = (Return v, w2) /\
        spans w' !! length (spans w) = Some sp /\ finished sp = 1 /\ no_error_tags sp).
Proof.
  assert (Hclose : forall w sid w1 sp0 w2 (r : outcome pyval) a k,
             tagged_from w sid w1 sp0 -> call m a k w1 = (r, w2) ->
             spans (on_span mark_finished sid w2) !! length (spans w)
               = Some (mark_finished sp0) /\
             finished (mark_finished sp0) = 1 /\ no_error_tags (mark_finished sp0)).
  { intros w sid w1 sp0 w2 r a k (name & peers & st & Hnd & Hok & -> & -> & ->) Hc.
    apply call_keeps in Hc. simpl in Hc.
    split; [apply lookup_on_span, Hc|]. split; [reflexivity|].
    apply (tagged_span_clean w name st peers Hok). }
  split; [|split].
  - intros is_klass args kw w w'. rewrite tracing_execute_command_run.
    destruct (prologue_execute_command is_klass args w) as [[sid|e] w1] eqn:Hp;
      [|discriminate].
    destruct (call m args kw w1) as [[v'|e] w2] eqn:Hc; [|discriminate].
    intros [= <- <-]. destruct (prologue_execute_command_tagged _ _ _ _ _ Hp) as [sp0 Ht].
    exists w1, w2, (mark_finished sp0). split; [exact Hc|].
    eapply Hclose; eassumption.
  - intros pipe args kw w w' b c cs Hb Hs.
    rewrite (tracing_execute_run _ _ _ _ _ _ _ _ Hb Hs).
    destruct (prologue_execute pipe w) as [[sid|e] w1] eqn:Hp; [|discriminate].
    destruct (call m [] {[ "raise_on_error" := param 0 b ]} w1) as [[v'|e] w2] eqn:Hc;
      [|discriminate].
    intros [= <- <-]. destruct (prologue_execute_tagged _ _ _ _ Hp) as [sp0 Ht].
    exists w1, w2, (mark_finished sp0). split; [exact Hc|].
    eapply Hclose; eassumption.
  - intros pubsub args kw w w' b Hb.
    rewrite (tracing_parse_response_run _ _ _ _ _ _ Hb).
    destruct (prologue_parse_response pubsub w) as [[sid|e] w1] eqn:Hp; [|discriminate].
    destruct (call m [] (<[ "block" := param 0 b ]> {[ "timeout" := param 1 b ]}) w1)
      as [[v'|e] w2] eqn:Hc; [|discriminate].
    intros [= <- <-]. destruct (prologue_parse_response_tagged _ _ _ _ Hp) as [sp0 Ht].
    exists w1, w2, (mark_finished sp0). split; [exact Hc|].
    eapply Hclose; eassumption.
Qed.

(** How the span handed over looks once the wrapper has closed it, with or
    without the error tags. *)
Lemma closed_span (w : world) (name st : pyval) (peers : list (string * pyval))
    (g : span -> span) :
  NoDup (map fst peers) -> Forall (peer_tag_ok w) peers ->
  g = id \/ (exists e, g = with_error e) ->
  let sp := mark_finished (g (tagged_span name peers st w)) in
  operation_name sp = name /\ base_tagged st sp /\ carries peers sp /\ finished sp = 1.
Proof.
  intros Hnd Hok Hg sp. subst sp.
  destruct Hg as [-> | [e ->]].
  - split; [reflexivity|]. split; [apply tag_all_base|].
    split; [|reflexivity]. intros k v Hin. apply (tag_all_carries w); assumption.
  - split; [reflexivity|]. split; [|split; [|reflexivity]].
    + unfold base_tagged. simpl. rewrite !lookup_insert_ne by discriminate.
      apply tag_all_base.
    + intros k v Hin.
      destruct (peer_key_not_base _ _ _ _ Hok Hin) as (_ & _ & _ & _ & H5 & H6).
      simpl. rewrite !lookup_insert_ne by congruence.
      apply (tag_all_carries w); assumption.
Qed.

Lemma closing_silent (f : M pyval) (w : world) (sp0 : span)
    (name st : pyval) (peers : list (string * pyval)) :
  silent f ->
  NoDup (map fst peers) -> Forall (peer_tag_ok w) peers ->
  sp0 = tagged_span name peers st w ->
  exists sp,
    spans (snd (match f (push_span sp0 w) with
                | (Return v, w2) => (Return v, on_span mark_finished (length (spans w)) w2)
                | (Raise e, w2) =>
                    (Raise e, on_span mark_finished (length (spans w))
                                (on_span (noted e) (length (spans w)) w2))
                end)) = spans w ++ [sp] /\
    operation_name sp = name /\ base_tagged st sp /\ carries peers sp /\ finished sp = 1.
Proof.
  intros Hf Hnd Hok ->.
  pose proof (Hf (push_span (tagged_span name peers st w) w)) as Hs.
  destruct (f (push_span (tagged_span name peers st w) w)) as [[v|e] w2];
    simpl in Hs; simpl snd.
  - exists (mark_finished (id (tagged_span name peers st w))).
    split; [apply spans_on_span_last, Hs|].
    apply (closed_span w name st peers id Hnd Hok). left. reflexivity.
  - exists (mark_finished (noted e (tagged_span name peers st w))).
    split; [apply spans_on_span_last, spans_on_span_last, Hs|].
    apply (closed_span w name st peers (noted e) Hnd Hok), noted_shape.
Qed.

(** X5.  A read on a traced pubsub, [parse_response], when the bookkeeping
    raises nothing and the original starts no span: the original is called
    with [block] and [timeout] by keyword ([True] and [0] when left out), its
    outcome is the wrapper's, and exactly one span is left, named
    [prefix/SUB] or [SUB], with an empty statement, the peer tags of the
    pubsub, finished once. *)
Theorem pubsub_receive_span (pubsub : pyval) (f : list pyval -> kwargs -> M pyval)
    (args : list pyval) (kw : kwargs) (w : world) (b : list pyval)
    (peers : list (string * pyval)) :
  (forall a k, silent (f a k)) ->
  bind_exact parse_response_signature args kw = Return b ->
  displayable (g_trace_prefix w) ->
  peers_for pubsub w = Return peers ->
  let name := expected_name (g_trace_prefix w) (PyStr "SUB") in
  let traced := tracing_parse_response pubsub f args kw w in
  fst traced = fst (f [] (<[ "block" := param 0 b ]> {[ "timeout" := param 1 b ]})
                      (push_span (tagged_span name peers (PyStr "") w) w)) /\
  exists sp, spans (snd traced) = spans w ++ [sp] /\
             operation_name sp = name /\ base_tagged (PyStr "") sp /\
             carries peers sp /\ finished sp = 1.
Proof.
  intros Hf Hb Hprefix Hpeers name traced. subst name traced.
  destruct (peers_for_shape _ _ _ Hpeers) as [Hnd Hok].
  rewrite (tracing_parse_response_run _ _ _ _ _ _ Hb), prologue_parse_response_eq.
  rewrite (named_expected w (PyStr "SUB") Hprefix eq_refl), Hpeers.
  split.
  - destruct (f [] _ _) as [[v|e] w2]; reflexivity.
  - eapply (closing_silent (f [] _)); [apply Hf | exact Hnd | exact Hok | reflexivity].
Qed.

Lemma closed_span_no_peers (w : world) (name st : pyval) (g : span -> span) :
  g = id \/ (exists e, g = with_error e) ->
  no_peer_tags (mark_finished (g (tagged_span name [] st w))).
Proof.
  pose proof (tagged_without_peers name st w) as Hno.
  intros [-> | [e ->]]; [exact Hno|].
  unfold no_peer_tags, PEER_HOST_IPV4, PEER_HOSTNAME, PEER_PORT in *. simpl in *.
  rewrite !(lookup_insert_ne _ "error.object"), !(lookup_insert_ne _ "error")
    by discriminate.
  exact Hno.
Qed.

(** X6.  A command issued through a traced pipeline's
    [immediate_execute_command], when the bookkeeping raises nothing and the
    original starts no span: the original runs with the arguments of the
    call, with the effects it has on the objects and the store; the call
    gives [None] when the original returns and when it raises an instance of
    [Exception], and raises what the original raises otherwise; in every
    case exactly one span is left, named [prefix/command] or [command],
    with the statement of the arguments, finished once.  The span has the
    peer tags of the pipeline when the pipeline is true, and none when it is
    false, as a pipeline of redis-py is while nothing is queued. *)
Theorem immediate_command_span (pipe : pyval) (f : list pyval -> kwargs -> M pyval)
    (args : list pyval) (kw : kwargs) (w : world) (command : pyval) (rest : list pyval)
    (peers : list (string * pyval)) :
  (forall a k, silent (f a k)) ->
  args = command :: rest ->
  Forall displayable args ->
  displayable (g_trace_prefix w) ->
  peers_for pipe w = Return peers ->
  let name := expected_name (g_trace_prefix w) command in
  let st := PyUnicode (statement_text args) in
  let traced := tracing_immediate_execute_command pipe f args kw w in
  let inner := f args kw (push_span (tagged_span name peers st w) w) in
  fst traced = match fst inner with
               | Return _ => Return PyNone
               | Raise e => if is_Exception e then Return PyNone else Raise e
               end /\
  heap (snd traced) = heap (snd inner) /\ lib_state (snd traced) = lib_state (snd inner) /\
  exists sp, spans (snd traced) = spans w ++ [sp] /\
             operation_name sp = name /\ base_tagged st sp /\
             carries peers sp /\ finished sp = 1 /\
             (py_truth (heap w) pipe = false -> no_peer_tags sp).
Proof.
  intros Hf -> Hall Hprefix Hpeers name st traced inner. subst name st traced inner.
  destruct (peers_for_shape _ _ _ Hpeers) as [Hnd Hok].
  destruct (_normalize_stmt_text _ Hall) as (st & Hst & _ & Hne).
  rewrite <- (Hne ltac:(discriminate)).
  rewrite tracing_immediate_execute_command_run, prologue_immediate_eq.
  rewrite (named_expected w command Hprefix (Forall_inv Hall)), Hst, Hpeers.
  set (name := expected_name (g_trace_prefix w) command).
  assert (Hclosed : forall g, g = id \/ (exists e, g = with_error e) ->
            let sp := mark_finished (g (tagged_span name peers st w)) in
            operation_name sp = name /\ base_tagged st sp /\ carries peers sp /\
            finished sp = 1 /\ (py_truth (heap w) pipe = false -> no_peer_tags sp)).
  { intros g Hg sp.
    destruct (closed_span w name st peers g Hnd Hok Hg) as (H1 & H2 & H3 & H4).
    repeat (split; [assumption|]). intros Hfalse. subst sp.
    unfold peers_for in Hpeers. rewrite Hfalse in Hpeers. injection Hpeers as <-.
    apply closed_span_no_peers, Hg. }
  set (sp0 := tagged_span name peers st w) in *.
  pose proof (Hf (command :: rest) kw (push_span sp0 w)) as Hs.
  destruct (f (command :: rest) kw (push_span sp0 w)) as [[v|e] w2]; simpl in Hs;
    cbn [fst snd].
  - split; [reflexivity|]. split; [reflexivity|]. split; [reflexivity|].
    exists (mark_finished (id sp0)).
    split; [apply spans_on_span_last, Hs|].
    apply (Hclosed id). left. reflexivity.
  - split; [reflexivity|]. split; [reflexivity|]. split; [reflexivity|].
    exists (mark_finished (noted e sp0)).
    split; [apply spans_on_span_last, spans_on_span_last, Hs|].
    apply (Hclosed (noted e)), noted_shape.
Qed.

(** X7.  A failure of the bookkeeping after the span was started: when the
    name of the span is derived but the statement cannot be normalized, or
    the peer lookup raises, the wrapper of [execute_command] raises that
    exception, the wrapped method is not called, and the span just started
    is left behind with no tag and never finished. *)
Theorem failed_bookkeeping_leaves_open_span (f : list pyval -> kwargs -> M pyval)
    (is_klass : bool) (args : list pyval) (kw : kwargs) (w : world)
    (self command name : pyval) (rest : list pyval) (e : exn) :
  (if is_klass then args else PyNone :: args) = self :: command :: rest ->
  named w command = Return name ->
  _normalize_stmt (command :: rest) = Raise e \/
  ((exists st, _normalize_stmt (command :: rest) = Return st) /\
   peers_for self w = Raise e) ->
  exists sp,
    tracing_execute_command f is_klass args kw w = (Raise e, push_span sp w) /\
    operation_name sp = name /\ tags sp = ∅ /\ finished sp = 0.
Proof.
  intros Hargs Hname Hfail. exists (fresh_span name w).
  split; [|repeat split].
  rewrite tracing_execute_command_run, prologue_execute_command_eq, Hargs, Hname.
  destruct Hfail as [-> | [[st ->] ->]]; reflexivity.
Qed.

(** X8.  Whatever is called, and however the call ends, the spans that were
    in the tracer before are there after it, unchanged and in place: a call
    only adds spans after them. *)
Theorem earlier_spans_are_kept (obj : pyval) (name : string) (args : list pyval)
    (kw : kwargs) (w : world) :
  exists more, spans (snd (invoke obj name args kw w)) = spans w ++ more.
Proof.
  unfold invoke, bind.
  pose proof (getattr_method_silent obj name w) as Hg.
  destruct (getattr_method obj name w) as [[m|e] w1]; simpl in Hg.
  - rewrite <- Hg. apply (call_framed m (spans w1) args kw w1 (keeps_refl w1)).
  - exists []. simpl. rewrite app_nil_r. exact Hg.
Qed.

(** ** Activation *)

Lemma getattr_missing (r : ref) (name : string) (w : world) :
  heap w !! r = None -> getattr_method (PyRef r) name w = (Raise AttributeError, w).
Proof.
  intros H. unfold getattr_method, instance, bind, gets, raise. simpl. rewrite H.
  reflexivity.
Qed.

Lemma getattr_no_object (obj : pyval) (name : string) (w : world) :
  (forall cls, obj <> PyClass cls) ->
  (forall r, obj = PyRef r -> heap w !! r = None) ->
  getattr_method obj name w = (Raise AttributeError, w).
Proof.
  intros Hc Hr. destruct obj; try reflexivity.
  - exfalso. exact (Hc _ eq_refl).
  - apply getattr_missing, Hr. reflexivity.
Qed.

Lemma _patch_client_no_object (obj : pyval) (w : world) :
  getattr_method obj "execute_command" w = (Raise AttributeError, w) ->
  _patch_client obj w = (Raise AttributeError, w).
Proof.
  intros H. unfold _patch_client, _patch_obj_execute_command.
  unfold bind at 1. unfold bind at 1. rewrite H. reflexivity.
Qed.

Lemma _patch_pipe_execute_no_object (obj : pyval) (w : world) :
  getattr_method obj "execute" w = (Raise AttributeError, w) ->
  _patch_pipe_execute obj w = (Raise AttributeError, w).
Proof.
  intros H. unfold _patch_pipe_execute. unfold bind at 1. rewrite H. reflexivity.
Qed.

Lemma _patch_pubsub_no_object (obj : pyval) (w : world) :
  getattr_method obj "parse_response" w = (Raise AttributeError, w) ->
  _patch_pubsub obj w = (Raise AttributeError, w).
Proof.
  intros H. unfold _patch_pubsub, _patch_pubsub_parse_response.
  unfold bind at 1. unfold bind at 1. rewrite H. reflexivity.
Qed.

Lemma same_data_assign (name : string) (m : method) (o o' : object) :
  same_data o o' -> same_data o (assign name m o').
Proof. intros H. exact H. Qed.

Lemma same_data_refl (o : object) : same_data o o.
Proof. repeat split. Qed.

Lemma local_to_store (r : ref) (c : M unit) :
  (forall w o, heap w !! r = Some o ->
               exists o', same_data o o' /\ c w = (Return tt, store_object r o' w)) ->
  (forall w, heap w !! r = None -> c w = (Raise AttributeError, w)) ->
  local_to r c.
Proof.
  intros Hsome Hnone w. destruct (heap w !! r) as [o|] eqn:Ho.
  - destruct (Hsome w o Ho) as (o' & Hd & ->). simpl.
    rewrite lookup_insert_eq. repeat split; try apply Hd.
    intros r' Hr. apply lookup_insert_ne. congruence.
  - rewrite (Hnone w Ho). simpl. rewrite Ho. repeat split.
Qed.

(** X9.  Marking one client, pipeline or pubsub changes nothing but the
    methods of that object: the prefix and the flag, the classes, every other
    object, the tracer and the store are as before, and the object keeps its
    class and its connection data. *)
Theorem instance_activation_is_local (r : ref) :
  local_to r (trace_client (PyRef r)) /\
  local_to r (trace_pipeline (PyRef r)) /\
  local_to r (trace_pubsub (PyRef r)).
Proof.
  split; [|split]; apply local_to_store.
  - intros w o Ho. exists (traced_client w r o).
    split; [repeat split | apply _patch_client_eq, Ho].
  - intros w Ho. apply _patch_client_no_object, getattr_missing, Ho.
  - intros w o Ho. exists (traced_pipe w r o).
    split; [repeat split | apply _patch_pipe_execute_eq, Ho].
  - intros w Ho. apply _patch_pipe_execute_no_object, getattr_missing, Ho.
  - intros w o Ho. exists (traced_pubsub w r o).
    split; [repeat split | apply _patch_pubsub_eq, Ho].
  - intros w Ho. apply _patch_pubsub_no_object, getattr_missing, Ho.
Qed.

(** X10.  Marking a value that is neither a live object nor a class, such
    as [None], raises [AttributeError] and changes nothing. *)
Theorem activation_needs_an_object (obj : pyval) (w : world) :
  (forall cls, obj <> PyClass cls) ->
  (forall r, obj = PyRef r -> heap w !! r = None) ->
  trace_client obj w = (Raise AttributeError, w) /\
  trace_pipeline obj w = (Raise AttributeError, w) /\
  trace_pubsub obj w = (Raise AttributeError, w).
Proof.
  intros Hc Hr. split; [|split].
  - apply _patch_client_no_object, getattr_no_object; assumption.
  - apply _patch_pipe_execute_no_object, getattr_no_object; assumption.
  - apply _patch_pubsub_no_object, getattr_no_object; assumption.
Qed.

Ltac slots :=
  repeat first [ rewrite slot_assign_same
               | rewrite slot_assign_other by (first [discriminate | assumption]) ].


(** *** Activation for all clients *)

(** Assigning [name] on the class [c], seen from a class [cls]. *)
Lemma inherited_assign (assigned : gmap string (gmap string method)) (c name : string)
    (m : method) (l : list string) (name' : string) :
  inherited (<[c := <[name := m]> (default ∅ (assigned !! c))]> assigned) l name'
  = if bool_decide (name = name') && arrives c assigned l name' then Some m
    else inherited assigned l name'.
Proof.
  induction l as [|c' l IH]; [rewrite andb_false_r; reflexivity|].
  cbn [inherited arrives]. destruct (String.eqb_spec c' c) as [->|Hne].
  - rewrite lookup_insert_eq. cbn [mbind option_bind]. rewrite lookup_insert.
    destruct (decide (name = name')) as [Heq|Hneq].
    + rewrite (bool_decide_eq_true_2 _ Heq). reflexivity.
    + rewrite (bool_decide_eq_false_2 _ Hneq) in *. cbn [andb] in *. rewrite IH.
      destruct (assigned !! c); reflexivity.
  - rewrite lookup_insert_ne by congruence.
    destruct (assigned !! c' ≫= (.!! name')) as [m0|];
      [rewrite andb_false_r; reflexivity|].
    destruct (defines c' name'); [rewrite andb_false_r; reflexivity | exact IH].
Qed.

Lemma arrives_insert (assigned : gmap string (gmap string method)) (c : string)
    (d : gmap string method) (l : list string) (name : string) :
  arrives c (<[c := d]> assigned) l name = arrives c assigned l name.
Proof.
  induction l as [|c' l IH]; [reflexivity|].
  cbn [arrives]. destruct (String.eqb_spec c' c) as [->|Hne]; [reflexivity|].
  rewrite lookup_insert_ne by congruence. rewrite IH. reflexivity.
Qed.

Lemma class_function_assign (w : world) (c name : string) (m : method)
    (cls name' : string) :
  class_function
    (set_classes (<[c := <[name := m]> (default ∅ (classes w !! c))]> (classes w)) w)
    cls name'
  = if bool_decide (name = name') && arrives c (classes w) (mro cls) name' then m
    else class_function w cls name'.
Proof.
  unfold class_function. cbn [classes set_classes]. rewrite inherited_assign.
  destruct (bool_decide (name = name') && arrives c (classes w) (mro cls) name');
    reflexivity.
Qed.

Lemma from_StrictRedis_itself (w : world) (name : string) :
  from_StrictRedis w "redis.client.StrictRedis" name = true.
Proof. reflexivity. Qed.

Lemma _patch_redis_classes_run (w : world) :
  exists w',
    _patch_redis_classes w = (Return tt, w') /\
    g_trace_all_classes w' = g_trace_all_classes w /\
    g_trace_prefix w' = g_trace_prefix w /\
    heap w' = heap w /\ spans w' = spans w /\ current_span w' = current_span w /\
    lib_state w' = lib_state w /\
    (forall cls, cls <> "redis.client.StrictRedis" -> classes w' !! cls = classes w !! cls) /\
    forall cls name,
      class_function w' cls name
      = if from_StrictRedis w cls name && bool_decide (name ∈ patched_names)
        then rewrap class_wrappers name
               (class_function w "redis.client.StrictRedis" name)
        else class_function w cls name.
Proof.
  unfold _patch_redis_classes, _patch_obj_execute_command, StrictRedis, bind.
  repeat (progress (rewrite ?getattr_method_class, ?setattr_method_class; cbv beta iota)).
  eexists. split; [reflexivity|]. do 6 (split; [reflexivity|]). split.
  - intros cls Hc. cbn [classes set_classes]. rewrite !lookup_insert_ne by congruence.
    reflexivity.
  - intros cls name. unfold from_StrictRedis.
    rewrite !class_function_assign. cbn [classes set_classes].
    rewrite !arrives_insert.
    rewrite (bool_decide_eq_false_2 ("pipeline" = "pubsub")) by discriminate.
    rewrite (bool_decide_eq_false_2 ("execute_command" = "pubsub")) by discriminate.
    rewrite (bool_decide_eq_false_2 ("execute_command" = "pipeline")) by discriminate.
    cbn [andb].
    destruct (arrives "redis.client.StrictRedis" (classes w) (mro cls) name);
      [|rewrite !andb_false_r; reflexivity].
    rewrite !andb_true_r. cbn [andb]. unfold class_wrappers, rewrap, patched_names.
    destruct (decide ("execute_command" = name)) as [<-|H1].
    { rewrite (bool_decide_eq_false_2 ("pubsub" = "execute_command")) by discriminate.
      rewrite (bool_decide_eq_false_2 ("pipeline" = "execute_command")) by discriminate.
      rewrite (bool_decide_eq_true_2 ("execute_command" = "execute_command")) by reflexivity.
      reflexivity. }
    rewrite (bool_decide_eq_false_2 _ H1).
    destruct (decide ("pipeline" = name)) as [<-|H2].
    { rewrite (bool_decide_eq_false_2 ("pubsub" = "pipeline")) by discriminate.
      rewrite (bool_decide_eq_true_2 ("pipeline" = "pipeline")) by reflexivity.
      reflexivity. }
    rewrite (bool_decide_eq_false_2 _ H2).
    destruct (decide ("pubsub" = name)) as [<-|H3].
    { rewrite (bool_decide_eq_true_2 ("pubsub" = "pubsub")) by reflexivity.
      reflexivity. }
    rewrite (bool_decide_eq_false_2 _ H3).
    rewrite bool_decide_eq_false_2; [reflexivity|].
    rewrite !not_elem_of_cons. repeat split; try congruence. apply not_elem_of_nil.
Qed.

Lemma setup_tracing_run (flag prefix : pyval) (w : world) :
  setup_tracing flag prefix w
  = if py_truth (heap w) flag then _patch_redis_classes (set_globals flag prefix w)
    else (Return tt, set_globals flag prefix w).
Proof.
  unfold setup_tracing, bind, modify, gets, truth, ret. simpl.
  destruct (py_truth (heap w) flag); reflexivity.
Qed.

Lemma setup_tracing_effect (flag prefix : pyval) (w : world) :
  exists w',
    setup_tracing flag prefix w = (Return tt, w') /\
    g_trace_all_classes w' = flag /\ g_trace_prefix w' = prefix /\
    heap w' = heap w /\ spans w' = spans w /\ current_span w' = current_span w /\
    lib_state w' = lib_state w /\
    (forall cls, cls <> "redis.client.StrictRedis" -> classes w' !! cls = classes w !! cls) /\
    (py_truth (heap w) flag = false -> classes w' = classes w) /\
    forall cls name,
      class_function w' cls name
      = if py_truth (heap w) flag && from_StrictRedis w cls name
           && bool_decide (name ∈ patched_names)
        then rewrap class_wrappers name
               (class_function w "redis.client.StrictRedis" name)
        else class_function w cls name.
Proof.
  rewrite setup_tracing_run. destruct (py_truth (heap w) flag).
  - destruct (_patch_redis_classes_run (set_globals flag prefix w))
      as (w' & Hrun & H1 & H2 & H3 & H4 & H5 & H6 & H7 & H8).
    exists w'. split; [exact Hrun|]. do 6 (split; [assumption|]).
    split; [exact H7|]. split; [discriminate | exact H8].
  - eexists. split; [reflexivity|]. repeat split.
Qed.

(** X12.  [setup_tracing] never raises; it records the flag and the
    prefix and leaves every object, the tracer and the store alone.  When
    the flag is false no class is touched.  When it is true, nothing is
    assigned on another class than [StrictRedis], and on [StrictRedis]
    exactly [execute_command], [pipeline] and [pubsub] are replaced by the
    wrappers around what the class had.  A class that takes one of these
    three names from [StrictRedis], as the subclasses [Redis],
    [StrictPipeline] and [Pipeline] do where they have no method of their
    own, sees the wrapper under that name too; every other attribute of
    every class is as before. *)
Theorem class_activation (flag prefix : pyval) (w : world) :
  let w' := snd (setup_tracing flag prefix w) in
  fst (setup_tracing flag prefix w) = Return tt /\
  g_trace_all_classes w' = flag /\ g_trace_prefix w' = prefix /\
  heap w' = heap w /\ spans w' = spans w /\ current_span w' = current_span w /\
  lib_state w' = lib_state w /\
  (forall cls, cls <> "redis.client.StrictRedis" -> classes w' !! cls = classes w !! cls) /\
  (py_truth (heap w) flag = false -> classes w' = classes w) /\
  forall cls name,
    class_function w' cls name
    = if py_truth (heap w) flag && from_StrictRedis w cls name
         && bool_decide (name ∈ patched_names)
      then rewrap class_wrappers name (class_function w "redis.client.StrictRedis" name)
      else class_function w cls name.
Proof.
  destruct (setup_tracing_effect flag prefix w) as (w' & -> & H). exact (conj eq_refl H).
Qed.

(** X13.  How far the activation for all clients reaches on an object
    that exists already.  A name the object has of its own, or that its
    class does not take from [StrictRedis], looks up to what it did before,
    and a call runs what it ran before: so [execute],
    [immediate_execute_command], [execute_command] and [parse_response] of
    a pipeline, which [BasePipeline] defines, and every method of a pubsub.
    But [pipeline] and [pubsub] on a pipeline come from [StrictRedis]: after
    the activation they are the class-level wrappers. *)
Theorem existing_pipeline_stays_untraced (flag prefix : pyval) (w : world) (r : ref)
    (o : object) (name : string) (args : list pyval) (kw : kwargs) :
  heap w !! r = Some o ->
  let w' := snd (setup_tracing flag prefix w) in
  (is_Some (obj_dict o !! name) \/ from_StrictRedis w (obj_class o) name = false \/
   name ∉ patched_names ->
   getattr_method (PyRef r) name w' = (fst (getattr_method (PyRef r) name w), w') /\
   invoke (PyRef r) name args kw w' = call (slot w r o name) args kw w') /\
  (py_truth (heap w) flag = true -> obj_dict o !! name = None ->
   from_StrictRedis w (obj_class o) name = true -> name ∈ patched_names ->
   getattr_method (PyRef r) name w'
   = (Return (Bound r (rewrap class_wrappers name
                         (class_function w "redis.client.StrictRedis" name))), w')).
Proof.
  intros Ho.
  destruct (setup_tracing_effect flag prefix w)
    as (w' & -> & _ & _ & Hh & _ & _ & _ & _ & _ & Hf).
  cbn [snd]. cbv zeta. rewrite <- Hh in Ho. split.
  - intros Hcase.
    assert (Hg : getattr_method (PyRef r) name w' = (Return (slot w r o name), w')).
    { rewrite (getattr_first _ _ _ _ Ho). unfold slot.
      destruct (obj_dict o !! name) as [m|] eqn:Hd; [reflexivity|].
      rewrite Hf. destruct Hcase as [[m Hm] | [Hfrom | Hname]]; [discriminate| |].
      - rewrite Hfrom, andb_false_r. reflexivity.
      - rewrite (bool_decide_eq_false_2 _ Hname), andb_false_r. reflexivity. }
    split.
    + rewrite Hg. rewrite Hh in Ho. rewrite (getattr_first _ _ _ _ Ho). reflexivity.
    + unfold invoke, bind. rewrite Hg. reflexivity.
  - intros Hflag Hd Hfrom Hname. rewrite (getattr_first _ _ _ _ Ho). unfold slot.
    rewrite Hd, Hf, Hflag, Hfrom, (bool_decide_eq_true_2 _ Hname). reflexivity.
Qed.

(** ** The factories of a traced client *)

(** X14.  [pipeline()] on a traced client, and on any client once the
    class is patched: the original factory is called with [transaction] and
    [shard_hint] by position ([True] and [None] when left out), after [self]
    for the class; the pipeline it gives is handed back, and its [execute]
    and [immediate_execute_command] are now the wrappers.  What the original
    raises is raised, with nothing else done. *)
Theorem traced_pipeline_factory (f : list pyval -> kwargs -> M pyval)
    (args : list pyval) (kw : kwargs) (w : world) (b : list pyval) :
  (bind_exact pipeline_signature args kw = Return b ->
   (forall p o w1,
       f [param 0 b; param 1 b] ∅ w = (Return (PyRef p), w1) -> heap w1 !! p = Some o ->
       _patch_client_tracing_pipeline f args kw w
       = (Return (PyRef p), store_object p (traced_pipe w1 p o) w1)) /\
   (forall e w1,
       f [param 0 b; param 1 b] ∅ w = (Raise e, w1) ->
       _patch_client_tracing_pipeline f args kw w = (Raise e, w1))) /\
  (bind_exact klass_pipeline_signature args kw = Return b ->
   (forall p o w1,
       f [param 0 b; param 1 b; param 2 b] ∅ w = (Return (PyRef p), w1) ->
       heap w1 !! p = Some o ->
       _patch_redis_classes_tracing_pipeline f args kw w
       = (Return (PyRef p), store_object p (traced_pipe w1 p o) w1)) /\
   (forall e w1,
       f [param 0 b; param 1 b; param 2 b] ∅ w = (Raise e, w1) ->
       _patch_redis_classes_tracing_pipeline f args kw w = (Raise e, w1))).
Proof.
  unfold klass_pipeline_signature, pipeline_signature. split; intros Hb; split.
  - intros p o w1 Hf Ho. unfold _patch_client_tracing_pipeline.
    unfold bind at 1. unfold lift. rewrite Hb.
    unfold bind at 1. rewrite Hf.
    unfold bind at 1. rewrite (_patch_pipe_execute_eq _ _ _ Ho). reflexivity.
  - intros e w1 Hf. unfold _patch_client_tracing_pipeline.
    unfold bind at 1. unfold lift. rewrite Hb.
    unfold bind at 1. rewrite Hf. reflexivity.
  - intros p o w1 Hf Ho. unfold _patch_redis_classes_tracing_pipeline.
    unfold bind at 1. unfold lift. rewrite Hb.
    unfold bind at 1. rewrite Hf.
    unfold bind at 1. rewrite (_patch_pipe_execute_eq _ _ _ Ho). reflexivity.
  - intros e w1 Hf. unfold _patch_redis_classes_tracing_pipeline.
    unfold bind at 1. unfold lift. rewrite Hb.
    unfold bind at 1. rewrite Hf. reflexivity.
Qed.

(** X15.  [pubsub()] on a traced client takes keywords only and hands them
    to the original factory as they are; once the class is patched it takes
    [self] and the keywords.  The pubsub the original gives is handed back,
    and its [parse_response] and [execute_command] are now the wrappers. *)
Theorem traced_pubsub_factory (f : list pyval -> kwargs -> M pyval)
    (kw : kwargs) (w w1 : world) (p : ref) (o : object) :
  heap w1 !! p = Some o ->
  (f [] kw w = (Return (PyRef p), w1) ->
   _patch_client_tracing_pubsub f [] kw w
   = (Return (PyRef p), store_object p (traced_pubsub w1 p o) w1)) /\
  (forall self, kw !! "self" = None ->
                f [self] kw w = (Return (PyRef p), w1) ->
                _patch_redis_classes_tracing_pubsub f [self] kw w
                = (Return (PyRef p), store_object p (traced_pubsub w1 p o) w1)) /\
  (forall a args, _patch_client_tracing_pubsub f (a :: args) kw w = (Raise TypeError, w)).
Proof.
  intros Ho. split; [|split].
  - intros Hf. unfold _patch_client_tracing_pubsub.
    unfold bind at 1. unfold lift. cbn [bind_params snd].
    unfold bind at 1. rewrite Hf.
    unfold bind at 1. rewrite (_patch_pubsub_eq _ _ _ Ho). reflexivity.
  - intros self Hself Hf. unfold _patch_redis_classes_tracing_pubsub.
    unfold bind at 1. unfold lift. cbn [bind_params]. rewrite Hself.
    cbn [obind fst snd param nth].
    unfold bind at 1. rewrite Hf.
    unfold bind at 1. rewrite (_patch_pubsub_eq _ _ _ Ho). reflexivity.
  - intros a args. reflexivity.
Qed.

(** ** Marking twice *)

Lemma execute_command_closed (f : list pyval -> kwargs -> M pyval) (is_klass : bool)
    (args : list pyval) (kw : kwargs) (w : world) (self command name st : pyval)
    (rest : list pyval) (peers : list (string * pyval)) :
  (forall a k, silent (f a k)) ->
  (if is_klass then args else PyNone :: args) = self :: command :: rest ->
  named w command = Return name ->
  _normalize_stmt (command :: rest) = Return st ->
  peers_for self w = Return peers ->
  exists g, (g = id \/ exists e, g = with_error e) /\
            spans (snd (tracing_execute_command f is_klass args kw w))
            = spans w ++ [mark_finished (g (tagged_span name peers st w))].
Proof.
  intros Hf Hargs Hname Hst Hpeers.
  rewrite tracing_execute_command_run, prologue_execute_command_eq.
  rewrite Hargs, Hname, Hst, Hpeers.
  pose proof (Hf args kw (push_span (tagged_span name peers st w) w)) as Hs.
  destruct (f args kw (push_span (tagged_span name peers st w) w)) as [[v|e] w2];
    simpl in Hs; simpl snd.
  - exists id. split; [left; reflexivity|]. apply spans_on_span_last, Hs.
  - exists (noted e). split; [apply noted_shape|].
    apply spans_on_span_last, spans_on_span_last, Hs.
Qed.

Lemma nested_execute_command (f : list pyval -> kwargs -> M pyval)
    (kw : kwargs) (w : world) (command : pyval) (rest : list pyval) :
  (forall a k, silent (f a k)) ->
  Forall displayable (command :: rest) ->
  displayable (g_trace_prefix w) ->
  exists sp1 sp2,
    spans (snd (tracing_execute_command (tracing_execute_command f false) false
                  (command :: rest) kw w)) = spans w ++ [sp1; sp2] /\
    Forall (fun sp => operation_name sp = expected_name (g_trace_prefix w) command /\
                      base_tagged (PyUnicode (statement_text (command :: rest))) sp /\
                      finished sp = 1 /\ parent sp = current_span w) [sp1; sp2].
Proof.
  intros Hf Hall Hprefix.
  destruct (_normalize_stmt_text _ Hall) as (st & Hst & _ & Hne).
  rewrite <- (Hne ltac:(discriminate)).
  pose proof (named_expected w command Hprefix (Forall_inv Hall)) as Hname.
  set (name := expected_name (g_trace_prefix w) command) in *.
  assert (Hprops : forall w0 g, current_span w0 = current_span w ->
                     g = id \/ (exists e, g = with_error e) ->
                     let sp := mark_finished (g (tagged_span name [] st w0)) in
                     operation_name sp = name /\ base_tagged st sp /\
                     finished sp = 1 /\ parent sp = current_span w).
  { intros w0 g Hcur Hg sp.
    destruct (closed_span w0 name st [] g (NoDup_nil_2 (A:=string)) (Forall_nil_2 _) Hg)
      as (H1 & H2 & _ & H4).
    split; [exact H1|]. split; [exact H2|]. split; [exact H4|].
    subst sp. rewrite <- Hcur. destruct Hg as [-> | [e ->]]; reflexivity. }
  rewrite tracing_execute_command_run, prologue_execute_command_eq.
  cbv beta iota. rewrite Hname, Hst.
  change (peers_for PyNone w) with (Return (@nil (string * pyval))).
  cbv beta iota.
  set (sp0 := tagged_span name [] st w).
  destruct (execute_command_closed f false (command :: rest) kw (push_span sp0 w)
              PyNone command name st rest [] Hf eq_refl
              ltac:(rewrite <- Hname; apply named_reads; reflexivity) Hst eq_refl)
    as (g & Hg & Hin).
  set (sp := mark_finished (g (tagged_span name [] st (push_span sp0 w)))) in *.
  assert (Hsp : forall h, (spans w ++ [sp0]) ++ [sp] = spans w ++ sp0 :: [sp] /\
                          alter h (length (spans w)) ((spans w ++ [sp0]) ++ [sp])
                          = spans w ++ [h sp0; sp]).
  { intros h. rewrite <- app_assoc. split; [reflexivity|]. apply alter_middle. }
  destruct (tracing_execute_command f false (command :: rest) kw (push_span sp0 w))
    as [[v|e] w3]; simpl in Hin; simpl snd.
  - exists (mark_finished (id sp0)), sp. split.
    + unfold on_span. simpl. rewrite Hin. apply Hsp.
    + constructor; [|constructor; [|constructor]].
      * apply (Hprops w id eq_refl). left. reflexivity.
      * apply (Hprops (push_span sp0 w) g eq_refl Hg).
  - exists (mark_finished (noted e sp0)), sp. split.
    + unfold on_span. simpl. rewrite Hin.
      rewrite (proj2 (Hsp (noted e))).
      apply (alter_middle mark_finished (spans w) (noted e sp0) [sp]).
    + constructor; [|constructor; [|constructor]].
      * apply (Hprops w (noted e) eq_refl), noted_shape.
      * apply (Hprops (push_span sp0 w) g eq_refl Hg).
Qed.

(** X16.  Marking is not idempotent.  On a client marked twice with
    [trace_client], a command (its bookkeeping raising nothing, the
    original method starting no span) leaves two spans, the outer wrapper's
    first: both with the name and the statement of the command, both
    finished once, and both under the span that was current at the call, the
    second no child of the first. *)
Theorem marking_twice_doubles_the_spans (r : ref) (o : object) (w : world)
    (command : pyval) (rest : list pyval) (kw : kwargs) :
  heap w !! r = Some o ->
  (forall a k, silent (call (slot w r o "execute_command") a k)) ->
  Forall displayable (command :: rest) ->
  displayable (g_trace_prefix w) ->
  let w2 := snd (trace_client (PyRef r) (snd (trace_client (PyRef r) w))) in
  exists sp1 sp2,
    spans (snd (invoke (PyRef r) "execute_command" (command :: rest) kw w2))
    = spans w ++ [sp1; sp2] /\
    Forall (fun sp => operation_name sp = expected_name (g_trace_prefix w) command /\
                      base_tagged (PyUnicode (statement_text (command :: rest))) sp /\
                      finished sp = 1 /\ parent sp = current_span w) [sp1; sp2].
Proof.
  intros Ho Hf Hall Hprefix. unfold trace_client.
  rewrite (_patch_client_eq _ _ _ Ho). cbn [snd].
  erewrite _patch_client_eq; [|simpl; apply lookup_insert_eq].
  cbn [snd]. rewrite store_object_twice. cbv zeta.
  unfold invoke, bind. rewrite getattr_stored.
  replace (slot w r
             (traced_client (store_object r (traced_client w r o) w) r
                (traced_client w r o)) "execute_command")
    with (TracingExecuteCommand
            (TracingExecuteCommand (slot w r o "execute_command") false) false).
  2:{ unfold traced_client at 1. slots. unfold traced_client. slots. reflexivity. }
  change (call (TracingExecuteCommand
                  (TracingExecuteCommand (slot w r o "execute_command") false) false)
            (command :: rest) kw)
    with (tracing_execute_command
            (tracing_execute_command (call (slot w r o "execute_command")) false) false
            (command :: rest) kw).
  exact (nested_execute_command (call (slot w r o "execute_command")) kw
           (store_object r _ w) command rest Hf Hall Hprefix).
Qed.

(** X17.  The prefix is read when a command is issued, not when the
    wrapper is installed: after [setup_tracing], a wrapper that was there
    before names its spans with the prefix just given. *)
Theorem prefix_is_read_at_call_time (f : list pyval -> kwargs -> M pyval)
    (flag prefix : pyval) (w : world) (command : pyval) (rest : list pyval)
    (kw : kwargs) :
  (forall a k, silent (f a k)) ->
  Forall displayable (command :: rest) ->
  displayable prefix ->
  let w' := snd (setup_tracing flag prefix w) in
  exists sp,
    spans (snd (tracing_execute_command f false (command :: rest) kw w')) = spans w ++ [sp] /\
    operation_name sp = expected_name prefix command.
Proof.
  intros Hf Hall Hprefix.
  destruct (setup_tracing_effect flag prefix w) as (w' & -> & _ & Hp & _ & Hs & _).
  cbn [snd]. cbv zeta.
  destruct (_normalize_stmt_text _ Hall) as (st & Hst & _).
  destruct (execute_command_one_span f false (command :: rest) kw w' PyNone command
              (expected_name prefix command) st rest [] Hf eq_refl) as (sp & H1 & H2 & _).
  - rewrite <- Hp. apply named_expected; [rewrite Hp; exact Hprefix | exact (Forall_inv Hall)].
  - exact Hst.
  - reflexivity.
  - exists sp. rewrite <- Hs. split; assumption.
Qed.

(** ** Statements *)

Lemma is_ascii_take (n : nat) (t : list N) :
  is_ascii t = true -> is_ascii (take n t) = true.
Proof.
  unfold is_ascii. revert n. induction t as [|c t IH]; intros [|n] H; try reflexivity.
  simpl in *. apply andb_true_iff in H as [Hc Ht]. rewrite Hc. simpl. apply IH, Ht.
Qed.

Lemma bytes_of_encoded (t : list N) :
  is_ascii t = true -> bytes_of (string_of_list_ascii (map ascii_of_N t)) = t.
Proof.
  intros H. unfold bytes_of. rewrite list_ascii_of_string_of_list_ascii.
  unfold is_ascii in H. induction t as [|c t IH]; [reflexivity|].
  simpl in *. apply andb_true_iff in H as [Hc Ht].
  rewrite N_ascii_embedding by (apply N.ltb_lt in Hc; lia).
  f_equal. apply IH, Ht.
Qed.

Lemma contribution_ascii (s : string) : is_ascii (contribution s) = true.
Proof.
  unfold contribution, unicode. destruct (is_ascii (bytes_of s)) eqn:H.
  - apply is_ascii_take, H.
  - reflexivity.
Qed.

Lemma _truncate_returns (val r : pyval) :
  _truncate val = Return r -> displayable val /\ r = PyUnicode (piece val).
Proof.
  intros H. destruct (py_str val) as [s|e] eqn:Hs.
  - rewrite (_truncate_display _ _ Hs) in H. injection H as <-.
    unfold displayable, piece, display. rewrite Hs. split; reflexivity.
  - rewrite (_truncate_raises _ _ Hs) in H. discriminate.
Qed.

Lemma omap_truncate_returns (args : list pyval) (us : list pyval) :
  omap _truncate args = Return us -> Forall displayable args.
Proof.
  revert us. induction args as [|a args IH]; intros us H; [constructor|].
  simpl in H. destruct (_truncate a) as [r|e] eqn:Ha; [|discriminate].
  simpl in H. destruct (omap _truncate args) as [rs|e] eqn:Hr; [|discriminate].
  constructor; [exact (proj1 (_truncate_returns _ _ Ha)) | exact (IH rs eq_refl)].
Qed.

Lemma length_ujoin (sep : ustring) (items : list ustring) (k : nat) :
  Forall (fun t => length t <= k) items ->
  length (ujoin sep items) <= (k + length sep) * length items.
Proof.
  induction items as [|x [|y rest] IH]; intros H.
  - simpl. lia.
  - pose proof (Forall_inv H) as Hx. simpl in Hx. cbn [ujoin length].
    rewrite Nat.mul_1_r. lia.
  - change (ujoin sep (x :: y :: rest)) with (x ++ sep ++ ujoin sep (y :: rest)).
    rewrite !length_app. pose proof (Forall_inv H) as Hx. simpl in Hx.
    specialize (IH (Forall_inv_tail H)).
    change (length (x :: y :: rest)) with (S (length (y :: rest))).
    rewrite Nat.mul_succ_r. lia.
Qed.

Lemma statement_text_ascii (args : list pyval) : is_ascii (statement_text args) = true.
Proof.
  unfold statement_text. apply is_ascii_ujoin; [reflexivity|].
  induction args as [|a args IH]; simpl; constructor;
    [apply contribution_ascii | exact IH].
Qed.

Lemma statement_text_length (args : list pyval) :
  length (statement_text args) <= (_ARGUMENT_LENGTH_LIMIT + 1) * length args.
Proof.
  unfold statement_text.
  pose proof (length_ujoin (ulit " ") (map piece args) _ARGUMENT_LENGTH_LIMIT) as H.
  rewrite length_map in H. apply H. clear H.
  induction args as [|a args IH]; simpl; constructor;
    [apply contribution_short | exact IH].
Qed.

(** X18.  Whenever [_truncate] returns, it gives a unicode of at most 128
    characters, all of them ASCII, and truncating that again gives it
    back. *)
Theorem truncate_gives_short_ascii (val r : pyval) :
  _truncate val = Return r ->
  exists t, r = PyUnicode t /\ length t <= _ARGUMENT_LENGTH_LIMIT /\
            is_ascii t = true /\ _truncate r = Return r.
Proof.
  intros H. destruct (_truncate_returns _ _ H) as [_ ->].
  exists (piece val). split; [reflexivity|].
  pose proof (contribution_short (display val)) as Hlen.
  pose proof (contribution_ascii (display val)) as Hasc.
  fold (piece val) in Hlen, Hasc.
  split; [exact Hlen|]. split; [exact Hasc|].
  erewrite _truncate_display; [|simpl; unfold encode_ascii; rewrite Hasc; reflexivity].
  unfold contribution, unicode. rewrite (bytes_of_encoded _ Hasc), Hasc.
  rewrite take_ge by exact Hlen. reflexivity.
Qed.

(** X19.  Whenever [_normalize_stmt] returns, the statement is the
    contributions of the arguments joined by single spaces, all ASCII, and
    no longer than 129 characters for each argument. *)
Theorem statement_is_bounded_ascii (args : list pyval) (st : pyval) :
  _normalize_stmt args = Return st ->
  text_of st = Some (statement_text args) /\
  is_ascii (statement_text args) = true /\
  length (statement_text args) <= (_ARGUMENT_LENGTH_LIMIT + 1) * length args.
Proof.
  intros H.
  assert (Hall : Forall displayable args).
  { unfold _normalize_stmt in H.
    destruct (omap _truncate args) as [us|e] eqn:Hus; [|discriminate].
    exact (omap_truncate_returns _ _ Hus). }
  destruct (_normalize_stmt_text _ Hall) as (st' & Hst & Htext & _).
  rewrite Hst in H. injection H as <-.
  split; [exact Htext|]. split; [apply statement_text_ascii | apply statement_text_length].
Qed.

(** ** Calls that fail before a span is started *)

Lemma bind_params_too_many (params : list (string * option pyval)) :
  forall (args : list pyval) (kw : kwargs),
    length params < length args -> bind_params params args kw = Raise TypeError.
Proof.
  induction params as [|[n d] params IH]; intros [|a args] kw Hlen; simpl in *; try lia.
  - reflexivity.
  - destruct (kw !! n); [reflexivity|]. rewrite IH by lia. reflexivity.
Qed.

Lemma bind_params_raises (params : list (string * option pyval)) :
  forall (args : list pyval) (kw : kwargs) (e : exn),
    bind_params params args kw = Raise e -> e = TypeError.
Proof.
  induction params as [|[n d] params IH]; intros [|a args] kw e H; simpl in H.
  - discriminate.
  - congruence.
  - destruct (kw !! n) as [v|].
    + destruct (bind_params params [] (delete n kw)) eqn:Hb; [discriminate|].
      simpl in H. injection H as <-. exact (IH _ _ _ Hb).
    + destruct d as [d|]; [|congruence].
      destruct (bind_params params [] kw) eqn:Hb; [discriminate|].
      simpl in H. injection H as <-. exact (IH _ _ _ Hb).
  - destruct (kw !! n) as [v|]; [congruence|].
    destruct (bind_params params args kw) eqn:Hb; [discriminate|].
    simpl in H. injection H as <-. exact (IH _ _ _ Hb).
Qed.

Lemma bind_params_leftover (params : list (string * option pyval)) (k : string) (v : pyval) :
  k ∉ map fst params ->
  forall (args : list pyval) (kw : kwargs) (b : list pyval * kwargs),
    bind_params params args kw = Return b -> kw !! k = Some v -> snd b !! k = Some v.
Proof.
  induction params as [|[n d] params IH]; intros Hk [|a args] kw b H Hkw; simpl in H.
  - injection H as <-. exact Hkw.
  - discriminate.
  - simpl in Hk. apply not_elem_of_cons in Hk as [Hn Hk].
    destruct (kw !! n) as [v'|].
    + destruct (bind_params params [] (delete n kw)) as [b'|] eqn:Hb; [|discriminate].
      simpl in H. injection H as <-. simpl.
      apply (IH Hk _ _ _ Hb). rewrite lookup_delete_ne by congruence. exact Hkw.
    + destruct d as [d|]; [|discriminate].
      destruct (bind_params params [] kw) as [b'|] eqn:Hb; [|discriminate].
      simpl in H. injection H as <-. simpl. exact (IH Hk _ _ _ Hb Hkw).
  - simpl in Hk. apply not_elem_of_cons in Hk as [Hn Hk].
    destruct (kw !! n) as [v'|]; [discriminate|].
    destruct (bind_params params args kw) as [b'|] eqn:Hb; [|discriminate].
    simpl in H. injection H as <-. simpl. exact (IH Hk _ _ _ Hb Hkw).
Qed.

Lemma bind_exact_rejects (params : list (string * option pyval)) (args : list pyval)
    (kw : kwargs) :
  length params < length args \/ (exists k v, kw !! k = Some v /\ k ∉ map fst params) ->
  bind_exact params args kw = Raise TypeError.
Proof.
  intros H. unfold bind_exact.
  destruct (bind_params params args kw) as [b|e] eqn:Hb.
  - destruct H as [Hlen | (k & v & Hkw & Hk)].
    + rewrite (bind_params_too_many _ _ _ Hlen) in Hb. discriminate.
    + simpl. destruct (decide (size (snd b) = 0)) as [Hsize|]; [|reflexivity].
      apply map_size_empty_inv in Hsize.
      pose proof (bind_params_leftover _ _ _ Hk _ _ _ Hb Hkw) as Hl.
      rewrite Hsize, lookup_empty in Hl. discriminate.
  - simpl. rewrite (bind_params_raises _ _ _ _ Hb). reflexivity.
Qed.

(** X20.  The wrappers of [execute] and [parse_response] keep the
    signature of what they wrap: a positional argument too many, or a
    keyword that is none of its parameters, is a [TypeError], raised before
    a span is started or the original called. *)
Theorem wrong_arguments_are_rejected (obj : pyval) (f : list pyval -> kwargs -> M pyval)
    (args : list pyval) (kw : kwargs) (w : world) :
  (1 < length args \/ (exists k v, kw !! k = Some v /\ k <> "raise_on_error") ->
   tracing_execute obj f args kw w = (Raise TypeError, w)) /\
  (2 < length args \/ (exists k v, kw !! k = Some v /\ k <> "block" /\ k <> "timeout") ->
   tracing_parse_response obj f args kw w = (Raise TypeError, w)).
Proof.
  split; intros H.
  - unfold tracing_execute. unfold bind at 1. unfold lift.
    fold execute_signature. rewrite bind_exact_rejects; [reflexivity|].
    destruct H as [H | (k & v & Hkw & Hk)]; [left; exact H|].
    right. exists k, v. split; [exact Hkw|]. simpl.
    rewrite !not_elem_of_cons. split; [exact Hk | apply not_elem_of_nil].
  - unfold tracing_parse_response. unfold bind at 1. unfold lift.
    fold parse_response_signature. rewrite bind_exact_rejects; [reflexivity|].
    destruct H as [H | (k & v & Hkw & Hk1 & Hk2)]; [left; exact H|].
    right. exists k, v. split; [exact Hkw|]. simpl.
    rewrite !not_elem_of_cons. repeat split; try assumption. apply not_elem_of_nil.
Qed.

(** X21.  What goes wrong before the span is started leaves nothing
    behind and calls nothing: a command without a name is an [IndexError];
    a name that cannot be formatted under the prefix raises what the
    formatting raises; a pipeline whose [command_stack] cannot be read
    raises what the read raises. *)
Theorem early_failures_start_no_span (f : list pyval -> kwargs -> M pyval)
    (pipe : pyval) (args : list pyval) (kw : kwargs) (w : world) :
  (forall is_klass : bool, (if is_klass then tail args else args) = [] ->
     tracing_execute_command f is_klass args kw w = (Raise IndexError, w)) /\
  tracing_immediate_execute_command pipe f [] kw w = (Raise IndexError, w) /\
  (forall command rest e,
     args = command :: rest -> named w command = Raise e ->
     tracing_execute_command f false args kw w = (Raise e, w) /\
     tracing_immediate_execute_command pipe f args kw w = (Raise e, w)) /\
  (forall b e,
     bind_exact execute_signature args kw = Return b ->
     fst (get_command_stack pipe w) = Raise e ->
     tracing_execute pipe f args kw w = (Raise e, w)).
Proof.
  split; [|split; [|split]].
  - intros is_klass H.
    rewrite tracing_execute_command_run, prologue_execute_command_eq.
    destruct is_klass; [destruct args as [|self [|command rest]]; try discriminate H|
                        rewrite H]; reflexivity.
  - rewrite tracing_immediate_execute_command_run, prologue_immediate_eq. reflexivity.
  - intros command rest e -> Hname. split.
    + rewrite tracing_execute_command_run, prologue_execute_command_eq.
      cbv beta iota. rewrite Hname. reflexivity.
    + rewrite tracing_immediate_execute_command_run, prologue_immediate_eq.
      rewrite Hname. reflexivity.
  - intros b e Hb Hstack. unfold tracing_execute. unfold bind at 1. unfold lift.
    fold execute_signature. rewrite Hb.
    unfold bind at 1. rewrite get_command_stack_read_only, Hstack. reflexivity.
Qed.

(** ** Pipelines made after the activation *)

(** X22.  A pipeline made by [client.pipeline()] after the client was
    marked, or after the activation for all clients, is traced: the call
    goes to the original factory with [True] and [None] by position, and the
    pipeline that comes back has the wrappers on [execute] and
    [immediate_execute_command]. *)
Theorem new_pipelines_are_traced (r : ref) (o : object) (w w1 : world)
    (p : ref) (po : object) :
  heap w !! r = Some o ->
  heap w1 !! p = Some po ->
  (let w' := snd (trace_client (PyRef r) w) in
   call (slot w r o "pipeline") [PyBool true; PyNone] ∅ w' = (Return (PyRef p), w1) ->
   invoke (PyRef r) "pipeline" [] ∅ w'
   = (Return (PyRef p), store_object p (traced_pipe w1 p po) w1)) /\
  (forall flag prefix,
     py_truth (heap w) flag = true ->
     obj_class o = "redis.client.StrictRedis" ->
     obj_dict o !! "pipeline" = None ->
     let w' := snd (setup_tracing flag prefix w) in
     call (class_function w "redis.client.StrictRedis" "pipeline")
       [PyRef r; PyBool true; PyNone] ∅ w' = (Return (PyRef p), w1) ->
     invoke (PyRef r) "pipeline" [] ∅ w'
     = (Return (PyRef p), store_object p (traced_pipe w1 p po) w1)).
Proof.
  intros Ho Hpo. split.
  - unfold trace_client. rewrite (_patch_client_eq _ _ _ Ho). cbn [snd]. cbv zeta.
    intros Hf. unfold invoke, bind. rewrite getattr_stored.
    replace (slot w r (traced_client w r o) "pipeline")
      with (ClientTracingPipeline (slot w r o "pipeline"))
      by (unfold traced_client; slots; reflexivity).
    change (call (ClientTracingPipeline (slot w r o "pipeline")) [] ∅)
      with (_patch_client_tracing_pipeline (call (slot w r o "pipeline")) [] ∅).
    unfold _patch_client_tracing_pipeline.
    unfold bind at 1. unfold lift.
    change (bind_exact [("transaction", Some (PyBool true)); ("shard_hint", Some PyNone)]
              [] ∅) with (Return [PyBool true; PyNone]).
    cbv beta iota. change (param 0 [PyBool true; PyNone]) with (PyBool true).
    change (param 1 [PyBool true; PyNone]) with PyNone.
    unfold bind at 1. rewrite Hf.
    unfold bind at 1. rewrite (_patch_pipe_execute_eq _ _ _ Hpo). reflexivity.
  - intros flag prefix Hflag Hcls Hdict.
    destruct (setup_tracing_effect flag prefix w)
      as (w' & -> & _ & _ & Hh & _ & _ & _ & _ & _ & Hcf).
    cbn [snd]. cbv zeta. intros Hf. unfold invoke, bind.
    rewrite <- Hh in Ho. rewrite (getattr_first _ _ _ _ Ho).
    unfold slot. rewrite Hdict, Hcls, Hcf, Hflag, from_StrictRedis_itself.
    rewrite (bool_decide_eq_true_2 ("pipeline" ∈ patched_names))
      by (apply list_elem_of_further, list_elem_of_here).
    change (call (Bound r (if true && true && true
                           then rewrap class_wrappers "pipeline"
                                  (class_function w "redis.client.StrictRedis" "pipeline")
                           else class_function w "redis.client.StrictRedis" "pipeline"))
              [] ∅)
      with (_patch_redis_classes_tracing_pipeline
              (call (class_function w "redis.client.StrictRedis" "pipeline")) [PyRef r] ∅).
    unfold _patch_redis_classes_tracing_pipeline.
    unfold bind at 1. unfold lift.
    change (bind_exact [("self", None); ("transaction", Some (PyBool true));
                        ("shard_hint", Some PyNone)] [PyRef r] ∅)
      with (Return [PyRef r; PyBool true; PyNone]).
    cbv beta iota. change (param 0 [PyRef r; PyBool true; PyNone]) with (PyRef r).
    change (param 1 [PyRef r; PyBool true; PyNone]) with (PyBool true).
    change (param 2 [PyRef r; PyBool true; PyNone]) with PyNone.
    unfold bind at 1. rewrite Hf.
    unfold bind at 1. rewrite (_patch_pipe_execute_eq _ _ _ Hpo). reflexivity.
Qed.

End FurtherProperties.

(** ** The further properties on the small library *)

Section FurtherExamples.
Local Existing Instance demo.

(** The theorem of C4 on a command and a batch that the server rejects, on
    a pubsub that was never subscribed, on an immediate command that the
    server rejects, and on an immediate command interrupted from the
    keyboard. *)
Lemma raised_exception_witness :
  (exists w3,
      tracing_execute_command (call (Bound 1 orig_execute_command)) false
        [PyStr "BOOM"] ∅ demo_prefixed = (Raise (LibraryError 7), w3) /\
      error_recorded 0 (LibraryError 7) w3) /\
  (exists w3,
      tracing_execute (PyRef 6) (call (Bound 6 orig_execute)) [] ∅ demo_prefixed
        = (Raise (LibraryError 7), w3) /\
      error_recorded 0 (LibraryError 7) w3) /\
  (exists w3,
      tracing_parse_response (PyRef 3) (call (Bound 3 orig_parse_response)) [] ∅
        demo_prefixed = (Raise (LibraryError 9), w3) /\
      error_recorded 0 (LibraryError 9) w3) /\
  (exists w3,
      tracing_immediate_execute_command (PyRef 5) (call (Bound 5 orig_immediate))
        [PyStr "BOOM"] ∅ demo_prefixed = (Return PyNone, w3) /\
      error_recorded 0 (LibraryError 7) w3) /\
  (exists w3,
      tracing_immediate_execute_command (PyRef 5) (call (Bound 5 orig_immediate))
        [PyStr "WAIT"] ∅ demo_prefixed = (Raise KeyboardInterrupt, w3) /\
      finished_clean 0 w3).
Proof.
  split; [|split; [|split; [|split]]].
  - eapply (proj1 (raised_exception_is_tagged (Bound 1 orig_execute_command)
                     (LibraryError 7))); reflexivity.
  - eapply (proj1 (proj2 (raised_exception_is_tagged (Bound 6 orig_execute)
                            (LibraryError 7)))); reflexivity.
  - eapply (proj1 (proj2 (proj2 (raised_exception_is_tagged (Bound 3 orig_parse_response)
                                   (LibraryError 9))))); reflexivity.
  - eapply (proj2 (proj2 (proj2 (raised_exception_is_tagged (Bound 5 orig_immediate)
                                   (LibraryError 7))))); reflexivity.
  - eapply (proj2 (proj2 (proj2 (raised_exception_is_tagged (Bound 5 orig_immediate)
                                   KeyboardInterrupt)))); reflexivity.
Defined.

(** C4 fails.  [WAIT] on the traced client 1 is interrupted from the
    keyboard while it blocks: the caller gets the [KeyboardInterrupt] and
    the span was finished, but it carries neither [error] nor
    [error.object]. *)
Lemma interrupt_is_not_tagged :
  let traced :=
    (trace_client (PyRef 1) ;;; invoke (PyRef 1) "execute_command" [PyStr "WAIT"] ∅)
      demo_prefixed in
  fst traced = Raise KeyboardInterrupt /\
  map (fun sp => (operation_name sp, tags sp !! "error", tags sp !! "error.object",
                  finished sp))
      (spans (snd traced))
  = [(PyStr "Redis/WAIT", None, None, 1)].
Proof. vm_compute. split; reflexivity. Qed.


Lemma base_tags_witness :
  let w := push_span (fresh_span (PyStr "GET") demo_world) demo_world in
  exists sp',
    _set_base_span_tags (PyRef 1) 0 (PyStr "GET a") w
    = (Return tt, on_span (fun _ => sp') 0 w) /\
    base_tagged (PyStr "GET a") sp' /\ carries demo_peers sp'.
Proof.
  intros w.
  pose proof (base_tags_are_set (PyRef 1) (PyStr "GET a") 0 w
                (fresh_span (PyStr "GET") demo_world) eq_refl) as H.
  change (peers_for (PyRef 1) w) with (Return demo_peers) in H. cbv beta iota in H.
  destruct H as (sp' & H1 & _ & _ & _ & H2 & H3 & _).
  exists sp'. split; [exact H1|]. split; [exact H2 | exact H3].
Defined.

Lemma normal_return_witness :
  exists w1 w2 sp,
    call (Bound 1 orig_execute_command) [PyStr "GET"; PyStr "a"] ∅ w1
    = (Return (PyStr "OK"), w2) /\
    spans (snd (tracing_execute_command (call (Bound 1 orig_execute_command)) false
                  [PyStr "GET"; PyStr "a"] ∅ demo_prefixed))
      !! length (spans demo_prefixed) = Some sp /\
    finished sp = 1 /\ no_error_tags sp.
Proof.
  apply (proj1 (normal_return_leaves_clean_span (Bound 1 orig_execute_command)
                  (PyStr "OK")) false [PyStr "GET"; PyStr "a"] ∅ demo_prefixed).
  reflexivity.
Defined.

Lemma pubsub_receive_witness :
  exists sp,
    spans (snd (tracing_parse_response (PyRef 3) (call (Bound 3 orig_parse_response))
                  [] ∅ demo_prefixed)) = spans demo_prefixed ++ [sp] /\
    operation_name sp = PyStr "Redis/SUB" /\ base_tagged (PyStr "") sp /\
    carries demo_peers sp /\ finished sp = 1.
Proof.
  apply (pubsub_receive_span (PyRef 3) (call (Bound 3 orig_parse_response)) [] ∅
           demo_prefixed [PyBool true; PyInt 0] demo_peers).
  - intros a k. apply call_bound_original_silent.
  - reflexivity.
  - reflexivity.
  - reflexivity.
Defined.

Lemma immediate_command_witness :
  let traced := tracing_immediate_execute_command (PyRef 5) (call (Bound 5 orig_immediate))
                  [PyStr "WATCH"; PyStr "k"] ∅ demo_prefixed in
  fst traced = Return PyNone /\
  exists sp,
    spans (snd traced) = spans demo_prefixed ++ [sp] /\
    operation_name sp = PyStr "Redis/WATCH" /\
    base_tagged (PyUnicode (ulit "WATCH k")) sp /\
    finished sp = 1 /\ no_peer_tags sp.
Proof.
  intros traced.
  destruct (immediate_command_span (PyRef 5) (call (Bound 5 orig_immediate))
              [PyStr "WATCH"; PyStr "k"] ∅ demo_prefixed (PyStr "WATCH") [PyStr "k"] [])
    as (H1 & _ & _ & sp & H2 & H3 & H4 & _ & H5 & H6).
  - intros a k. apply call_bound_original_silent.
  - reflexivity.
  - repeat constructor.
  - reflexivity.
  - reflexivity.
  - split; [exact H1|]. exists sp.
    split; [exact H2|]. split; [exact H3|]. split; [exact H4|]. split; [exact H5|].
    apply H6. reflexivity.
Defined.

Lemma failed_bookkeeping_witness :
  exists sp,
    tracing_execute_command (call orig_execute_command) true
      [PyRef 7; PyStr "GET"; PyStr "a"] ∅ demo_prefixed
    = (Raise AttributeError, push_span sp demo_prefixed) /\
    operation_name sp = PyStr "Redis/GET" /\ tags sp = ∅ /\ finished sp = 0.
Proof.
  apply (failed_bookkeeping_leaves_open_span (call orig_execute_command) true
           [PyRef 7; PyStr "GET"; PyStr "a"] ∅ demo_prefixed
           (PyRef 7) (PyStr "GET") (PyStr "Redis/GET") [PyStr "a"] AttributeError).
  - reflexivity.
  - reflexivity.
  - right. split; [eexists; reflexivity | reflexivity].
Defined.

Lemma no_object_witness :
  trace_client PyNone demo_world = (Raise AttributeError, demo_world) /\
  trace_pipeline PyNone demo_world = (Raise AttributeError, demo_world) /\
  trace_pubsub PyNone demo_world = (Raise AttributeError, demo_world).
Proof.
  apply (activation_needs_an_object PyNone demo_world).
  - intros cls. discriminate.
  - intros r. discriminate.
Defined.


Lemma existing_pipeline_witness :
  let w' := snd (setup_tracing (PyBool true) (PyStr "Redis") demo_world) in
  invoke (PyRef 2) "execute" [] ∅ w' = call (Bound 2 orig_execute) [] ∅ w' /\
  getattr_method (PyRef 2) "pipeline" w'
  = (Return (Bound 2 (KlassTracingPipeline
                        (Original "redis.client.StrictRedis" "pipeline"))), w').
Proof.
  intros w'. split.
  - refine (proj2 (proj1 (existing_pipeline_stays_untraced (PyBool true) (PyStr "Redis")
                            demo_world 2 (demo_pipe demo_batch) "execute" [] ∅ eq_refl)
                     _)).
    right. left. reflexivity.
  - refine (proj2 (existing_pipeline_stays_untraced (PyBool true) (PyStr "Redis")
                     demo_world 2 (demo_pipe demo_batch) "pipeline" [] ∅ eq_refl)
              eq_refl eq_refl eq_refl _).
    apply list_elem_of_further, list_elem_of_here.
Defined.

Lemma pipeline_factory_witness :
  _patch_client_tracing_pipeline (fun _ _ w => (Return (PyRef 5), w)) [] ∅ demo_world
  = (Return (PyRef 5), store_object 5 (traced_pipe demo_world 5 (demo_pipe [])) demo_world).
Proof.
  eapply (proj1 (traced_pipeline_factory (fun _ _ w => (Return (PyRef 5), w)) [] ∅
                   demo_world [PyBool true; PyNone])); reflexivity.
Defined.

Lemma pubsub_factory_witness :
  _patch_client_tracing_pubsub (fun _ _ w => (Return (PyRef 3), w)) [] ∅ demo_world
  = (Return (PyRef 3), store_object 3 (traced_pubsub demo_world 3 demo_pubsub) demo_world).
Proof.
  apply (proj1 (traced_pubsub_factory (fun _ _ w => (Return (PyRef 3), w)) ∅
                  demo_world demo_world 3 demo_pubsub eq_refl)).
  reflexivity.
Defined.

Lemma marking_twice_witness :
  let w2 := snd (trace_client (PyRef 1) (snd (trace_client (PyRef 1) demo_prefixed))) in
  exists sp1 sp2,
    spans (snd (invoke (PyRef 1) "execute_command" [PyStr "GET"; PyStr "a"] ∅ w2))
    = spans demo_prefixed ++ [sp1; sp2] /\
    Forall (fun sp => operation_name sp = PyStr "Redis/GET" /\
                      base_tagged (PyUnicode (ulit "GET a")) sp /\
                      finished sp = 1 /\ parent sp = None) [sp1; sp2].
Proof.
  apply (marking_twice_doubles_the_spans 1 demo_client demo_prefixed (PyStr "GET")
           [PyStr "a"] ∅).
  - reflexivity.
  - intros a k. exact (call_bound_original_silent 1 _ _ a k).
  - repeat constructor.
  - reflexivity.
Defined.

Lemma prefix_witness :
  let w' := snd (setup_tracing (PyBool false) (PyStr "Cache") demo_world) in
  exists sp,
    spans (snd (tracing_execute_command (call (Bound 1 orig_execute_command)) false
                  [PyStr "GET"; PyStr "a"] ∅ w')) = spans demo_world ++ [sp] /\
    operation_name sp = PyStr "Cache/GET".
Proof.
  apply (prefix_is_read_at_call_time (call (Bound 1 orig_execute_command))
           (PyBool false) (PyStr "Cache") demo_world (PyStr "GET") [PyStr "a"] ∅).
  - intros a k. apply call_bound_original_silent.
  - repeat constructor.
  - reflexivity.
Defined.

Lemma truncate_witness :
  exists t, PyUnicode (ulit "{bytes}") = PyUnicode t /\
            length t <= _ARGUMENT_LENGTH_LIMIT /\ is_ascii t = true /\
            _truncate (PyUnicode (ulit "{bytes}")) = Return (PyUnicode (ulit "{bytes}")).
Proof.
  apply (truncate_gives_short_ascii (PyStr demo_binary) (PyUnicode (ulit "{bytes}"))).
  reflexivity.
Defined.

Lemma statement_witness :
  text_of (PyUnicode (ulit "SET k {bytes}"))
  = Some (statement_text [PyStr "SET"; PyStr "k"; PyStr demo_binary]) /\
  is_ascii (statement_text [PyStr "SET"; PyStr "k"; PyStr demo_binary]) = true /\
  length (statement_text [PyStr "SET"; PyStr "k"; PyStr demo_binary])
  <= (_ARGUMENT_LENGTH_LIMIT + 1) * 3.
Proof.
  apply (statement_is_bounded_ascii [PyStr "SET"; PyStr "k"; PyStr demo_binary]
           (PyUnicode (ulit "SET k {bytes}"))).
  reflexivity.
Defined.

Lemma wrong_arguments_witness :
  tracing_execute (PyRef 2) (call (Bound 2 orig_execute)) [PyBool true; PyBool false] ∅
    demo_world = (Raise TypeError, demo_world) /\
  tracing_parse_response (PyRef 3) (call (Bound 3 orig_parse_response)) []
    {[ "blocking" := PyBool true ]} demo_world = (Raise TypeError, demo_world).
Proof.
  split.
  - apply (proj1 (wrong_arguments_are_rejected (PyRef 2) (call (Bound 2 orig_execute))
                    [PyBool true; PyBool false] ∅ demo_world)).
    left. simpl. lia.
  - apply (proj2 (wrong_arguments_are_rejected (PyRef 3)
                    (call (Bound 3 orig_parse_response)) []
                    {[ "blocking" := PyBool true ]} demo_world)).
    right. exists "blocking", (PyBool true).
    split; [reflexivity|]. split; discriminate.
Defined.

Lemma early_failure_witness :
  tracing_execute_command (call (Bound 1 orig_execute_command)) false
    [PyUnicode [233%N]] ∅ demo_prefixed = (Raise UnicodeEncodeError, demo_prefixed) /\
  tracing_execute (PyRef 1) (call (Bound 1 orig_execute)) [] ∅ demo_prefixed
  = (Raise AttributeError, demo_prefixed).
Proof.
  split.
  - apply (proj1 (proj2 (proj2 (early_failures_start_no_span
                                  (call (Bound 1 orig_execute_command)) (PyRef 1)
                                  [PyUnicode [233%N]] ∅ demo_prefixed)))
             (PyUnicode [233%N]) [] UnicodeEncodeError eq_refl).
    reflexivity.
  - apply (proj2 (proj2 (proj2 (early_failures_start_no_span
                                  (call (Bound 1 orig_execute)) (PyRef 1)
                                  [] ∅ demo_prefixed)))
             [PyBool true] AttributeError); reflexivity.
Defined.

End FurtherExamples.

(** ** A pipeline made by the library with its factories *)

Section FactoryExamples.
Local Existing Instance factory.

Lemma new_pipelines_witness :
  let w' := snd (setup_tracing (PyBool true) (PyStr "Redis") factory_world) in
  exists w2,
    invoke (PyRef 1) "pipeline" [] ∅ w' = (Return (PyRef 8), w2) /\
    fst (getattr_method (PyRef 8) "execute" w2)
    = Return (TracingExecute (PyRef 8)
                (Bound 8 (Original "redis.client.StrictPipeline" "execute"))).
Proof.
  intros w'. eexists. split.
  - refine (proj2 (new_pipelines_are_traced 1 demo_client factory_world
                     (set_lib (<[8 := demo_pipe []]> (heap w')) (lib_state w') w')
                     8 (demo_pipe []) eq_refl eq_refl)
              (PyBool true) (PyStr "Redis") eq_refl eq_refl eq_refl _).
    reflexivity.
  - reflexivity.
Defined.

End FactoryExamples.
